(** * A shallow embedding of the to-do tracker ([app.py])

    The application keeps its tasks as a Python list of dictionaries,
    writes them to [todo_data.json] with [json.dump(tasks, f, indent=4)]
    and reads them back with [json.load].  The embedding follows that
    layering:

    - [Text]: Python [str] as sequences of code points;
    - [Py]: the Python values that [json] reads and writes, and the
      dictionary operations the program uses;
    - [Json]: [json.dumps(_, indent=4)] and [json.loads];
    - [Codec]: the text encoding used by [open(_, "r")] / [open(_, "w")];
    - [Store]: [load_tasks] and [save_tasks];
    - [App]: the session state, the mutations and the derived views;
    - [Samples]: concrete tasks, forms and clock readings.

    The properties follow the definitions: first the facts about the
    layers, then one theorem for each claim of the specification. *)

From Stdlib Require Import ZArith QArith Qabs String Ascii DecimalZ DecimalPos DecimalFacts Lia.
From Stdlib Require SpecFloat.
From stdpp Require Import base option list gmap.

Open Scope Z_scope.

Set Warnings "-register-all".

(** ** Text *)

Module Text.

(** A Python [str] is a sequence of code points. *)
Definition text := list Z.

(** [ord c] for an ASCII character literal. *)
Definition ord (a : ascii) : Z := Z.of_N (N_of_ascii a).

(** A [str] literal of the source. *)
Definition lit (s : string) : text := map ord (list_ascii_of_string s).

(** The range of [chr]. *)
Definition code_point (c : Z) : Prop := 0 <= c < 1114112.

Definition high_surrogate (c : Z) : bool := (55296 <=? c) && (c <=? 56319).
Definition low_surrogate (c : Z) : bool := (56320 <=? c) && (c <=? 57343).

(** No high surrogate is directly followed by a low one. *)
Fixpoint no_split_pair (s : text) : Prop :=
  match s with
  | c :: r =>
      match r with
      | c' :: _ => high_surrogate c && low_surrogate c' = false
      | [] => True
      end /\ no_split_pair r
  | [] => True
  end.

(** The strings of the running program: code points, with no surrogate
    pair split in two.  Text typed into a widget has no surrogates at
    all, and [json.load] joins every pair it reads. *)
Definition well_formed (s : text) : Prop :=
  Forall code_point s /\ no_split_pair s.

(** Unicode scalar values: code points other than surrogates. *)
Definition scalarb (c : Z) : bool :=
  ((0 <=? c) && (c <? 55296)) || ((57344 <=? c) && (c <? 1114112)).

Definition is_ascii (c : Z) : Prop := 0 <= c < 128.

Definition text_eqb (s t : text) : bool := bool_decide (s = t).

(** [s.startswith(p)] *)
Fixpoint starts_with (p s : text) : bool :=
  match p, s with
  | [], _ => true
  | _ :: _, [] => false
  | a :: p', b :: s' => (a =? b) && starts_with p' s'
  end.

(** [needle in haystack] *)
Fixpoint contains (needle haystack : text) : bool :=
  starts_with needle haystack ||
  match haystack with
  | [] => false
  | _ :: h' => contains needle h'
  end.

(** [bool(s)] for a [str]. *)
Definition nonempty (s : text) : bool :=
  match s with [] => false | _ :: _ => true end.

(** *** Decimal numerals: [repr] of an [int] and its inverse *)

Fixpoint uint_chars (d : Decimal.uint) : text :=
  match d with
  | Decimal.Nil => []
  | Decimal.D0 d => 48 :: uint_chars d
  | Decimal.D1 d => 49 :: uint_chars d
  | Decimal.D2 d => 50 :: uint_chars d
  | Decimal.D3 d => 51 :: uint_chars d
  | Decimal.D4 d => 52 :: uint_chars d
  | Decimal.D5 d => 53 :: uint_chars d
  | Decimal.D6 d => 54 :: uint_chars d
  | Decimal.D7 d => 55 :: uint_chars d
  | Decimal.D8 d => 56 :: uint_chars d
  | Decimal.D9 d => 57 :: uint_chars d
  end.

(** [str(z)] / [int.__repr__]: decimal, with a sign for negatives. *)
Definition str_of_int (z : Z) : text :=
  match Z.to_int z with
  | Decimal.Pos d => uint_chars d
  | Decimal.Neg d => ord "-" :: uint_chars d
  end.

Definition is_digit (c : Z) : bool := (48 <=? c) && (c <=? 57).

Definition digit_of (c : Z) : option (Decimal.uint -> Decimal.uint) :=
  if c =? 48 then Some Decimal.D0
  else if c =? 49 then Some Decimal.D1
  else if c =? 50 then Some Decimal.D2
  else if c =? 51 then Some Decimal.D3
  else if c =? 52 then Some Decimal.D4
  else if c =? 53 then Some Decimal.D5
  else if c =? 54 then Some Decimal.D6
  else if c =? 55 then Some Decimal.D7
  else if c =? 56 then Some Decimal.D8
  else if c =? 57 then Some Decimal.D9
  else None.

(** The longest prefix of decimal digits and what follows it. *)
Fixpoint scan_digits (s : text) : Decimal.uint * text :=
  match s with
  | [] => (Decimal.Nil, [])
  | c :: r =>
      match digit_of c with
      | Some dk => let '(d, rest) := scan_digits r in (dk d, rest)
      | None => (Decimal.Nil, s)
      end
  end.

End Text.

Export Text.

(** ** Python values *)

Module Py.

(** The values [json.load] produces and [json.dump] accepts, floats
    apart: the task file of this application holds none.  A [dict] is
    kept as its items in insertion order; its keys are [str]. *)
Inductive pyval : Type :=
  | PNone
  | PBool (b : bool)
  | PInt (z : Z)
  | PStr (s : text)
  | PList (l : list pyval)
  | PDict (d : list (text * pyval)).

Definition dict := list (text * pyval).

(** [d.get(k)]: the value bound to [k], if any. *)
Fixpoint dict_get (d : dict) (k : text) : option pyval :=
  match d with
  | [] => None
  | (k', v) :: d' => if text_eqb k' k then Some v else dict_get d' k
  end.

(** [k in d] *)
Definition dict_has (d : dict) (k : text) : bool :=
  match dict_get d k with Some _ => true | None => false end.

(** [d[k] = v]: an existing key keeps its place, a new one goes last. *)
Fixpoint dict_set (d : dict) (k : text) (v : pyval) : dict :=
  match d with
  | [] => [(k, v)]
  | (k', v') :: d' =>
      if text_eqb k' k then (k', v) :: d' else (k', v') :: dict_set d' k v
  end.

(** [dict(pairs)] *)
Definition dict_of_pairs (pairs : list (text * pyval)) : dict :=
  fold_left (fun d kv => dict_set d (fst kv) (snd kv)) pairs [].

Definition keys (d : dict) : list text := map fst d.

(** [bool(v)] *)
Definition truthy (v : pyval) : bool :=
  match v with
  | PNone => false
  | PBool b => b
  | PInt z => negb (z =? 0)
  | PStr s => nonempty s
  | PList l => match l with [] => false | _ :: _ => true end
  | PDict d => match d with [] => false | _ :: _ => true end
  end.

(** [v == s] for a [str] [s]: only an equal [str] compares equal. *)
Definition eq_str (v : pyval) (s : text) : bool :=
  match v with
  | PStr s' => text_eqb s' s
  | _ => false
  end.

(** [v == b] for a [bool] [b].  In Python [True == 1] and [False == 0]. *)
Definition eq_bool (v : pyval) (b : bool) : bool :=
  match v with
  | PBool b' => Bool.eqb b' b
  | PInt z => z =? (if b then 1 else 0)
  | _ => false
  end.

(** Exceptions the modelled code can raise. *)
Inductive exn : Type :=
  | FileNotFoundError
  | UnicodeDecodeError
  | UnicodeEncodeError
  | JSONDecodeError
  | ValueError
  | KeyError (k : text)
  | TypeError
  | AttributeError.

Inductive result (A : Type) : Type :=
  | Ok (a : A)
  | Raise (e : exn).
Arguments Ok {A} a.
Arguments Raise {A} e.

Definition bind {A B} (m : result A) (k : A -> result B) : result B :=
  match m with
  | Ok a => k a
  | Raise e => Raise e
  end.

(** [d[k]] *)
Definition getitem (d : dict) (k : text) : result pyval :=
  match dict_get d k with
  | Some v => Ok v
  | None => Raise (KeyError k)
  end.

(** [d.get(k, default)] *)
Definition get_default (d : dict) (k : text) (dflt : pyval) : pyval :=
  match dict_get d k with
  | Some v => v
  | None => dflt
  end.

(** [[x for x in l if p(x)]] where [p] may raise: the first exception
    aborts the comprehension. *)
Fixpoint filter_raising {A} (p : A -> result bool) (l : list A) : result (list A) :=
  match l with
  | [] => Ok []
  | x :: l' =>
      bind (p x) (fun b =>
      bind (filter_raising p l') (fun r =>
      Ok (if b then x :: r else r)))
  end.

(** Values whose every [str] is well formed and whose dictionaries have
    pairwise distinct keys (as every Python [dict] has). *)
Inductive wf_val : pyval -> Prop :=
  | wf_none : wf_val PNone
  | wf_bool b : wf_val (PBool b)
  | wf_int z : wf_val (PInt z)
  | wf_str s : well_formed s -> wf_val (PStr s)
  | wf_list l : Forall wf_val l -> wf_val (PList l)
  | wf_dict d :
      NoDup (keys d) ->
      Forall (fun kv => well_formed (fst kv) /\ wf_val (snd kv)) d ->
      wf_val (PDict d).

(** Number of nodes of a value. *)
Fixpoint nodes (v : pyval) : nat :=
  match v with
  | PList l => S (list_sum (map (fun x => S (nodes x)) l))
  | PDict d => S (list_sum (map (fun kv => S (nodes (snd kv))) d))
  | _ => 1
  end.

End Py.

Export Py.

(** ** The [json] module *)

Module Json.

Definition QUOTE : Z := 34.
Definition BACKSLASH : Z := 92.

(** *** Encoding: [json.dumps(v, indent=4)], with [ensure_ascii] on *)

Definition hexdigit (n : Z) : Z :=
  if n <? 10 then 48 + n else 87 + n.

(** ['{0:04x}'.format(n)] *)
Definition hex4 (n : Z) : text :=
  [hexdigit (n / 4096 mod 16); hexdigit (n / 256 mod 16);
   hexdigit (n / 16 mod 16); hexdigit (n mod 16)].

Definition u_escape (n : Z) : text :=
  BACKSLASH :: ord "u" :: hex4 n.

(** The replacement of one character in [py_encode_basestring_ascii]:
    printable ASCII other than the quote and the backslash stays, the
    rest is escaped, beyond the BMP as a surrogate pair. *)
Definition encode_char (c : Z) : text :=
  if c =? QUOTE then [BACKSLASH; QUOTE]
  else if c =? BACKSLASH then [BACKSLASH; BACKSLASH]
  else if c =? 8 then [BACKSLASH; ord "b"]
  else if c =? 12 then [BACKSLASH; ord "f"]
  else if c =? 10 then [BACKSLASH; ord "n"]
  else if c =? 13 then [BACKSLASH; ord "r"]
  else if c =? 9 then [BACKSLASH; ord "t"]
  else if (32 <=? c) && (c <=? 126) then [c]
  else if c <? 65536 then u_escape c
  else
    let n := c - 65536 in
    let s1 := Z.lor 55296 (Z.land (Z.shiftr n 10) 1023) in
    let s2 := Z.lor 56320 (Z.land n 1023) in
    u_escape s1 ++ u_escape s2.

Definition encode_chars (s : text) : text := concat (map encode_char s).

Definition encode_basestring_ascii (s : text) : text :=
  QUOTE :: encode_chars s ++ [QUOTE].

(** ['\n' + ' ' * (4 * level)] *)
Definition newline_indent (level : nat) : text :=
  10 :: repeat 32 (4 * level)%nat.

(** [_iterencode] at a given indentation level. *)
Fixpoint encode (level : nat) (v : pyval) : text :=
  match v with
  | PNone => lit "null"
  | PBool true => lit "true"
  | PBool false => lit "false"
  | PInt z => str_of_int z
  | PStr s => encode_basestring_ascii s
  | PList [] => lit "[]"
  | PList (x :: xs) =>
      lit "[" ++ newline_indent (S level) ++ encode (S level) x ++
      concat (map (fun y => lit "," ++ newline_indent (S level) ++ encode (S level) y) xs) ++
      newline_indent level ++ lit "]"
  | PDict [] => lit "{}"
  | PDict (kv :: kvs) =>
      lit "{" ++ newline_indent (S level) ++
      encode_basestring_ascii (fst kv) ++ lit ": " ++ encode (S level) (snd kv) ++
      concat (map (fun kv' => lit "," ++ newline_indent (S level) ++
                     encode_basestring_ascii (fst kv') ++ lit ": " ++
                     encode (S level) (snd kv')) kvs) ++
      newline_indent level ++ lit "}"
  end.

(** [json.dumps(v, indent=4)].  Python refuses to print an integer of
    more than 4300 digits ([ValueError]) and to descend beyond its
    recursion limit ([RecursionError]); values of that size are outside
    the embedding, which prints them. *)
Definition dumps (v : pyval) : text := encode 0 v.

(** *** Decoding: [json.loads] *)

Definition is_ws (c : Z) : bool :=
  (c =? 32) || (c =? 9) || (c =? 10) || (c =? 13).

Fixpoint skip_ws (s : text) : text :=
  match s with
  | [] => []
  | c :: r => if is_ws c then skip_ws r else s
  end.

Definition hexval (c : Z) : option Z :=
  if (48 <=? c) && (c <=? 57) then Some (c - 48)
  else if (97 <=? c) && (c <=? 102) then Some (c - 87)
  else if (65 <=? c) && (c <=? 70) then Some (c - 55)
  else None.

(** [_decode_uXXXX]: four hexadecimal digits. *)
Definition decode_uXXXX (s : text) : option (Z * text) :=
  match s with
  | h1 :: h2 :: h3 :: h4 :: r =>
      a ← hexval h1; b ← hexval h2; c ← hexval h3; d ← hexval h4;
      Some (((a * 16 + b) * 16 + c) * 16 + d, r)
  | _ => None
  end.

(** What follows a backslash: the character it stands for and the rest. *)
Definition scan_escape (s : text) : option (Z * text) :=
  match s with
  | [] => None
  | e :: r =>
      if e =? ord "u" then
        '(uni, r1) ← decode_uXXXX r;
        if high_surrogate uni && starts_with [BACKSLASH; ord "u"] r1 then
          '(uni2, r2) ← decode_uXXXX (drop 2 r1);
          if low_surrogate uni2 then
            Some (65536 + Z.lor (Z.shiftl (uni - 55296) 10) (uni2 - 56320), r2)
          else Some (uni, r1)
        else Some (uni, r1)
      else if e =? QUOTE then Some (QUOTE, r)
      else if e =? BACKSLASH then Some (BACKSLASH, r)
      else if e =? ord "/" then Some (ord "/", r)
      else if e =? ord "b" then Some (8, r)
      else if e =? ord "f" then Some (12, r)
      else if e =? ord "n" then Some (10, r)
      else if e =? ord "r" then Some (13, r)
      else if e =? ord "t" then Some (9, r)
      else None
  end.

(** [scanstring] in strict mode, from just after the opening quote;
    [None] is a [JSONDecodeError].  Each round consumes a character, so
    the length of the input is fuel enough. *)
Fixpoint scanstring (fuel : nat) (s : text) : option (text * text) :=
  match fuel with
  | O => None
  | S fuel =>
      match s with
      | [] => None
      | c :: r =>
          if c =? QUOTE then Some ([], r)
          else if c =? BACKSLASH then
            '(char, r1) ← scan_escape r;
            '(chars, rest) ← scanstring fuel r1;
            Some (char :: chars, rest)
          else if (0 <=? c) && (c <? 32) then None
          else
            '(chars, rest) ← scanstring fuel r;
            Some (c :: chars, rest)
      end
  end.

(** A fraction (a dot and a digit) or an exponent ([e] or [E], an
    optional sign, a digit) after the integer part makes the literal a
    float. *)
Definition float_follows (s : text) : bool :=
  match s with
  | c :: d :: r =>
      if c =? ord "." then is_digit d
      else if (c =? ord "e") || (c =? ord "E") then
        is_digit d ||
        (((d =? ord "-") || (d =? ord "+")) &&
         match r with d' :: _ => is_digit d' | [] => false end)
      else false
  | _ => false
  end.

(** [NUMBER_RE]: an optional minus sign, then either a single zero or a
    non-zero digit followed by digits; a literal with a fraction or an
    exponent is a float, outside the embedding, and answers [None]. *)
Definition match_number (s : text) : option (pyval * text) :=
  let '(neg, s1) :=
    match s with
    | c :: r => if c =? ord "-" then (true, r) else (false, s)
    | [] => (false, s)
    end in
  let finish (d : Decimal.uint) (rest : text) :=
    if float_follows rest then None
    else Some (PInt (Z.of_int (if neg then Decimal.Neg d else Decimal.Pos d)), rest) in
  match s1 with
  | [] => None
  | c :: r =>
      if c =? 48 then finish (Decimal.D0 Decimal.Nil) r
      else if is_digit c then let '(d, rest) := scan_digits s1 in finish d rest
      else None
  end.

(** [scan_once], [JSONArray] and [JSONObject] (py_make_scanner).
    [json_array_items] starts at the first character of an element and
    [json_object_items] just after the opening quote of a key. *)
Fixpoint scan_once (fuel : nat) (s : text) : option (pyval * text) :=
  match fuel with
  | O => None
  | S fuel =>
      match s with
      | [] => None
      | c :: r =>
          if c =? QUOTE then
            '(str, rest) ← scanstring (length r) r; Some (PStr str, rest)
          else if c =? ord "{" then
            match skip_ws r with
            | [] => None
            | c' :: r' =>
                if c' =? ord "}" then Some (PDict [], r')
                else if c' =? QUOTE then
                  '(pairs, rest) ← json_object_items fuel r';
                  Some (PDict (dict_of_pairs pairs), rest)
                else None
            end
          else if c =? ord "[" then
            match skip_ws r with
            | [] => None
            | c' :: r' =>
                if c' =? ord "]" then Some (PList [], r')
                else
                  '(values, rest) ← json_array_items fuel (c' :: r');
                  Some (PList values, rest)
            end
          else if starts_with (lit "null") s then Some (PNone, drop 4 s)
          else if starts_with (lit "true") s then Some (PBool true, drop 4 s)
          else if starts_with (lit "false") s then Some (PBool false, drop 5 s)
          else match_number s
      end
  end
with json_array_items (fuel : nat) (s : text) : option (list pyval * text) :=
  match fuel with
  | O => None
  | S fuel =>
      '(value, s1) ← scan_once fuel s;
      match skip_ws s1 with
      | [] => None
      | c :: r =>
          if c =? ord "]" then Some ([value], r)
          else if c =? ord "," then
            '(values, rest) ← json_array_items fuel (skip_ws r);
            Some (value :: values, rest)
          else None
      end
  end
with json_object_items (fuel : nat) (s : text) : option (list (text * pyval) * text) :=
  match fuel with
  | O => None
  | S fuel =>
      '(key, s1) ← scanstring (length s) s;
      match skip_ws s1 with
      | [] => None
      | c :: r =>
          if c =? ord ":" then
            '(value, s2) ← scan_once fuel (skip_ws r);
            match skip_ws s2 with
            | [] => None
            | c' :: r' =>
                if c' =? ord "}" then Some ([(key, value)], r')
                else if c' =? ord "," then
                  match skip_ws r' with
                  | [] => None
                  | q :: r'' =>
                      if q =? QUOTE then
                        '(pairs, rest) ← json_object_items fuel r'';
                        Some ((key, value) :: pairs, rest)
                      else None
                  end
                else None
            end
          else None
      end
  end.

(** [json.loads]: one value between optional whitespace, nothing after.
    Outside the embedding are a float, [NaN] or [Infinity] literal, for
    which [json] returns a float and this function answers
    [JSONDecodeError], and an integer of more than 4300 digits or
    nesting beyond the recursion limit, for which [json] raises
    [ValueError] or [RecursionError] and this function returns the
    value. *)
Definition loads (s : text) : result pyval :=
  let s0 := skip_ws s in
  match scan_once (S (length s0)) s0 with
  | Some (v, rest) =>
      match skip_ws rest with
      | [] => Ok v
      | _ :: _ => Raise JSONDecodeError
      end
  | None => Raise JSONDecodeError
  end.

(** What [encode] puts after a value inside a list or a dictionary: a
    comma or a line break; at top level nothing follows. *)
Definition delimited (rest : text) : Prop :=
  match rest with
  | [] => True
  | c :: _ => c = 44 \/ c = 10
  end.

(** What follows a character inside an encoded string does not read as
    the escape of a low surrogate. *)
Definition next_not_low (tail : text) : Prop :=
  starts_with [BACKSLASH; ord "u"] tail = false \/
  exists x r, tail = BACKSLASH :: ord "u" :: hex4 x ++ r /\
              0 <= x < 65536 /\ low_surrogate x = false.

(** The first character of an encoded value. *)
Definition value_start (c : Z) : Prop :=
  c = 34 \/ c = 123 \/ c = 91 \/ c = 110 \/ c = 116 \/ c = 102 \/ c = 45 \/
  49 <= c <= 57 \/ c = 48.

(** [v] is read back from its encoding at any indentation, whatever
    delimiter follows it. *)
Definition reads_back (v : pyval) : Prop :=
  forall (level fuel : nat) (rest : text),
    delimited rest -> (nodes v <= fuel)%nat ->
    scan_once fuel (encode level v ++ rest) = Some (v, rest).

End Json.

Export Json.

(** ** Text files

    [open(path, "r")] and [open(path, "w")] read and write text in the
    default encoding, taken here to be UTF-8 with the strict error
    handler.  Line-ending translation is left out: [json] treats a
    carriage return and a line feed alike. *)

Module Codec.

Definition bytes := list Byte.byte.

Definition byte_val (b : Byte.byte) : Z := Z.of_N (Byte.to_N b).

Definition byte_of (z : Z) : Byte.byte :=
  match Byte.of_N (Z.to_N z) with
  | Some b => b
  | None => Byte.x00
  end.

(** A continuation byte, [10xxxxxx]. *)
Definition is_cont (x : Z) : bool := (128 <=? x) && (x <=? 191).

(** [bytes.decode("utf-8")]: [None] is a [UnicodeDecodeError].  Overlong
    forms, surrogates and values above U+10FFFF are rejected. *)
Fixpoint utf8_decode (bs : bytes) : option text :=
  match bs with
  | [] => Some []
  | b0 :: r0 =>
      let x0 := byte_val b0 in
      if x0 <? 128 then
        cons x0 <$> utf8_decode r0
      else if (194 <=? x0) && (x0 <=? 223) then
        match r0 with
        | b1 :: r1 =>
            let x1 := byte_val b1 in
            if is_cont x1 then
              cons ((x0 - 192) * 64 + (x1 - 128)) <$> utf8_decode r1
            else None
        | _ => None
        end
      else if (224 <=? x0) && (x0 <=? 239) then
        match r0 with
        | b1 :: b2 :: r2 =>
            let x1 := byte_val b1 in
            let x2 := byte_val b2 in
            let lo := if x0 =? 224 then 160 else 128 in
            let hi := if x0 =? 237 then 159 else 191 in
            if (lo <=? x1) && (x1 <=? hi) && is_cont x2 then
              cons (((x0 - 224) * 64 + (x1 - 128)) * 64 + (x2 - 128))
                <$> utf8_decode r2
            else None
        | _ => None
        end
      else if (240 <=? x0) && (x0 <=? 244) then
        match r0 with
        | b1 :: b2 :: b3 :: r3 =>
            let x1 := byte_val b1 in
            let x2 := byte_val b2 in
            let x3 := byte_val b3 in
            let lo := if x0 =? 240 then 144 else 128 in
            let hi := if x0 =? 244 then 143 else 191 in
            if (lo <=? x1) && (x1 <=? hi) && is_cont x2 && is_cont x3 then
              cons ((((x0 - 240) * 64 + (x1 - 128)) * 64 + (x2 - 128)) * 64 + (x3 - 128))
                <$> utf8_decode r3
            else None
        | _ => None
        end
      else None
  end.

(** The UTF-8 form of one code point; [None] (a [UnicodeEncodeError])
    for a surrogate or a value that is no code point. *)
Definition utf8_encode_char (c : Z) : option bytes :=
  if (0 <=? c) && (c <? 128) then Some [byte_of c]
  else if (128 <=? c) && (c <? 2048) then
    Some [byte_of (192 + c / 64); byte_of (128 + c mod 64)]
  else if (2048 <=? c) && (c <? 65536) then
    if (55296 <=? c) && (c <=? 57343) then None
    else Some [byte_of (224 + c / 4096); byte_of (128 + c / 64 mod 64);
               byte_of (128 + c mod 64)]
  else if (65536 <=? c) && (c <? 1114112) then
    Some [byte_of (240 + c / 262144); byte_of (128 + c / 4096 mod 64);
          byte_of (128 + c / 64 mod 64); byte_of (128 + c mod 64)]
  else None.

(** [str.encode("utf-8")] *)
Fixpoint utf8_encode (s : text) : option bytes :=
  match s with
  | [] => Some []
  | c :: r =>
      bs ← utf8_encode_char c;
      rest ← utf8_encode r;
      Some (bs ++ rest)
  end.

End Codec.

Export Codec.

(** ** The task store: [load_tasks] and [save_tasks] *)

Module Store.

(** The state of the path [DATA_FILE]: absent, or a regular file with
    its content. *)
Definition filesystem := option bytes.

Definition os_path_exists (fs : filesystem) : bool :=
  match fs with Some _ => true | None => false end.

(** [open(DATA_FILE, "r")] followed by [f.read()]. *)
Definition read_text (fs : filesystem) : result text :=
  match fs with
  | None => Raise FileNotFoundError
  | Some content =>
      match utf8_decode content with
      | Some s => Ok s
      | None => Raise UnicodeDecodeError
      end
  end.

(** [json.load(f)] on the file just opened. *)
Definition json_load (fs : filesystem) : result pyval :=
  bind (read_text fs) loads.

(** [load_tasks]: the handler catches [json.JSONDecodeError] and
    [FileNotFoundError]; anything else propagates. *)
Definition load_tasks (fs : filesystem) : result pyval :=
  if os_path_exists fs then
    match json_load fs with
    | Ok v => Ok v
    | Raise JSONDecodeError => Ok (PList [])
    | Raise FileNotFoundError => Ok (PList [])
    | Raise e => Raise e
    end
  else Ok (PList []).

(** [open(DATA_FILE, "w")] followed by [f.write(s)]: the file is
    created or truncated and holds the encoded text. *)
Definition write_text (s : text) (fs : filesystem) : result filesystem :=
  match utf8_encode s with
  | Some content => Ok (Some content)
  | None => Raise UnicodeEncodeError
  end.

(** [save_tasks]: [json.dump(tasks, f, indent=4)]. *)
Definition save_tasks (tasks : pyval) (fs : filesystem) : result filesystem :=
  write_text (dumps tasks) fs.

End Store.

Export Store.

(** ** The application *)

Module App.

(** *** Dates and the clock *)

(** A [datetime.date]. *)
Record civil := { year : Z; month : Z; day : Z }.

Definition is_leap (y : Z) : bool :=
  (y mod 4 =? 0) && (negb (y mod 100 =? 0) || (y mod 400 =? 0)).

Definition days_before_year (y : Z) : Z :=
  let y1 := y - 1 in y1 * 365 + y1 / 4 - y1 / 100 + y1 / 400.

Definition days_before_month (y m : Z) : Z :=
  nth (Z.to_nat m) [-1; 0; 31; 59; 90; 120; 151; 181; 212; 243; 273; 304; 334] 0
  + (if (2 <? m) && is_leap y then 1 else 0).

(** [date.toordinal()]; the difference of two dates, [(a - b).days], is
    the difference of their ordinals. *)
Definition toordinal (d : civil) : Z :=
  days_before_year (year d) + days_before_month (year d) (month d) + day d.

Definition days_in_month (y m : Z) : Z :=
  if (m =? 2) && is_leap y then 29
  else nth (Z.to_nat m) [0; 31; 28; 31; 30; 31; 30; 31; 31; 30; 31; 30; 31] 0.

(** [s.zfill(width)] for a numeral without sign. *)
Definition zfill (width : nat) (s : text) : text :=
  repeat 48 (width - length s)%nat ++ s.

(** [d.strftime("%Y-%m-%d")], for the years a date widget delivers. *)
Definition strftime_Ymd (d : civil) : text :=
  zfill 4 (str_of_int (year d)) ++ lit "-" ++
  zfill 2 (str_of_int (month d)) ++ lit "-" ++
  zfill 2 (str_of_int (day d)).

(** A reading of [datetime.now()]: the local date and time of day, and
    the POSIX time of the reading in microseconds ([timestamp()] is that
    number of seconds). *)
Record datetime := {
  dt_date : civil;
  dt_hour : Z;
  dt_minute : Z;
  dt_second : Z;
  dt_microsecond : Z;
  dt_posix_us : Z
}.

(** [int(now.timestamp())]: [int] truncates towards zero. *)
Definition int_timestamp (now : datetime) : Z :=
  Z.quot (dt_posix_us now) 1000000.

(** [now.strftime("%Y-%m-%d %H:%M:%S")] *)
Definition strftime_YmdHMS (now : datetime) : text :=
  strftime_Ymd (dt_date now) ++ lit " " ++
  zfill 2 (str_of_int (dt_hour now)) ++ lit ":" ++
  zfill 2 (str_of_int (dt_minute now)) ++ lit ":" ++
  zfill 2 (str_of_int (dt_second now)).

(** An instance of the date parser, for zero-padded ISO dates, the form
    [strftime_Ymd] writes. *)
Definition digits_value (s : text) : option Z :=
  if forallb is_digit s && nonempty s then
    Some (Z.of_uint (fst (scan_digits s)))
  else None.

Definition parse_iso_date (s : text) : option civil :=
  if (length s =? 10)%nat && (nth 4 s 0 =? ord "-") && (nth 7 s 0 =? ord "-") then
    y ← digits_value (take 4 s);
    m ← digits_value (take 2 (drop 5 s));
    d ← digits_value (drop 8 s);
    if (1 <=? y) && (1 <=? m) && (m <=? 12) && (1 <=? d) && (d <=? days_in_month y m)
    then Some {| year := y; month := m; day := d |}
    else None
  else None.

(** *** Tasks *)

Inductive priority := Low | Medium | High.

Definition priority_str (p : priority) : text :=
  match p with
  | Low => lit "Low"
  | Medium => lit "Medium"
  | High => lit "High"
  end.

(** The task record of the data model. *)
Record Task := {
  t_id : Z;
  t_task : text;
  t_category : text;
  t_priority : priority;
  t_due_date : text;
  t_notes : text;
  t_completed : bool;
  t_created_at : text
}.

(** The dictionary that holds a task, with the keys in the order in
    which [add_task_form] writes them. *)
Definition to_dict (t : Task) : dict :=
  [ (lit "id", PInt (t_id t));
    (lit "task", PStr (t_task t));
    (lit "category", PStr (t_category t));
    (lit "priority", PStr (priority_str (t_priority t)));
    (lit "due_date", PStr (t_due_date t));
    (lit "notes", PStr (t_notes t));
    (lit "completed", PBool (t_completed t));
    (lit "created_at", PStr (t_created_at t)) ].

(** The task list as [json.dump] receives it. *)
Definition tasks_value (ts : list Task) : pyval :=
  PList (map (fun t => PDict (to_dict t)) ts).

(** The strings of a task are well formed. *)
Definition task_text_ok (t : Task) : Prop :=
  well_formed (t_task t) /\ well_formed (t_category t) /\
  well_formed (t_due_date t) /\ well_formed (t_notes t) /\
  well_formed (t_created_at t).

(** *** Session state

    [st.session_state.tasks] is a list of references to dictionaries;
    [filtered_tasks] and [st.session_state.editing_task] hold references
    to the same objects. *)

Definition loc := nat.

Inductive ui_event :=
  | SidebarError (msg : text)
  | SidebarSuccess (msg : text)
  | Info (msg : text)
  | Rerun.

Record state := {
  heap : gmap loc dict;
  tasks : list loc;
  editing_task : option loc;
  data_file : filesystem;
  screen : list ui_event
}.

(** The object a reference points to.  The references of a running
    program all point to objects; one that does not reads as the empty
    dictionary. *)
Definition deref (h : gmap loc dict) (l : loc) : dict :=
  match h !! l with
  | Some d => d
  | None => []
  end.

(** The value of [st.session_state.tasks]. *)
Definition tasks_of (h : gmap loc dict) (ts : list loc) : pyval :=
  PList (map (fun l => PDict (deref h l)) ts).

Definition show (e : list ui_event) (s : state) : state :=
  {| heap := heap s; tasks := tasks s; editing_task := editing_task s;
     data_file := data_file s; screen := screen s ++ e |}.

(** [save_tasks(st.session_state.tasks)] *)
Definition save (s : state) : result state :=
  bind (save_tasks (tasks_of (heap s) (tasks s)) (data_file s)) (fun fs =>
  Ok {| heap := heap s; tasks := tasks s; editing_task := editing_task s;
        data_file := fs; screen := screen s |}).

(** *** Add *)

Record add_form := {
  in_task : text;
  in_category : text;
  in_priority : priority;
  in_due_date : civil;
  in_notes : text;
  in_submitted : bool
}.

(** [add_task_form]: the new task, if any, and what the sidebar shows.
    [now_id] and [now_created] are the two readings of the clock. *)
Definition add_task_form (f : add_form) (now_id now_created : datetime)
  : option dict * list ui_event :=
  if in_submitted f then
    if negb (nonempty (in_task f)) then
      (None, [SidebarError (lit "Task description is required!")])
    else
      (Some [ (lit "id", PInt (int_timestamp now_id));
              (lit "task", PStr (in_task f));
              (lit "category", PStr (in_category f));
              (lit "priority", PStr (priority_str (in_priority f)));
              (lit "due_date", PStr (strftime_Ymd (in_due_date f)));
              (lit "notes", PStr (in_notes f));
              (lit "completed", PBool false);
              (lit "created_at", PStr (strftime_YmdHMS now_created)) ], [])
  else (None, []).

(** The part of [main] that adds a task. *)
Definition main_add (f : add_form) (now_id now_created : datetime) (s : state)
  : result state :=
  let '(new_task, events) := add_task_form f now_id now_created in
  let s := show events s in
  match new_task with
  | Some d =>
      if truthy (PDict d) then
        let l := fresh (dom (heap s)) in
        bind (save {| heap := <[l := d]> (heap s); tasks := tasks s ++ [l];
                      editing_task := editing_task s; data_file := data_file s;
                      screen := screen s |}) (fun s' =>
        Ok (show [SidebarSuccess (lit "Task added successfully!"); Rerun] s'))
      else Ok s
  | None => Ok s
  end.

(** A session: a sequence of submitted forms with their clock readings. *)
Fixpoint run_adds (adds : list (add_form * datetime * datetime)) (s : state)
  : result state :=
  match adds with
  | [] => Ok s
  | (f, now_id, now_created) :: rest =>
      bind (main_add f now_id now_created s) (run_adds rest)
  end.

(** The [id] entries of the task list, in order. *)
Definition ids (s : state) : list (option pyval) :=
  map (fun l => dict_get (deref (heap s) l) (lit "id")) (tasks s).

(** *** Toggle-complete *)

(** Whether a value can be a dictionary key: lists and dictionaries
    are unhashable. *)
Definition hashable (v : pyval) : bool :=
  match v with
  | PList _ | PDict _ => false
  | _ => true
  end.

(** What the rest of a row of [display_tasks] can raise while it builds
    [task_display]: [task['task']] must exist, and [task['priority']],
    when present, is looked up in a dictionary literal. *)
Definition display_row (task : dict) : result unit :=
  bind (getitem task (lit "task")) (fun _ =>
  match dict_get task (lit "priority") with
  | Some v => if hashable v then Ok tt else Raise TypeError
  | None => Ok tt
  end).


(** *** Edit *)

Record edit_form := {
  new_task : text;
  new_category : text;
  new_priority : priority;
  new_due : civil;
  save_clicked : bool;
  cancel_clicked : bool
}.

(** [["Low", "Medium", "High"].index(v)] *)
Definition priority_index (v : pyval) : result nat :=
  if eq_str v (lit "Low") then Ok 0%nat
  else if eq_str v (lit "Medium") then Ok 1%nat
  else if eq_str v (lit "High") then Ok 2%nat
  else Raise ValueError.

Definition clear_editing (s : state) : state :=
  {| heap := heap s; tasks := tasks s; editing_task := None;
     data_file := data_file s; screen := screen s |}.

(** [edit_task_form] *)
Definition edit_task_form (f : edit_form) (s : state) : result state :=
  match editing_task s with
  | None => Ok s
  | Some l =>
      let task := deref (heap s) l in
      bind (getitem task (lit "task")) (fun _ =>
      bind (priority_index (get_default task (lit "priority") (PStr (lit "Medium")))) (fun _ =>
      if save_clicked f then
        let task1 := dict_set task (lit "task") (PStr (new_task f)) in
        let task2 := dict_set task1 (lit "category") (PStr (new_category f)) in
        let task3 := dict_set task2 (lit "priority") (PStr (priority_str (new_priority f))) in
        let task4 := dict_set task3 (lit "due_date") (PStr (strftime_Ymd (new_due f))) in
        bind (save {| heap := <[l := task4]> (heap s); tasks := tasks s;
                      editing_task := editing_task s; data_file := data_file s;
                      screen := screen s |}) (fun s' =>
        Ok (show [Rerun] (clear_editing s')))
      else if cancel_clicked f then Ok (show [Rerun] (clear_editing s))
      else Ok s))
  end.

(** *** Filters and derived views *)

Record filters := {
  search_term : text;
  category_filter : text;
  priority_filter : text;
  status_filter : text
}.

(** The status shown next to a task in the list. *)
Inductive due_status :=
  | Overdue (days : Z)
  | DueToday
  | DaysLeft (days : Z).

Section Views.

(** [str.lower] *)
Variable lower : text -> text.

(** [datetime.strptime(s, "%Y-%m-%d").date()]; [None] is a [ValueError]. *)
Variable strptime_Ymd : text -> option civil.

Definition str_lower (v : pyval) : result text :=
  match v with
  | PStr s => Ok (lower s)
  | _ => Raise AttributeError
  end.

(** The four filters of [display_tasks], in the order of the source;
    each is skipped at its sentinel. *)
Definition search_filter (h : gmap loc dict) (c : filters) (filtered : list loc)
  : result (list loc) :=
  if nonempty (search_term c) then
    filter_raising (fun l =>
      let needle := lower (search_term c) in
      bind (getitem (deref h l) (lit "task")) (fun v =>
      bind (str_lower v) (fun hay =>
      Ok (contains needle hay)))) filtered
  else Ok filtered.

Definition category_stage (h : gmap loc dict) (c : filters) (filtered : list loc)
  : result (list loc) :=
  if negb (text_eqb (category_filter c) (lit "All")) then
    filter_raising (fun l =>
      bind (getitem (deref h l) (lit "category")) (fun v =>
      Ok (eq_str v (category_filter c)))) filtered
  else Ok filtered.

Definition priority_stage (h : gmap loc dict) (c : filters) (filtered : list loc)
  : result (list loc) :=
  if negb (text_eqb (priority_filter c) (lit "All")) then
    filter_raising (fun l =>
      bind (getitem (deref h l) (lit "priority")) (fun v =>
      Ok (eq_str v (priority_filter c)))) filtered
  else Ok filtered.

Definition status_stage (h : gmap loc dict) (c : filters) (filtered : list loc)
  : result (list loc) :=
  if text_eqb (status_filter c) (lit "Completed") then
    filter_raising (fun l =>
      bind (getitem (deref h l) (lit "completed")) (fun v => Ok (truthy v))) filtered
  else if text_eqb (status_filter c) (lit "Pending") then
    filter_raising (fun l =>
      bind (getitem (deref h l) (lit "completed")) (fun v => Ok (negb (truthy v)))) filtered
  else Ok filtered.

(** [filtered_tasks] as [display_tasks] computes it.  Between the
    search and the category filter the code computes the options of
    the category filter from all tasks; that step changes nothing here
    and raises nothing when the categories are strings, as they are in
    task records. *)
Definition filtered_tasks (h : gmap loc dict) (c : filters) (ts : list loc)
  : result (list loc) :=
  bind (search_filter h c ts) (fun f1 =>
  bind (category_stage h c f1) (fun f2 =>
  bind (priority_stage h c f2) (fun f3 =>
  status_stage h c f3))).

(** [days_left] and the branch taken on it. *)
Definition classify (days_left : Z) : due_status :=
  if days_left <? 0 then Overdue (- days_left)
  else if days_left =? 0 then DueToday
  else DaysLeft days_left.

(** The status [display_tasks] derives for a task on the day [today];
    [None] when the guard fails or the [try] block raises. *)
Definition display_due_status (task : dict) (today : civil) : option due_status :=
  match dict_get task (lit "due_date") with
  | Some v =>
      if truthy v then
        match v with
        | PStr s =>
            match strptime_Ymd s with
            | Some due_date => Some (classify (toordinal due_date - toordinal today))
            | None => None
            end
        | _ => None
        end
      else None
  | None => None
  end.

(** What is appended to [task_display]. *)
Definition due_display (st : option due_status) : text :=
  match st with
  | Some (Overdue n) =>
      lit " | " ++ [9888; 65039] ++ lit " Overdue by " ++ str_of_int n ++ lit " days"
  | Some DueToday => lit " | " ++ [9203] ++ lit " Due today"
  | Some (DaysLeft n) =>
      lit " | " ++ [9203] ++ lit " " ++ str_of_int n ++ lit " days left"
  | None => []
  end.

(** The overdue count of the quick statistics in [main]. *)
Definition quick_stats_overdue (ts : list dict) (today : civil) : nat :=
  length (List.filter (fun task =>
    negb (truthy (get_default task (lit "completed") (PBool false))) &&
    match dict_get task (lit "due_date") with
    | Some (PStr s) =>
        match strptime_Ymd s with
        | Some due_date => toordinal due_date <? toordinal today
        | None => false
        end
    | _ => false
    end) ts).

End Views.

(** *** Charts

    [show_charts] builds a data frame from the task list; for records of
    the task shape its rows are the records.  The category and priority
    frequency charts are left out. *)

Section Charts.

(** [pd.to_datetime] on the [due_date] column: [None] when it raises,
    and an entry [None] for a missing date ([NaT]). *)
Variable to_datetime : list text -> option (list (option civil)).

(** The numbers of pandas and of Python [float] are IEEE 754 binary64:
    the operations are those of the Standard Library's specification,
    with 53 bits of precision and exponents up to 1024. *)
Definition binary64 := SpecFloat.spec_float.

(** The conversion of an integer, and the correctly rounded quotient
    and product. *)
Definition b64_of_Z (z : Z) : binary64 := SpecFloat.binary_normalize 53 1024 z 0 false.

Definition b64_div : binary64 -> binary64 -> binary64 := SpecFloat.SFdiv 53 1024.

Definition b64_mul : binary64 -> binary64 -> binary64 := SpecFloat.SFmul 53 1024.


(** [df['completed'].mean()]: the sum of the column, [True] counting
    for one, over its length, both as [float64]. *)
Definition column_sum (col : list bool) : Z :=
  fold_right (fun (b : bool) acc => (if b then 1 else 0) + acc) 0 col.

Definition mean (col : list bool) : binary64 :=
  b64_div (b64_of_Z (column_sum col)) (b64_of_Z (Z.of_nat (length col))).

(** [completion_rate = df['completed'].mean() * 100] *)
Definition completion_rate (ts : list Task) : binary64 :=
  b64_mul (mean (map t_completed ts)) (b64_of_Z 100).

(** [num / den] rounded to the nearest integer, a half to the even one. *)
Definition round_half_even (num den : Z) : Z :=
  let q := num / den in
  match 2 * (num mod den) ?= den with
  | Lt => q
  | Gt => q + 1
  | Eq => if Z.even q then q else q + 1
  end.

(** The first decimal of [f"{x:.1f}"]: the magnitude of [x] in tenths,
    correctly rounded from its exact binary value, a half to even. *)
Definition tenths (x : binary64) : Z :=
  match x with
  | SpecFloat.S754_finite _ m e =>
      if 0 <=? e then 10 * Zpos m * 2 ^ e
      else round_half_even (10 * Zpos m) (2 ^ (- e))
  | _ => 0
  end.

(** A number of tenths written with one decimal. *)
Definition fixed1 (t : Z) : text :=
  str_of_int (t / 10) ++ lit "." ++ str_of_int (t mod 10).

(** [f"{x:.1f}"] *)
Definition format_1f (x : binary64) : text :=
  match x with
  | SpecFloat.S754_nan => lit "nan"
  | SpecFloat.S754_infinity s => (if s then lit "-" else []) ++ lit "inf"
  | SpecFloat.S754_zero s => (if s then lit "-" else []) ++ fixed1 0
  | SpecFloat.S754_finite s _ _ => (if s then lit "-" else []) ++ fixed1 (tenths x)
  end.

(** The value [st.metric] shows for the completion rate:
    [f"{completion_rate:.1f}%"]. *)
Definition metric_text (rate : binary64) : text := format_1f rate ++ lit "%".

Definition day_ns : Z := 86400 * 1000000000.

(** The date at midnight and the reading of the clock, in nanoseconds
    on the local time line, as [pd.Timestamp] holds them. *)
Definition midnight_ns (d : civil) : Z := toordinal d * day_ns.

Definition time_of_day_ns (now : datetime) : Z :=
  (((dt_hour now * 60 + dt_minute now) * 60 + dt_second now) * 1000000
   + dt_microsecond now) * 1000.

Definition timestamp_ns (now : datetime) : Z :=
  midnight_ns (dt_date now) + time_of_day_ns now.

(** [(due_date - pd.Timestamp.now()).dt.days]: the days component of a
    time difference is its floor. *)
Definition days_until_due (due : civil) (now : datetime) : Z :=
  (midnight_ns due - timestamp_ns now) / day_ns.

(** The [status] column; comparisons with a missing value are false. *)
Definition status_of (days : option Z) : text :=
  match days with
  | Some d =>
      if d <? 0 then lit "Overdue"
      else if d <=? 3 then lit "Due Soon"
      else lit "Future"
  | None => lit "Future"
  end.

Definition row_status (due : option civil) (now : datetime) : text :=
  status_of (option_map (fun d => days_until_due d now) due).

(** [df[~df['completed']]['status']]: the statuses of the pending rows. *)
Fixpoint pending_statuses (ts : list Task) (dues : list (option civil))
    (now : datetime) : list text :=
  match ts, dues with
  | t :: ts', due :: dues' =>
      if t_completed t then pending_statuses ts' dues' now
      else row_status due now :: pending_statuses ts' dues' now
  | _, _ => []
  end.

(** The number of pending tasks in one bucket ([value_counts]). *)
Definition status_count (label : text) (statuses : list text) : nat :=
  length (List.filter (fun s => text_eqb s label) statuses).

Inductive charts :=
  | NoCharts (info : text)
  | Charts (rate : binary64) (pending : option (list text)).

(** [show_charts]: the completion rate, shown as [metric_text] of it,
    and, when the dates parse, the statuses behind the bar chart of
    pending tasks. *)
Definition show_charts (ts : list Task) (now : datetime) : charts :=
  match ts with
  | [] => NoCharts (lit "No tasks to show charts.")
  | _ :: _ =>
      Charts (completion_rate ts)
             (option_map (fun dues => pending_statuses ts dues now)
                         (to_datetime (map t_due_date ts)))
  end.

End Charts.

(** *** Predicates used to state the properties *)

(** Where [N / B] lies between two integers: on the lower one, below,
    on or above the middle. *)
Definition located (N B : Z) : SpecFloat.location :=
  if N mod B =? 0 then SpecFloat.loc_Exact
  else SpecFloat.loc_Inexact (2 * (N mod B) ?= B).

(** A mantissa with its round and sticky bits stands for [N / B]. *)
Definition represents (N B : Z) (mrs : SpecFloat.shr_record) : Prop :=
  SpecFloat.shr_m mrs = N / B /\ SpecFloat.loc_of_shr_record mrs = located N B.

(** The object at [l] is a task record. *)
Definition task_shaped (h : gmap loc dict) (l : loc) : Prop :=
  exists t : Task, h !! l = Some (to_dict t).

(** [c'] applies every filter that [c] applies, and possibly more. *)
Definition adds_filter (c c' : filters) : Prop :=
  (search_term c = [] \/ search_term c' = search_term c) /\
  (category_filter c = lit "All" \/ category_filter c' = category_filter c) /\
  (priority_filter c = lit "All" \/ priority_filter c' = priority_filter c) /\
  ((status_filter c <> lit "Completed" /\ status_filter c <> lit "Pending") \/
   status_filter c' = status_filter c).

(** What each filter keeps, as a total test on a record. *)
Definition search_keeps (lower : text -> text) (c : filters) (d : dict) : bool :=
  negb (nonempty (search_term c)) ||
  match dict_get d (lit "task") with
  | Some (PStr s) => contains (lower (search_term c)) (lower s)
  | _ => false
  end.

Definition category_keeps (c : filters) (d : dict) : bool :=
  text_eqb (category_filter c) (lit "All") ||
  match dict_get d (lit "category") with
  | Some v => eq_str v (category_filter c)
  | None => false
  end.

Definition priority_keeps (c : filters) (d : dict) : bool :=
  text_eqb (priority_filter c) (lit "All") ||
  match dict_get d (lit "priority") with
  | Some v => eq_str v (priority_filter c)
  | None => false
  end.

Definition status_keeps (c : filters) (d : dict) : bool :=
  match dict_get d (lit "completed") with
  | Some v =>
      if text_eqb (status_filter c) (lit "Completed") then truthy v
      else if text_eqb (status_filter c) (lit "Pending") then negb (truthy v)
      else true
  | None =>
      negb (text_eqb (status_filter c) (lit "Completed")) &&
      negb (text_eqb (status_filter c) (lit "Pending"))
  end.

End App.

Export App.

(** ** Sample data *)

Module Samples.

Definition sample_task : Task :=
  {| t_id := 1700000000; t_task := lit "Buy milk"; t_category := lit "General";
     t_priority := High; t_due_date := lit "2023-11-17"; t_notes := [];
     t_completed := false; t_created_at := lit "2023-11-14 22:13:20" |}.

Definition done_task : Task :=
  {| t_id := 1700000100; t_task := lit "Pay rent"; t_category := lit "Home";
     t_priority := Medium; t_due_date := lit "2023-11-14"; t_notes := lit "by transfer";
     t_completed := true; t_created_at := lit "2023-11-14 22:15:00" |}.

Definition empty_state : state :=
  {| heap := ∅; tasks := []; editing_task := None; data_file := None; screen := [] |}.

(** One task in the list, opened in the edit form. *)
Definition one_task_state : state :=
  {| heap := {[ 0%nat := to_dict sample_task ]}; tasks := [0%nat];
     editing_task := Some 0%nat; data_file := None; screen := [] |}.

Definition two_task_heap : gmap loc dict :=
  {[ 0%nat := to_dict sample_task; 1%nat := to_dict done_task ]}.

(** The completed task listed before the pending one. *)
Definition two_task_state : state :=
  {| heap := two_task_heap; tasks := [1%nat; 0%nat];
     editing_task := None; data_file := None; screen := [] |}.

Definition noon : datetime :=
  {| dt_date := {| year := 2023; month := 11; day := 14 |};
     dt_hour := 12; dt_minute := 0; dt_second := 0; dt_microsecond := 250000;
     dt_posix_us := 1699963200250000 |}.

(** Later in the same second as [noon]. *)
Definition noon_later : datetime :=
  {| dt_date := {| year := 2023; month := 11; day := 14 |};
     dt_hour := 12; dt_minute := 0; dt_second := 0; dt_microsecond := 900000;
     dt_posix_us := 1699963200900000 |}.

Definition empty_form : add_form :=
  {| in_task := []; in_category := lit "General"; in_priority := Low;
     in_due_date := {| year := 2023; month := 11; day := 14 |};
     in_notes := []; in_submitted := true |}.

Definition milk_form : add_form :=
  {| in_task := lit "Buy milk"; in_category := lit "General"; in_priority := High;
     in_due_date := {| year := 2023; month := 11; day := 17 |};
     in_notes := []; in_submitted := true |}.

Definition bread_form : add_form :=
  {| in_task := lit "Buy bread"; in_category := lit "General"; in_priority := Low;
     in_due_date := {| year := 2023; month := 11; day := 18 |};
     in_notes := []; in_submitted := true |}.

Definition no_filters : filters :=
  {| search_term := []; category_filter := lit "All";
     priority_filter := lit "All"; status_filter := lit "All" |}.

Definition pending_milk : filters :=
  {| search_term := lit "MILK"; category_filter := lit "All";
     priority_filter := lit "All"; status_filter := lit "Pending" |}.

Definition sample_edit : edit_form :=
  {| new_task := lit "Buy oat milk"; new_category := lit "Shopping";
     new_priority := Medium; new_due := {| year := 2023; month := 11; day := 20 |};
     save_clicked := true; cancel_clicked := false |}.

(** An instance of the column parser: ISO dates, the empty string for
    a missing date. *)
Fixpoint iso_to_datetime (col : list text) : option (list (option civil)) :=
  match col with
  | [] => Some []
  | s :: col' =>
      match s with
      | [] => cons None <$> iso_to_datetime col'
      | _ :: _ =>
          d ← parse_iso_date s;
          cons (Some d) <$> iso_to_datetime col'
      end
  end.

(** A pending task due on the day of [noon]. *)
Definition due_today_task : Task :=
  {| t_id := 1700000200; t_task := lit "Call the bank"; t_category := lit "General";
     t_priority := Low; t_due_date := lit "2023-11-14"; t_notes := [];
     t_completed := false; t_created_at := lit "2023-11-14 09:00:00" |}.

(** Seven completed tasks of a hundred, and one of three. *)
Definition seven_of_hundred : list Task :=
  repeat done_task 7 ++ repeat sample_task 93.


(** [str.lower] on ASCII letters. *)
Definition ascii_lower (s : text) : text :=
  map (fun c => if (65 <=? c) && (c <=? 90) then c + 32 else c) s.

End Samples.

Export Samples.

(** ** The rest of the application

    The parts of [app.py] beside the ones above: the rows of
    [display_tasks] with their buttons and widget keys, [reset_data],
    the category options and the quick statistics. *)

Module Session.

(** *** Equality and ordering of values *)

(** [a == b].  A [bool] compares as the integer it is; lists compare
    element by element; two dictionaries are equal when they have the
    same number of items and every item of the first has an equal value
    under the same key in the second. *)
Fixpoint py_eq (a b : pyval) {struct a} : bool :=
  match a, b with
  | PNone, PNone => true
  | PBool x, PBool y => Bool.eqb x y
  | PBool x, PInt z => z =? (if x then 1 else 0)
  | PInt z, PBool x => z =? (if x then 1 else 0)
  | PInt x, PInt y => x =? y
  | PStr s, PStr t => text_eqb s t
  | PList l, PList m =>
      (fix go (l m : list pyval) : bool :=
         match l, m with
         | [], [] => true
         | x :: l', y :: m' => py_eq x y && go l' m'
         | _, _ => false
         end) l m
  | PDict d, PDict e =>
      (length d =? length e)%nat &&
      (fix go (d : list (text * pyval)) : bool :=
         match d with
         | [] => true
         | kv :: d' =>
             match dict_get e (fst kv) with
             | Some w => py_eq (snd kv) w
             | None => false
             end && go d'
         end) d
  | _, _ => false
  end.

(** [s < t] for [str]: the order of the code points. *)
Fixpoint text_ltb (s t : text) : bool :=
  match s, t with
  | _, [] => false
  | [], _ :: _ => true
  | a :: s', b :: t' => (a <? b) || ((a =? b) && text_ltb s' t')
  end.

Definition text_lt (s t : text) : Prop := text_ltb s t = true.

(** Every string is below the ones after it. *)
Fixpoint ascending (l : list text) : Prop :=
  match l with
  | [] => True
  | x :: r => Forall (text_lt x) r /\ ascending r
  end.

(** *** A row of [display_tasks] with its buttons *)

(** What the widgets of the rows deliver in one run of the script. *)
Record widgets := {
  w_checkbox : loc -> bool;
  w_edit : loc -> bool;
  w_delete : loc -> bool
}.

(** [tasks.remove(task)]: the first entry that is [task] or equals it
    goes; [ValueError] when there is none. *)
Fixpoint list_remove (h : gmap loc dict) (l : loc) (ts : list loc) : result (list loc) :=
  match ts with
  | [] => Raise ValueError
  | l' :: rest =>
      if (l' =? l)%nat || py_eq (PDict (deref h l')) (PDict (deref h l)) then Ok rest
      else bind (list_remove h l rest) (fun rest' => Ok (l' :: rest'))
  end.

Definition set_editing (l : loc) (s : state) : state :=
  {| heap := heap s; tasks := tasks s; editing_task := Some l;
     data_file := data_file s; screen := screen s |}.

(** How a run of the rows ends: it returns (a rerun included), a
    Python exception leaves it, or Streamlit refuses a widget whose key
    another widget of the run has already. *)
Inductive outcome :=
  | Returns (s : state)
  | Raises (e : exn)
  | DuplicateWidgetID (key : text).

Definition of_result (r : result state) : outcome :=
  match r with
  | Ok s => Returns s
  | Raise e => Raises e
  end.

Section Rows.

(** [str(v)], as an f-string formats a value. *)
Variable str : pyval -> text.

(** [task.get('id', idx)] as the keys of the widgets of a row spell it:
    [done_], [edit_] and [del_] are followed by this text. *)
Definition widget_id (task : dict) (idx : nat) : text :=
  str (get_default task (lit "id") (PInt (Z.of_nat idx))).

(** The texts the rows of [filtered] give, from index [idx] on. *)
Fixpoint row_keys (h : gmap loc dict) (idx : nat) (filtered : list loc) : list text :=
  match filtered with
  | [] => []
  | l :: rest => widget_id (deref h l) idx :: row_keys h (S idx) rest
  end.

(** The loop of [display_tasks] over the rows of [filtered], at the row
    of index [idx], with the key texts [seen] in the rows before.  In
    each row, in this order: the checkbox is created, which Streamlit
    refuses when a row before has the same key text; a flipped checkbox
    updates the task, saves and reruns; the text of the row is built; a
    pressed edit button records the task in [editing_task] and reruns;
    a pressed delete button removes the task from the list, saves and
    reruns.  The keys of the two buttons differ from every checkbox key
    in their first letters, and clash with those of another row exactly
    when the checkbox keys do. *)
Fixpoint display_tasks_loop (w : widgets) (idx : nat) (seen : list text)
    (filtered : list loc) (s : state) : outcome :=
  match filtered with
  | [] => Returns s
  | l :: rest =>
      let task := deref (heap s) l in
      let k := widget_id task idx in
      if existsb (text_eqb k) seen then DuplicateWidgetID (lit "done_" ++ k)
      else
        let done := w_checkbox w l in
        if negb (eq_bool (get_default task (lit "completed") (PBool false)) done) then
          of_result
            (bind (save {| heap := <[l := dict_set task (lit "completed") (PBool done)]> (heap s);
                           tasks := tasks s; editing_task := editing_task s;
                           data_file := data_file s; screen := screen s |}) (fun s' =>
             Ok (show [Rerun] s')))
        else
          match display_row task with
          | Raise e => Raises e
          | Ok _ =>
              if w_edit w l then Returns (show [Rerun] (set_editing l s))
              else if w_delete w l then
                of_result
                  (bind (list_remove (heap s) l (tasks s)) (fun ts' =>
                   bind (save {| heap := heap s; tasks := ts'; editing_task := editing_task s;
                                 data_file := data_file s; screen := screen s |}) (fun s' =>
                   Ok (show [Rerun] s'))))
              else display_tasks_loop w (S idx) (k :: seen) rest s
          end
  end.

(** [for idx, task in enumerate(filtered_tasks): ...] *)
Definition display_tasks_rows_run (w : widgets) (filtered : list loc) (s : state) : outcome :=
  display_tasks_loop w 0 [] filtered s.

End Rows.

(** *** The category options *)

(** [sorted(xs)] for pairwise distinct strings: insertion by [<]. *)
Fixpoint insert_sorted (x : text) (xs : list text) : list text :=
  match xs with
  | [] => [x]
  | y :: ys => if text_ltb y x then y :: insert_sorted x ys else x :: y :: ys
  end.

Definition sorted_texts (xs : list text) : list text :=
  fold_right insert_sorted [] xs.

(** [set(xs)] for strings, as the list of its elements. *)
Fixpoint distinct_texts (xs : list text) : list text :=
  match xs with
  | [] => []
  | x :: r =>
      if existsb (text_eqb x) (distinct_texts r) then distinct_texts r
      else x :: distinct_texts r
  end.

(** The values of [t['category'] for t in tasks if 'category' in t]. *)
Definition category_values (h : gmap loc dict) (ts : list loc) : list pyval :=
  omap (fun l => dict_get (deref h l) (lit "category")) ts.

Definition as_text (v : pyval) : option text :=
  match v with
  | PStr s => Some s
  | _ => None
  end.

(** [["All"] + sorted(list(set(...)))] when every category is a [str];
    [None] otherwise, where the outcome depends on how values of other
    types hash and compare. *)
Definition category_options (h : gmap loc dict) (ts : list loc) : option (list text) :=
  cats ← mapM as_text (category_values h ts);
  Some (lit "All" :: sorted_texts (distinct_texts cats)).

(** *** [reset_data] *)

(** The file is removed if it exists and the task list is emptied; the
    task being edited, if any, stays in [editing_task]. *)
Definition reset_data (s : state) : state :=
  {| heap := heap s; tasks := []; editing_task := editing_task s;
     data_file := None; screen := screen s |}.

(** *** The quick statistics of [main] *)

Definition quick_stats_total (ts : list dict) : nat := length ts.

(** [sum(1 for t in tasks if t.get('completed', False))] *)
Definition quick_stats_completed (ts : list dict) : nat :=
  length (List.filter (fun t => truthy (get_default t (lit "completed") (PBool false))) ts).

(** *** Predicates used to state the properties *)

(** What [json] prints and reads back within its limits: a scalar, an
    integer having at most 4300 digits (Python refuses to print or to
    parse a longer one); a dictionary of such values; a list of such
    dictionaries, the shape of a task list. *)
Definition scalar_in_limits (v : pyval) : Prop :=
  match v with
  | PInt z => Z.abs z < 10 ^ 4300
  | PList _ | PDict _ => False
  | _ => True
  end.

Definition flat_record (d : dict) : Prop :=
  Forall (fun kv => scalar_in_limits (snd kv)) d.

Definition flat_tasks (v : pyval) : Prop :=
  exists ds, v = PList (map PDict ds) /\ Forall flat_record ds.

(** Every reference of the session points to an object. *)
Definition refs_ok (s : state) : Prop :=
  Forall (fun l => is_Some (heap s !! l)) (tasks s) /\
  (forall l, editing_task s = Some l -> is_Some (heap s !! l)).

(** A dictionary that holds a task record with well-formed strings. *)
Definition task_record (d : dict) : Prop :=
  exists t : Task, d = to_dict t /\ task_text_ok t.

Definition all_records (s : state) : Prop :=
  forall l d, heap s !! l = Some d -> task_record d.

(** The file holds the task list of the session. *)
Definition in_sync (s : state) : Prop :=
  load_tasks (data_file s) = Ok (tasks_of (heap s) (tasks s)).

Definition invariant (s : state) : Prop :=
  refs_ok s /\ all_records s /\ in_sync s.

(** A row that lets the loop pass: its checkbox agrees with the task,
    its text can be built, and none of its buttons is pressed. *)
Definition quiet_row (w : widgets) (s : state) (r : loc) : Prop :=
  eq_bool (get_default (deref (heap s) r) (lit "completed") (PBool false))
          (w_checkbox w r) = true /\
  display_row (deref (heap s) r) = Ok tt /\
  w_edit w r = false /\ w_delete w r = false.

(** The run passes the rows of [pre] and creates the widgets of the row
    of [l] after them: the rows of [pre] are quiet and the key texts of
    the rows up to that of [l] are pairwise distinct. *)
Definition passes (str : pyval -> text) (w : widgets) (s : state)
    (pre : list loc) (l : loc) : Prop :=
  Forall (quiet_row w s) pre /\ NoDup (row_keys str (heap s) 0 (pre ++ [l])).

(** The task record after a toggle and after an edit. *)
Definition with_completed (b : bool) (t : Task) : Task :=
  {| t_id := t_id t; t_task := t_task t; t_category := t_category t;
     t_priority := t_priority t; t_due_date := t_due_date t; t_notes := t_notes t;
     t_completed := b; t_created_at := t_created_at t |}.

Definition edited (f : edit_form) (t : Task) : Task :=
  {| t_id := t_id t; t_task := new_task f; t_category := new_category f;
     t_priority := new_priority f; t_due_date := strftime_Ymd (new_due f);
     t_notes := t_notes t; t_completed := t_completed t;
     t_created_at := t_created_at t |}.

(** One user action: a submitted Add form, a run of the task rows with
    their widgets, a run of the edit form, or a reset.  The widgets
    deliver well-formed strings. *)
Inductive step (str : pyval -> text) : state -> state -> Prop :=
  | step_add f now_id now_created s s' :
      well_formed (in_task f) -> well_formed (in_category f) ->
      well_formed (in_notes f) ->
      main_add f now_id now_created s = Ok s' -> step str s s'
  | step_rows w filtered s s' :
      Forall (fun l => l ∈ tasks s) filtered ->
      display_tasks_rows_run str w filtered s = Returns s' -> step str s s'
  | step_edit f s s' :
      well_formed (new_task f) -> well_formed (new_category f) ->
      edit_task_form f s = Ok s' -> step str s s'
  | step_reset s : step str s (reset_data s).

(** The states a session reaches from [s0]. *)
Inductive reachable (str : pyval -> text) (s0 : state) : state -> Prop :=
  | reach_start : reachable str s0 s0
  | reach_step s s' : reachable str s0 s -> step str s s' -> reachable str s0 s'.

(** *** More sample data *)

(** An instance of [str] for the values that are no containers. *)
Definition scalar_str (v : pyval) : text :=
  match v with
  | PNone => lit "None"
  | PBool true => lit "True"
  | PBool false => lit "False"
  | PInt z => str_of_int z
  | PStr s => s
  | PList _ | PDict _ => []
  end.

(** A form whose description is two blanks. *)
Definition blank_form : add_form :=
  {| in_task := lit "  "; in_category := lit "General"; in_priority := Low;
     in_due_date := {| year := 2023; month := 11; day := 14 |};
     in_notes := []; in_submitted := true |}.

(** Widgets at rest, but for the checkboxes. *)
Definition only_checkboxes (c : loc -> bool) : widgets :=
  {| w_checkbox := c; w_edit := fun _ => false; w_delete := fun _ => false |}.

(** The checkboxes as the tasks of [two_task_state] stand. *)
Definition as_stored (l : loc) : bool := (l =? 1)%nat.

(** The same checkboxes, with the press of one button on row [l]. *)
Definition press_edit (l : loc) : widgets :=
  {| w_checkbox := as_stored; w_edit := fun r => (r =? l)%nat; w_delete := fun _ => false |}.

Definition press_delete (l : loc) (c : loc -> bool) : widgets :=
  {| w_checkbox := c; w_edit := fun _ => false; w_delete := fun r => (r =? l)%nat |}.

(** Three listed tasks, the third with the same content as the first:
    two submissions of one form within a second. *)
Definition twin_state : state :=
  {| heap := {[ 0%nat := to_dict sample_task; 1%nat := to_dict done_task;
                2%nat := to_dict sample_task ]};
     tasks := [0%nat; 1%nat; 2%nat];
     editing_task := None; data_file := None; screen := [] |}.

(** Three tasks read from a file that gives no ids, the third with the
    same content as the first. *)
Definition unnumbered_twins : state :=
  {| heap := {[ 0%nat := [(lit "task", PStr (lit "Call Ann")); (lit "completed", PBool false)];
                1%nat := [(lit "task", PStr (lit "Pay rent")); (lit "completed", PBool true)];
                2%nat := [(lit "task", PStr (lit "Call Ann")); (lit "completed", PBool false)] ]};
     tasks := [0%nat; 1%nat; 2%nat];
     editing_task := None; data_file := None; screen := [] |}.

(** A task read from a file, with a priority the form does not offer,
    opened in the edit form. *)
Definition urgent_state : state :=
  {| heap := {[ 0%nat := [(lit "task", PStr (lit "Ship it"));
                           (lit "priority", PStr (lit "Urgent"))] ]};
     tasks := [0%nat]; editing_task := Some 0%nat; data_file := None; screen := [] |}.

Definition cancel_edit : edit_form :=
  {| new_task := lit "Buy oat milk"; new_category := lit "Shopping";
     new_priority := Medium; new_due := {| year := 2023; month := 11; day := 20 |};
     save_clicked := false; cancel_clicked := true |}.

(** The session after one accepted Add on the empty state. *)
Definition after_milk : state :=
  match main_add milk_form noon noon_later empty_state with
  | Ok s => s
  | Raise _ => empty_state
  end.

End Session.

Export Session.

(** * Properties *)

(** ** The [json] round trip *)

Module JsonFacts.
Import Json.

(** Evaluate the character constants of the goal. *)
Ltac ords :=
  unfold QUOTE, BACKSLASH in *;
  repeat match goal with
  | |- context [ord ?a] =>
      let v := eval vm_compute in (ord a) in change (ord a) with v
  | |- context [lit ?a] =>
      let v := eval vm_compute in (lit a) in change (lit a) with v
  end.

Lemma digit_of_uint_chars (d : Decimal.uint) (rest : text) :
  match rest with [] => True | c :: _ => digit_of c = None end ->
  scan_digits (uint_chars d ++ rest) = (d, rest).
Proof.
  intros Hrest. induction d; simpl; try (rewrite IHd; reflexivity).
  destruct rest as [|c r]; simpl; [reflexivity|]. now rewrite Hrest.
Qed.

Lemma to_uint_head (p : positive) (d : Decimal.uint) :
  Pos.to_uint p <> Decimal.D0 d.
Proof.
  pose proof (DecimalPos.Unsigned.to_of (Pos.to_uint p)) as H.
  rewrite DecimalPos.Unsigned.of_to in H. simpl in H.
  assert (Hnz : Decimal.nzhead (Pos.to_uint p) <> Decimal.Nil).
  { intros Hn. apply unorm_0 in Hn. rewrite <- H in Hn.
    now apply DecimalPos.Unsigned.to_uint_nonzero in Hn. }
  rewrite (unorm_nzhead _ Hnz) in H. rewrite H. apply nzhead_nonzero.
Qed.

Lemma delimited_digit (rest : text) :
  delimited rest -> match rest with [] => True | c :: _ => digit_of c = None end.
Proof. destruct rest as [|c r]; [easy|]. intros [-> | ->]; reflexivity. Qed.

Lemma delimited_float (rest : text) : delimited rest -> float_follows rest = false.
Proof.
  destruct rest as [|c [|d r]]; try easy. intros [-> | ->]; reflexivity.
Qed.

Lemma uint_chars_head (d : Decimal.uint) :
  d <> Decimal.Nil -> (forall d', d <> Decimal.D0 d') ->
  exists c r, uint_chars d = c :: r /\ is_digit c = true /\ (c =? 48) = false /\ (c =? 45) = false.
Proof.
  intros Hn H0. destruct d; try congruence; simpl; try (eexists _, _; repeat split; reflexivity).
Qed.

Lemma match_number_pos (p : positive) (neg : bool) (rest : text) :
  delimited rest ->
  match_number ((if neg then [ord "-"] else []) ++ uint_chars (Pos.to_uint p) ++ rest) =
  Some (PInt (Z.of_int (if neg then Decimal.Neg (Pos.to_uint p) else Decimal.Pos (Pos.to_uint p))), rest).
Proof.
  intros Hd.
  destruct (uint_chars_head (Pos.to_uint p)) as (c & r & Hc & Hdig & H48 & H45).
  { apply DecimalPos.Unsigned.to_uint_nonnil. }
  { intros d'. apply to_uint_head. }
  pose proof (digit_of_uint_chars (Pos.to_uint p) rest (delimited_digit _ Hd)) as Hscan.
  rewrite Hc in *. simpl app in Hscan.
  destruct neg; cbn [app]; unfold match_number.
  - rewrite Z.eqb_refl, H48, Hdig, Hscan.
    now rewrite (delimited_float _ Hd).
  - change (ord "-") with 45. rewrite H45, H48, Hdig, Hscan.
    now rewrite (delimited_float _ Hd).
Qed.

Lemma match_number_str_of_int (z : Z) (rest : text) :
  delimited rest ->
  match_number (str_of_int z ++ rest) = Some (PInt z, rest).
Proof.
  intros Hd. unfold str_of_int. destruct z as [|p|p]; simpl Z.to_int.
  - simpl. unfold match_number. simpl. now rewrite (delimited_float _ Hd).
  - pose proof (match_number_pos p false rest Hd) as H. cbn [app] in *. rewrite H.
    change (Decimal.Pos (Pos.to_uint p)) with (Z.to_int (Z.pos p)).
    now rewrite DecimalZ.of_to.
  - pose proof (match_number_pos p true rest Hd) as H. cbn [app] in *. rewrite H.
    change (Decimal.Neg (Pos.to_uint p)) with (Z.to_int (Z.neg p)).
    now rewrite DecimalZ.of_to.
Qed.


(** *** Strings *)

Lemma hexval_hexdigit (d : Z) : 0 <= d < 16 -> hexval (hexdigit d) = Some d.
Proof.
  intros Hd. unfold hexdigit, hexval.
  destruct (Z.ltb_spec d 10).
  - replace ((48 <=? 48 + d) && (48 + d <=? 57)) with true by lia.
    f_equal. lia.
  - replace ((48 <=? 87 + d) && (87 + d <=? 57)) with false by lia.
    replace ((97 <=? 87 + d) && (87 + d <=? 102)) with true by lia.
    f_equal. lia.
Qed.

Lemma decode_hex4 (n : Z) (r : text) :
  0 <= n < 65536 -> decode_uXXXX (hex4 n ++ r) = Some (n, r).
Proof.
  intros Hn. unfold hex4, decode_uXXXX. cbn [app].
  rewrite !hexval_hexdigit by (apply Z.mod_pos_bound; lia).
  cbn. do 2 f_equal.
  Z.to_euclidean_division_equations. lia.
Qed.

Lemma lor_low (a x : Z) :
  0 <= x < 1024 -> Z.lor (a * 1024) x = a * 1024 + x.
Proof.
  intros Hx. rewrite <- Z.add_lor_land.
  assert (Z.land (a * 1024) x = 0) as ->; [|lia].
  apply Z.bits_inj'. intros i Hi. rewrite Z.land_spec, Z.bits_0.
  destruct (Z.lt_ge_cases i 10).
  - change 1024 with (2 ^ 10). rewrite Z.mul_pow2_bits_low by lia. reflexivity.
  - replace x with (x mod 2 ^ 10) by (apply Z.mod_small; lia).
    rewrite Z.mod_pow2_bits_high by lia. apply andb_false_r.
Qed.

Lemma surrogates_join (c : Z) :
  65536 <= c < 1114112 ->
  let n := c - 65536 in
  let s1 := Z.lor 55296 (Z.land (Z.shiftr n 10) 1023) in
  let s2 := Z.lor 56320 (Z.land n 1023) in
  55296 <= s1 <= 56319 /\ 56320 <= s2 <= 57343 /\
  65536 + Z.lor (Z.shiftl (s1 - 55296) 10) (s2 - 56320) = c.
Proof.
  intros Hc n s1 s2.
  assert (Hn : 0 <= n < 1048576) by (unfold n; lia).
  assert (Hs1 : s1 = 55296 + n / 1024).
  { unfold s1. rewrite Z.shiftr_div_pow2 by lia. change (2 ^ 10) with 1024.
    change 1023 with (Z.ones 10). rewrite Z.land_ones by lia.
    change (2 ^ 10) with 1024. rewrite Z.mod_small by (Z.to_euclidean_division_equations; lia).
    change 55296 with (54 * 1024). rewrite lor_low; [lia|].
    Z.to_euclidean_division_equations; lia. }
  assert (Hs2 : s2 = 56320 + n mod 1024).
  { unfold s2. change 1023 with (Z.ones 10). rewrite Z.land_ones by lia.
    change (2 ^ 10) with 1024. change 56320 with (55 * 1024).
    rewrite lor_low; [lia|]. apply Z.mod_pos_bound. lia. }
  rewrite Hs1, Hs2. repeat split; try (Z.to_euclidean_division_equations; lia).
  replace (55296 + n / 1024 - 55296) with (n / 1024) by lia.
  replace (56320 + n mod 1024 - 56320) with (n mod 1024) by lia.
  rewrite Z.shiftl_mul_pow2 by lia. change (2 ^ 10) with 1024.
  rewrite lor_low by (apply Z.mod_pos_bound; lia).
  unfold n. Z.to_euclidean_division_equations; lia.
Qed.

Lemma scan_escape_u (c : Z) (rest : text) :
  0 <= c < 65536 -> high_surrogate c = false ->
  scan_escape (ord "u" :: hex4 c ++ rest) = Some (c, rest).
Proof.
  intros Hc Hs. unfold scan_escape. rewrite Z.eqb_refl, decode_hex4 by lia.
  cbn [mbind option_bind]. now rewrite Hs.
Qed.

(** A lone high surrogate stays alone when no low one follows. *)
Lemma scan_escape_high (c : Z) (tail : text) :
  0 <= c < 65536 -> next_not_low tail ->
  scan_escape (ord "u" :: hex4 c ++ tail) = Some (c, tail).
Proof.
  intros Hc Htail. unfold scan_escape. rewrite Z.eqb_refl, decode_hex4 by lia.
  cbn [mbind option_bind].
  destruct (high_surrogate c); [|reflexivity]. cbn [andb].
  destruct Htail as [-> | (x & r & -> & Hx & Hlow)]; [reflexivity|].
  cbn [starts_with drop andb]. rewrite !Z.eqb_refl. cbn [andb].
  rewrite drop_0, decode_hex4 by lia. cbn [mbind option_bind]. now rewrite Hlow.
Qed.

Lemma scan_escape_pair (c : Z) (rest : text) :
  65536 <= c < 1114112 ->
  let n := c - 65536 in
  let s1 := Z.lor 55296 (Z.land (Z.shiftr n 10) 1023) in
  let s2 := Z.lor 56320 (Z.land n 1023) in
  scan_escape (ord "u" :: hex4 s1 ++ u_escape s2 ++ rest) = Some (c, rest).
Proof.
  intros Hc n s1 s2. destruct (surrogates_join c Hc) as (H1 & H2 & H3).
  fold n in H1, H2, H3. fold s1 in H1, H3. fold s2 in H2, H3.
  clearbody s1 s2.
  unfold scan_escape. rewrite Z.eqb_refl. rewrite (decode_hex4 s1 (u_escape s2 ++ rest)) by lia.
  cbn [mbind option_bind]. unfold high_surrogate, low_surrogate.
  replace ((55296 <=? s1) && (s1 <=? 56319)) with true by lia.
  unfold u_escape. cbn [app starts_with drop andb].
  rewrite !Z.eqb_refl. cbn [andb]. rewrite drop_0, decode_hex4 by lia.
  cbn [mbind option_bind].
  replace ((56320 <=? s2) && (s2 <=? 57343)) with true by lia.
  now rewrite H3.
Qed.

Lemma next_not_low_quote (rest : text) : next_not_low (QUOTE :: rest).
Proof. now left. Qed.

(** The encoding of a character that is no low surrogate does not read
    as the escape of one. *)
Lemma next_not_low_encode_char (c : Z) (rest : text) :
  code_point c -> low_surrogate c = false -> next_not_low (encode_char c ++ rest).
Proof.
  intros Hc Hlow. unfold encode_char.
  repeat match goal with
  | |- context [if ?x =? ?k then _ else _] =>
      destruct (Z.eqb_spec x k); [now left|]
  end.
  destruct ((32 <=? c) && (c <=? 126)) eqn:Hp.
  - left. cbn [app starts_with]. unfold BACKSLASH in *.
    now replace (92 =? c) with false by lia.
  - destruct (Z.ltb_spec c 65536).
    + right. exists c, rest. unfold code_point in Hc. repeat split; [lia|lia|assumption].
    + right. destruct (surrogates_join c) as (H1 & _); [unfold code_point in Hc; lia|].
      eexists _, _. unfold u_escape at 1. rewrite <- app_assoc. cbn [app].
      split; [reflexivity|]. split; [lia|]. unfold low_surrogate. lia.
Qed.

Lemma scanstring_char (c : Z) (fuel : nat) (tail : text) :
  code_point c -> (high_surrogate c = true -> next_not_low tail) ->
  scanstring (S fuel) (encode_char c ++ tail) =
  '(chars, r) ← scanstring fuel tail; Some (c :: chars, r).
Proof.
  intros Hc Htail. unfold encode_char.
  repeat match goal with
  | |- context [if ?x =? ?k then _ else _] =>
      destruct (Z.eqb_spec x k); [subst; reflexivity|]
  end.
  destruct ((32 <=? c) && (c <=? 126)) eqn:Hp.
  - cbn [app scanstring]. unfold QUOTE, BACKSLASH in *.
    replace (c =? 34) with false by lia. replace (c =? 92) with false by lia.
    replace ((0 <=? c) && (c <? 32)) with false by lia. reflexivity.
  - unfold code_point in Hc. destruct (Z.ltb_spec c 65536).
    + unfold u_escape. cbn [app scanstring].
      destruct (high_surrogate c) eqn:Hh.
      * rewrite scan_escape_high; [reflexivity|lia|auto].
      * rewrite scan_escape_u; [reflexivity|lia|assumption].
    + unfold u_escape at 1. rewrite <- !app_assoc. cbn [app scanstring].
      rewrite scan_escape_pair; [reflexivity|lia].
Qed.

Lemma encode_char_length (c : Z) : (1 <= length (encode_char c))%nat.
Proof.
  unfold encode_char, u_escape, hex4.
  repeat match goal with
  | |- context [if ?b then _ else _] => destruct b
  end; cbn; lia.
Qed.

Lemma well_formed_cons (c : Z) (s : text) :
  well_formed (c :: s) ->
  code_point c /\ well_formed s /\
  (high_surrogate c = true ->
   match s with c' :: _ => code_point c' /\ low_surrogate c' = false | [] => True end).
Proof.
  intros [Hall [Hpair Hrest]]. apply Forall_cons in Hall as [Hc Hs].
  split; [assumption|]. split; [split; assumption|].
  intros Hh. destruct s as [|c' s']; [exact I|].
  apply Forall_cons in Hs as [Hc' _]. split; [assumption|].
  rewrite Hh in Hpair. exact Hpair.
Qed.

Lemma scanstring_encode (s : text) (fuel : nat) (rest : text) :
  well_formed s -> (length s < fuel)%nat ->
  scanstring fuel (encode_chars s ++ QUOTE :: rest) = Some (s, rest).
Proof.
  revert fuel. induction s as [|c s IH]; intros fuel Hwf Hf.
  - destruct fuel; [cbn in Hf; lia|]. reflexivity.
  - destruct fuel; [cbn in Hf; lia|].
    apply well_formed_cons in Hwf as (Hc & Hs & Hnext).
    unfold encode_chars. cbn [map concat]. rewrite <- app_assoc.
    fold (encode_chars s). rewrite scanstring_char.
    + rewrite IH by (assumption || (cbn in Hf; lia)). reflexivity.
    + assumption.
    + intros Hh. specialize (Hnext Hh). destruct s as [|c' s'].
      * apply next_not_low_quote.
      * destruct Hnext as [Hc' Hlow]. unfold encode_chars. cbn [map concat].
        rewrite <- app_assoc. now apply next_not_low_encode_char.
Qed.

Lemma encode_chars_length (s : text) : (length s <= length (encode_chars s))%nat.
Proof.
  induction s as [|c s IH]; [cbn; lia|].
  unfold encode_chars in *. cbn [map concat]. rewrite length_app.
  pose proof (encode_char_length c). cbn [length]. lia.
Qed.

(** A string literal is read back from just after its opening quote. *)
Lemma scanstring_basestring (s : text) (rest : text) :
  well_formed s ->
  scanstring (length (encode_chars s ++ QUOTE :: rest)) (encode_chars s ++ QUOTE :: rest)
  = Some (s, rest).
Proof.
  intros Hwf. apply scanstring_encode; [assumption|].
  rewrite length_app. cbn [length]. pose proof (encode_chars_length s). lia.
Qed.


(** *** Values *)

(** Induction on values that reaches the elements of lists and
    dictionaries. *)
Lemma pyval_nested_ind (P : pyval -> Prop)
    (HNone : P PNone) (HBool : forall b, P (PBool b))
    (HInt : forall z, P (PInt z)) (HStr : forall s, P (PStr s))
    (HList : forall l, Forall P l -> P (PList l))
    (HDict : forall d, Forall (fun kv => P (snd kv)) d -> P (PDict d)) :
  forall v, P v.
Proof.
  fix IH 1. intros [|b|z|s|l|d].
  - exact HNone.
  - apply HBool.
  - apply HInt.
  - apply HStr.
  - apply HList. induction l as [|x l IHl]; constructor; [apply IH|exact IHl].
  - apply HDict. induction d as [|[k x] d IHd]; constructor; [apply IH|exact IHd].
Qed.

Lemma skip_ws_newline_indent (level : nat) (s : text) :
  skip_ws (newline_indent level ++ s) = skip_ws s.
Proof.
  unfold newline_indent. cbn [app skip_ws]. change (is_ws 10) with true. cbv iota.
  induction (4 * level)%nat as [|n IH]; [reflexivity|].
  cbn [repeat app skip_ws]. change (is_ws 32) with true. exact IH.
Qed.

Lemma uint_chars_start (d : Decimal.uint) :
  d <> Decimal.Nil -> exists c r, uint_chars d = c :: r /\ 48 <= c <= 57.
Proof. destruct d; [congruence|..]; intros _; cbn; eexists _, _; (split; [reflexivity|lia]). Qed.

Lemma encode_start (level : nat) (v : pyval) :
  exists c r, encode level v = c :: r /\ value_start c.
Proof.
  unfold value_start.
  destruct v as [|[]|z|s|[|x xs]|[|kv kvs]]; cbn [encode].
  1-3, 5-9: ords; cbn; eexists _, _; (split; [reflexivity|unfold QUOTE; lia]).
  unfold str_of_int. destruct z as [|p|p]; cbn [Z.to_int].
  - cbn. eexists _, _; split; [reflexivity|lia].
  - destruct (uint_chars_start (Pos.to_uint p)) as (c & r & -> & Hc).
    { apply DecimalPos.Unsigned.to_uint_nonnil. }
    eexists _, _; split; [reflexivity|lia].
  - ords. cbn. eexists _, _; split; [reflexivity|lia].
Qed.

Lemma skip_ws_start (c : Z) (r : text) :
  value_start c -> skip_ws (c :: r) = c :: r.
Proof.
  intros Hc. cbn [skip_ws]. replace (is_ws c) with false; [reflexivity|].
  unfold is_ws, value_start in *. lia.
Qed.

Lemma skip_ws_encode (level : nat) (v : pyval) (rest : text) :
  skip_ws (encode level v ++ rest) = encode level v ++ rest.
Proof.
  destruct (encode_start level v) as (c & r & -> & Hc). now apply skip_ws_start.
Qed.

Lemma text_eqb_eq (s t : text) : text_eqb s t = true <-> s = t.
Proof. unfold text_eqb. apply bool_decide_eq_true. Qed.

Lemma text_eqb_refl (s : text) : text_eqb s s = true.
Proof. now apply text_eqb_eq. Qed.

Lemma text_eqb_neq (s t : text) : s <> t -> text_eqb s t = false.
Proof. unfold text_eqb. apply bool_decide_eq_false. Qed.

Lemma dict_set_fresh (d : dict) (k : text) (v : pyval) :
  k ∉ keys d -> dict_set d k v = d ++ [(k, v)].
Proof.
  induction d as [|[k' v'] d IH]; intros Hk; [reflexivity|].
  cbn [dict_set app]. cbn in Hk. apply not_elem_of_cons in Hk as [Hne Hk].
  rewrite text_eqb_neq by congruence. now rewrite IH.
Qed.

Lemma dict_of_pairs_app (acc d : dict) :
  NoDup (keys (acc ++ d)) ->
  fold_left (fun d kv => dict_set d (fst kv) (snd kv)) d acc = acc ++ d.
Proof.
  revert acc. induction d as [|[k v] d IH]; intros acc Hnd.
  - now rewrite app_nil_r.
  - cbn [fold_left fst snd]. unfold keys in *.
    rewrite dict_set_fresh.
    + rewrite IH; rewrite <- app_assoc; [reflexivity|exact Hnd].
    + rewrite map_app in Hnd. apply NoDup_app in Hnd as (_ & Hd & _).
      intros Hin. apply (Hd k Hin). cbn. left.
Qed.

Lemma dict_of_pairs_id (d : dict) : NoDup (keys d) -> dict_of_pairs d = d.
Proof. intros Hd. unfold dict_of_pairs. now rewrite dict_of_pairs_app. Qed.


(** The defining equations of the mutually recursive scanner. *)
Lemma scan_once_S (fuel : nat) (c : Z) (r : text) :
  scan_once (S fuel) (c :: r) =
  if c =? QUOTE then
    '(str, rest) ← scanstring (length r) r; Some (PStr str, rest)
  else if c =? ord "{" then
    match skip_ws r with
    | [] => None
    | c' :: r' =>
        if c' =? ord "}" then Some (PDict [], r')
        else if c' =? QUOTE then
          '(pairs, rest) ← json_object_items fuel r';
          Some (PDict (dict_of_pairs pairs), rest)
        else None
    end
  else if c =? ord "[" then
    match skip_ws r with
    | [] => None
    | c' :: r' =>
        if c' =? ord "]" then Some (PList [], r')
        else
          '(values, rest) ← json_array_items fuel (c' :: r');
          Some (PList values, rest)
    end
  else if starts_with (lit "null") (c :: r) then Some (PNone, drop 4 (c :: r))
  else if starts_with (lit "true") (c :: r) then Some (PBool true, drop 4 (c :: r))
  else if starts_with (lit "false") (c :: r) then Some (PBool false, drop 5 (c :: r))
  else match_number (c :: r).
Proof. reflexivity. Qed.

Lemma json_array_items_S (fuel : nat) (s : text) :
  json_array_items (S fuel) s =
  '(value, s1) ← scan_once fuel s;
  match skip_ws s1 with
  | [] => None
  | c :: r =>
      if c =? ord "]" then Some ([value], r)
      else if c =? ord "," then
        '(values, rest) ← json_array_items fuel (skip_ws r);
        Some (value :: values, rest)
      else None
  end.
Proof. reflexivity. Qed.

Lemma json_object_items_S (fuel : nat) (s : text) :
  json_object_items (S fuel) s =
  '(key, s1) ← scanstring (length s) s;
  match skip_ws s1 with
  | [] => None
  | c :: r =>
      if c =? ord ":" then
        '(value, s2) ← scan_once fuel (skip_ws r);
        match skip_ws s2 with
        | [] => None
        | c' :: r' =>
            if c' =? ord "}" then Some ([(key, value)], r')
            else if c' =? ord "," then
              match skip_ws r' with
              | [] => None
              | q :: r'' =>
                  if q =? QUOTE then
                    '(pairs, rest) ← json_object_items fuel r'';
                    Some ((key, value) :: pairs, rest)
                  else None
              end
            else None
        end
      else None
  end.
Proof. reflexivity. Qed.

Lemma scan_once_number (fuel : nat) (c : Z) (r : text) :
  c = 45 \/ 48 <= c <= 57 ->
  scan_once (S fuel) (c :: r) = match_number (c :: r).
Proof.
  intros Hc. rewrite scan_once_S. ords. cbn [starts_with].
  replace (c =? 34) with false by lia. replace (c =? 123) with false by lia.
  replace (c =? 91) with false by lia. replace (110 =? c) with false by lia.
  replace (116 =? c) with false by lia. replace (102 =? c) with false by lia.
  reflexivity.
Qed.

Lemma str_of_int_start (z : Z) :
  exists c r, str_of_int z = c :: r /\ (c = 45 \/ 48 <= c <= 57).
Proof.
  unfold str_of_int. destruct z as [|p|p]; cbn [Z.to_int].
  - cbn. eexists _, _; split; [reflexivity|lia].
  - destruct (uint_chars_start (Pos.to_uint p)) as (c & r & -> & Hc).
    { apply DecimalPos.Unsigned.to_uint_nonnil. }
    eexists _, _; split; [reflexivity|lia].
  - ords. eexists _, _; split; [reflexivity|lia].
Qed.

Lemma delimited_newline (level : nat) (s : text) : delimited (newline_indent level ++ s).
Proof. cbn. now right. Qed.

Lemma delimited_comma (s : text) : delimited (lit "," ++ s).
Proof. cbn. now left. Qed.

Lemma lit_cons (a : ascii) (s : text) : lit (String a EmptyString) ++ s = ord a :: s.
Proof. reflexivity. Qed.

Lemma array_items_encode (level : nat) (xs : list pyval) :
  forall (x : pyval) (fuel : nat) (rest : text),
    Forall reads_back (x :: xs) ->
    (list_sum (map (fun y => S (nodes y)) (x :: xs)) <= fuel)%nat ->
    json_array_items fuel
      (encode (S level) x ++
       concat (map (fun y => lit "," ++ newline_indent (S level) ++ encode (S level) y) xs) ++
       newline_indent level ++ lit "]" ++ rest)
    = Some (x :: xs, rest).
Proof.
  induction xs as [|y ys IH]; intros x fuel rest HF Hfuel;
    apply Forall_cons in HF as [Hx HF]; cbn [map list_sum fold_right] in Hfuel;
    (destruct fuel as [|fuel]; [lia|]); rewrite json_array_items_S.
  - cbn [map concat app].
    rewrite Hx by (auto using delimited_newline; lia).
    cbn [mbind option_bind]. rewrite skip_ws_newline_indent.
    reflexivity.
  - cbn [map concat]. rewrite <- !app_assoc.
    rewrite Hx by (auto using delimited_comma; lia).
    cbn [mbind option_bind]. rewrite lit_cons. cbn [skip_ws].
    change (is_ws (ord ",")) with false. cbv iota.
    change (ord "," =? ord "]") with false. rewrite Z.eqb_refl. cbv iota.
    rewrite skip_ws_newline_indent, skip_ws_encode.
    rewrite (IH y fuel rest HF) by (cbn [map list_sum fold_right]; lia).
    reflexivity.
Qed.


Lemma entry_shape (k : text) (s : text) :
  encode_basestring_ascii k ++ lit ": " ++ s =
  QUOTE :: encode_chars k ++ QUOTE :: ord ":" :: ord " " :: s.
Proof. unfold encode_basestring_ascii. cbn [app]. now rewrite <- app_assoc. Qed.

Lemma object_items_encode (level : nat) (kvs : list (text * pyval)) :
  forall (kv : text * pyval) (fuel : nat) (rest : text),
    Forall (fun kv => well_formed (fst kv) /\ reads_back (snd kv)) (kv :: kvs) ->
    (list_sum (map (fun kv => S (nodes (snd kv))) (kv :: kvs)) <= fuel)%nat ->
    json_object_items fuel
      (encode_chars (fst kv) ++ QUOTE :: ord ":" :: ord " " :: encode (S level) (snd kv) ++
       concat (map (fun kv' => lit "," ++ newline_indent (S level) ++
                       encode_basestring_ascii (fst kv') ++ lit ": " ++
                       encode (S level) (snd kv')) kvs) ++
       newline_indent level ++ lit "}" ++ rest)
    = Some (kv :: kvs, rest).
Proof.
  induction kvs as [|kv' kvs IH]; intros [k v] fuel rest HF Hfuel;
    apply Forall_cons in HF as [[Hk Hv] HF]; cbn [map list_sum fold_right fst snd] in *;
    (destruct fuel as [|fuel]; [lia|]); rewrite json_object_items_S;
    rewrite scanstring_basestring by assumption; cbn [mbind option_bind skip_ws];
    change (is_ws (ord ":")) with false; cbv iota; rewrite Z.eqb_refl;
    cbn [skip_ws]; change (is_ws (ord " ")) with true; cbv iota;
    rewrite skip_ws_encode.
  - cbn [concat app].
    rewrite Hv by (auto using delimited_newline; lia).
    cbn [mbind option_bind]. rewrite skip_ws_newline_indent. reflexivity.
  - cbn [concat]. rewrite <- !app_assoc.
    rewrite Hv by (auto using delimited_comma; lia).
    cbn [mbind option_bind]. rewrite lit_cons. cbn [skip_ws].
    change (is_ws (ord ",")) with false. cbv iota.
    change (ord "," =? ord "}") with false. rewrite Z.eqb_refl. cbv iota.
    rewrite skip_ws_newline_indent, entry_shape. cbn [skip_ws].
    change (is_ws QUOTE) with false. cbv iota. rewrite Z.eqb_refl.
    rewrite (IH kv' fuel rest HF) by lia.
    reflexivity.
Qed.

Lemma nodes_pos (v : pyval) : (1 <= nodes v)%nat.
Proof. destruct v; cbn; lia. Qed.

(** Every well-formed value is read back from its encoding. *)
Lemma scan_once_encode (v : pyval) : wf_val v -> reads_back v.
Proof.
  induction v as [|b|z|s|l IHl|d IHd] using pyval_nested_ind;
    intros Hwf level fuel rest Hrest Hfuel;
    (destruct fuel as [|fuel]; [pose proof (nodes_pos); cbn in Hfuel; lia|]).
  - reflexivity.
  - destruct b; reflexivity.
  - cbn [encode]. destruct (str_of_int_start z) as (c & r & Hz & Hc).
    pose proof (match_number_str_of_int z rest Hrest) as Hm.
    rewrite Hz in *. cbn [app] in *. now rewrite scan_once_number.
  - inversion Hwf as [| | |s' Hs| |]; subst.
    cbn [encode]. unfold encode_basestring_ascii. cbn [app].
    rewrite scan_once_S, Z.eqb_refl, <- app_assoc. cbn [app].
    now rewrite scanstring_basestring.
  - inversion Hwf as [| | | |l' Hl|]; subst.
    assert (HF : Forall reads_back l).
    { rewrite Forall_forall in IHl, Hl |- *. auto. }
    destruct l as [|x xs]; [reflexivity|].
    cbn [encode nodes] in *. rewrite <- !app_assoc, lit_cons, scan_once_S.
    change (ord "[" =? QUOTE) with false. change (ord "[" =? ord "{") with false.
    rewrite Z.eqb_refl. cbv iota.
    rewrite skip_ws_newline_indent.
    destruct (encode_start (S level) x) as (c & r & Hx & Hc).
    pose proof (array_items_encode level xs x fuel rest HF) as Hitems.
    rewrite Hx in *. cbn [app] in *. rewrite skip_ws_start by assumption.
    replace (c =? ord "]") with false by (ords; unfold value_start in Hc; lia).
    rewrite Hitems by lia. reflexivity.
  - inversion Hwf as [| | | | |d' Hnd Hd]; subst.
    assert (HF : Forall (fun kv => well_formed (fst kv) /\ reads_back (snd kv)) d).
    { rewrite Forall_forall in IHd, Hd |- *. intros kv Hkv.
      split; [apply Hd, Hkv|apply IHd; [exact Hkv|apply Hd, Hkv]]. }
    destruct d as [|kv kvs]; [reflexivity|].
    cbn [encode nodes] in *. rewrite <- !app_assoc, lit_cons, scan_once_S.
    change (ord "{" =? QUOTE) with false. rewrite Z.eqb_refl. cbv iota.
    rewrite skip_ws_newline_indent, entry_shape.
    cbn [skip_ws]. change (is_ws QUOTE) with false. cbv iota.
    change (QUOTE =? ord "}") with false. rewrite Z.eqb_refl. cbv iota.
    rewrite (object_items_encode level kvs kv fuel rest HF) by lia.
    cbn [mbind option_bind]. now rewrite dict_of_pairs_id.
Qed.


Lemma list_sum_cons (a : nat) (l : list nat) : list_sum (a :: l) = (a + list_sum l)%nat.
Proof. reflexivity. Qed.

Lemma concat_map_length {A} (f g : A -> text) (h : A -> nat) (xs : list A) :
  Forall (fun x => (S (h x) <= length (f x ++ g x))%nat) xs ->
  (list_sum (map (fun x => S (h x)) xs) <= length (concat (map (fun x => f x ++ g x) xs)))%nat.
Proof.
  induction 1 as [|x xs Hx _ IH]; cbn [map concat]; [cbn; lia|].
  rewrite length_app, list_sum_cons. lia.
Qed.

Lemma nodes_le_encode (v : pyval) :
  forall level, (nodes v <= length (encode level v))%nat.
Proof.
  induction v as [|b|z|s|l IHl|d IHd] using pyval_nested_ind; intros level.
  - cbn. lia.
  - destruct b; cbn; lia.
  - destruct (str_of_int_start z) as (c & r & Hz & _). cbn [encode nodes].
    rewrite Hz. cbn. lia.
  - cbn. lia.
  - destruct l as [|x xs]; [cbn; lia|].
    apply Forall_cons in IHl as [Hx Hxs]. cbn [encode nodes map].
    rewrite list_sum_cons, !length_app. cbn [lit list_ascii_of_string map length newline_indent].
    specialize (Hx (S level)).
    pose proof (concat_map_length (fun y => lit "," ++ newline_indent (S level))
                  (fun y => encode (S level) y) nodes xs) as Hc.
    cbn beta in Hc.
    assert (Heq : map (fun y => (lit "," ++ newline_indent (S level)) ++ encode (S level) y) xs
                  = map (fun y => lit "," ++ newline_indent (S level) ++ encode (S level) y) xs).
    { apply map_ext. intros y. now rewrite <- app_assoc. }
    rewrite Heq in Hc.
    assert (Hall : Forall (fun x => (S (nodes x) <=
               length ((lit "," ++ newline_indent (S level)) ++ encode (S level) x))%nat) xs).
    { eapply Forall_impl; [exact Hxs|]. intros y Hy. cbn beta in Hy.
      specialize (Hy (S level)). rewrite length_app. cbn [lit list_ascii_of_string map app length]. lia. }
    specialize (Hc Hall). cbn [lit list_ascii_of_string map] in Hc. lia.
  - destruct d as [|kv kvs]; [cbn; lia|].
    apply Forall_cons in IHd as [Hx Hxs]. cbn [encode nodes map].
    rewrite list_sum_cons, !length_app. cbn [lit list_ascii_of_string map length newline_indent].
    specialize (Hx (S level)).
    pose proof (concat_map_length
                  (fun kv' : text * pyval => lit "," ++ newline_indent (S level) ++
                                encode_basestring_ascii (fst kv') ++ lit ": ")
                  (fun kv' => encode (S level) (snd kv')) (fun kv' => nodes (snd kv')) kvs) as Hc.
    cbn beta in Hc.
    assert (Heq : map (fun kv' : text * pyval => (lit "," ++ newline_indent (S level) ++
                     encode_basestring_ascii (fst kv') ++ lit ": ") ++ encode (S level) (snd kv')) kvs
                  = map (fun kv' => lit "," ++ newline_indent (S level) ++
                     encode_basestring_ascii (fst kv') ++ lit ": " ++
                     encode (S level) (snd kv')) kvs).
    { apply map_ext. intros y. now rewrite <- !app_assoc. }
    rewrite Heq in Hc.
    assert (Hall : Forall (fun kv' : text * pyval => (S (nodes (snd kv')) <=
               length ((lit "," ++ newline_indent (S level) ++
                     encode_basestring_ascii (fst kv') ++ lit ": ") ++ encode (S level) (snd kv')))%nat) kvs).
    { eapply Forall_impl; [exact Hxs|]. intros y Hy. cbn beta in Hy.
      specialize (Hy (S level)). rewrite length_app. cbn [lit list_ascii_of_string map app length]. lia. }
    specialize (Hc Hall). cbn [lit list_ascii_of_string map] in Hc. lia.
Qed.

(** [json.loads(json.dumps(v, indent=4))] is [v]. *)
Lemma loads_dumps (v : pyval) : wf_val v -> loads (dumps v) = Ok v.
Proof.
  intros Hwf. unfold loads, dumps.
  assert (Hs : skip_ws (encode 0 v) = encode 0 v).
  { rewrite <- (app_nil_r (encode 0 v)). apply skip_ws_encode. }
  rewrite Hs. cbv zeta.
  pose proof (scan_once_encode v Hwf 0%nat (S (length (encode 0 v))) [] I) as Hscan.
  rewrite app_nil_r in Hscan. rewrite Hscan; [reflexivity|].
  pose proof (nodes_le_encode v 0). lia.
Qed.

End JsonFacts.

(** ** The task store *)

Module StoreFacts.
Import JsonFacts.

Lemma hexdigit_ascii (d : Z) : 0 <= d < 16 -> is_ascii (hexdigit d).
Proof. unfold hexdigit, is_ascii. intros Hd. destruct (d <? 10); lia. Qed.

Lemma u_escape_ascii (n : Z) : Forall is_ascii (u_escape n).
Proof.
  unfold u_escape, hex4. repeat constructor; try (vm_compute; intuition congruence);
    apply hexdigit_ascii, Z.mod_pos_bound; lia.
Qed.

Lemma encode_char_ascii (c : Z) : Forall is_ascii (encode_char c).
Proof.
  unfold encode_char.
  repeat match goal with
  | |- context [if ?x =? ?k then _ else _] =>
      destruct (Z.eqb_spec x k); [repeat constructor; vm_compute; intuition congruence|]
  end.
  destruct ((32 <=? c) && (c <=? 126)) eqn:Hp.
  - repeat constructor; unfold is_ascii; lia.
  - destruct (c <? 65536); [apply u_escape_ascii|].
    apply Forall_app; split; apply u_escape_ascii.
Qed.

Lemma encode_basestring_ascii_ascii (s : text) : Forall is_ascii (encode_basestring_ascii s).
Proof.
  unfold encode_basestring_ascii, encode_chars.
  constructor; [vm_compute; intuition congruence|].
  apply Forall_app; split; [|repeat constructor; vm_compute; intuition congruence].
  induction s as [|c s IH]; cbn [map concat]; [constructor|].
  apply Forall_app; split; [apply encode_char_ascii|exact IH].
Qed.

Lemma uint_chars_ascii (d : Decimal.uint) : Forall is_ascii (uint_chars d).
Proof. induction d; cbn [uint_chars]; constructor; auto; unfold is_ascii; lia. Qed.

Lemma str_of_int_ascii (z : Z) : Forall is_ascii (str_of_int z).
Proof.
  unfold str_of_int. destruct (Z.to_int z); [|constructor; [vm_compute; intuition congruence|]];
    apply uint_chars_ascii.
Qed.

Lemma lit_ascii_closed (s : text) :
  forallb (fun c => (0 <=? c) && (c <? 128)) s = true -> Forall is_ascii s.
Proof.
  intros H. apply Forall_forall. intros c Hc.
  rewrite forallb_forall in H. apply list_elem_of_In in Hc. specialize (H c Hc).
  unfold is_ascii. lia.
Qed.

Lemma newline_indent_ascii (level : nat) : Forall is_ascii (newline_indent level).
Proof.
  unfold newline_indent. constructor; [unfold is_ascii; lia|].
  induction (4 * level)%nat; cbn [repeat]; constructor; auto. unfold is_ascii; lia.
Qed.

Lemma concat_map_ascii {A} (f : A -> text) (xs : list A) :
  Forall (fun x => Forall is_ascii (f x)) xs -> Forall is_ascii (concat (map f xs)).
Proof.
  induction 1; cbn [map concat]; [constructor|]. apply Forall_app; split; assumption.
Qed.

(** With [ensure_ascii] the encoder writes ASCII only. *)
Lemma encode_ascii (v : pyval) : forall level, Forall is_ascii (encode level v).
Proof.
  induction v as [|b|z|s|l IHl|d IHd] using pyval_nested_ind; intros level.
  - now apply lit_ascii_closed.
  - destruct b; now apply lit_ascii_closed.
  - apply str_of_int_ascii.
  - apply encode_basestring_ascii_ascii.
  - destruct l as [|x xs]; [now apply lit_ascii_closed|].
    apply Forall_cons in IHl as [Hx Hxs]. cbn [encode].
    repeat (apply Forall_app; split);
      auto using newline_indent_ascii; try (now apply lit_ascii_closed).
    apply concat_map_ascii. eapply Forall_impl; [exact Hxs|]. intros y Hy. cbn beta in *.
    repeat (apply Forall_app; split);
      auto using newline_indent_ascii; now apply lit_ascii_closed.
  - destruct d as [|kv kvs]; [now apply lit_ascii_closed|].
    apply Forall_cons in IHd as [Hx Hxs]. cbn [encode].
    repeat (apply Forall_app; split);
      auto using newline_indent_ascii, encode_basestring_ascii_ascii;
      try (now apply lit_ascii_closed).
    apply concat_map_ascii. eapply Forall_impl; [exact Hxs|]. intros y Hy. cbn beta in *.
    repeat (apply Forall_app; split);
      auto using newline_indent_ascii, encode_basestring_ascii_ascii;
      now apply lit_ascii_closed.
Qed.

Lemma byte_val_of (c : Z) : 0 <= c < 256 -> byte_val (byte_of c) = c.
Proof.
  intros Hc. unfold byte_val, byte_of.
  destruct (Byte.of_N (Z.to_N c)) as [b|] eqn:Hb.
  - apply Byte.to_of_N in Hb. rewrite Hb. lia.
  - apply Byte.of_N_None_iff in Hb. lia.
Qed.

Lemma utf8_encode_ascii (s : text) :
  Forall is_ascii s -> utf8_encode s = Some (map byte_of s).
Proof.
  induction 1 as [|c s Hc _ IH]; [reflexivity|].
  cbn [utf8_encode map]. unfold utf8_encode_char.
  replace ((0 <=? c) && (c <? 128)) with true by (unfold is_ascii in Hc; lia).
  now rewrite IH.
Qed.

Lemma utf8_decode_ascii (s : text) :
  Forall is_ascii s -> utf8_decode (map byte_of s) = Some s.
Proof.
  induction 1 as [|c s Hc _ IH]; [reflexivity|].
  cbn [utf8_decode map]. unfold is_ascii in Hc. rewrite byte_val_of by lia.
  replace (c <? 128) with true by lia. now rewrite IH.
Qed.

(** What [save_tasks] writes, [load_tasks] reads back. *)
Lemma save_then_load (v : pyval) (fs : filesystem) :
  wf_val v ->
  exists fs', save_tasks v fs = Ok fs' /\ load_tasks fs' = Ok v.
Proof.
  intros Hwf. unfold save_tasks, write_text, dumps.
  rewrite (utf8_encode_ascii _ (encode_ascii v 0%nat)).
  eexists; split; [reflexivity|].
  unfold load_tasks, json_load, read_text. cbn [os_path_exists].
  rewrite (utf8_decode_ascii _ (encode_ascii v 0%nat)). cbn [bind].
  fold (dumps v). now rewrite loads_dumps.
Qed.

End StoreFacts.

(** ** The application *)

Module AppFacts.
Import JsonFacts StoreFacts.

(** Text without surrogates is well formed. *)
Lemma lit_well_formed (s : text) :
  forallb scalarb s = true -> well_formed s.
Proof.
  intros H. rewrite forallb_forall in H. split.
  - apply Forall_forall. intros c Hc. apply list_elem_of_In in Hc.
    specialize (H c Hc). unfold scalarb, code_point in *. lia.
  - induction s as [|c s IH]; [exact I|]. cbn [no_split_pair]. split.
    + destruct s as [|c' s']; [exact I|].
      assert (Hc : scalarb c = true) by (apply H; now left).
      unfold scalarb, high_surrogate in *.
      replace ((55296 <=? c) && (c <=? 56319)) with false by lia. reflexivity.
    + apply IH. intros x Hx. apply H. now right.
Qed.

Lemma priority_str_well_formed (p : priority) : well_formed (priority_str p).
Proof. destruct p; now apply lit_well_formed. Qed.

Lemma to_dict_wf (t : Task) : task_text_ok t -> wf_val (PDict (to_dict t)).
Proof.
  intros (Ht & Hc & Hd & Hn & Hcr). constructor.
  - vm_compute.
    repeat (apply NoDup_cons_2;
            [rewrite ?not_elem_of_cons; repeat split;
             first [discriminate | apply not_elem_of_nil]|]).
    apply NoDup_nil_2.
  - unfold to_dict.
    repeat (constructor; [split; [now apply lit_well_formed|];
                          constructor; auto using priority_str_well_formed|]).
    constructor.
Qed.

Lemma tasks_value_wf (ts : list Task) :
  Forall task_text_ok ts -> wf_val (tasks_value ts).
Proof.
  intros H. constructor. induction H; cbn [map]; constructor; auto using to_dict_wf.
Qed.

(** [save_tasks] always succeeds: what it writes is ASCII. *)
Lemma save_tasks_ok (v : pyval) (fs : filesystem) :
  save_tasks v fs = Ok (Some (map byte_of (dumps v))).
Proof.
  unfold save_tasks, write_text, dumps.
  now rewrite (utf8_encode_ascii _ (encode_ascii v 0%nat)).
Qed.

Lemma save_ok (s : state) :
  save s = Ok {| heap := heap s; tasks := tasks s; editing_task := editing_task s;
                 data_file := Some (map byte_of (dumps (tasks_of (heap s) (tasks s))));
                 screen := screen s |}.
Proof. unfold save. now rewrite save_tasks_ok. Qed.

(** The three outcomes of [load_tasks] on text that decodes. *)
Lemma load_tasks_absent : load_tasks None = Ok (PList []).
Proof. reflexivity. Qed.

Lemma load_tasks_malformed (content : bytes) (s : text) :
  utf8_decode content = Some s -> loads s = Raise JSONDecodeError ->
  load_tasks (Some content) = Ok (PList []).
Proof.
  intros Hd Hl. unfold load_tasks, json_load, read_text. cbn [os_path_exists].
  rewrite Hd. cbn [bind]. now rewrite Hl.
Qed.

Lemma load_tasks_parsed (content : bytes) (s : text) (v : pyval) :
  utf8_decode content = Some s -> loads s = Ok v ->
  load_tasks (Some content) = Ok v.
Proof.
  intros Hd Hl. unfold load_tasks, json_load, read_text. cbn [os_path_exists].
  rewrite Hd. cbn [bind]. now rewrite Hl.
Qed.

Lemma load_tasks_undecodable (content : bytes) :
  utf8_decode content = None ->
  load_tasks (Some content) = Raise UnicodeDecodeError.
Proof.
  intros Hd. unfold load_tasks, json_load, read_text. cbn [os_path_exists].
  now rewrite Hd.
Qed.


Lemma show_fields (e : list ui_event) (s : state) :
  heap (show e s) = heap s /\ tasks (show e s) = tasks s /\
  data_file (show e s) = data_file s /\ editing_task (show e s) = editing_task s.
Proof. repeat split. Qed.

(** An accepted Add: a fresh object holds the new dictionary, the list
    gets a reference to it at its end, and the list is saved. *)
Lemma main_add_accepted (f : add_form) (now_id now_created : datetime) (s : state) :
  in_submitted f = true -> in_task f <> [] ->
  let d := [ (lit "id", PInt (int_timestamp now_id));
             (lit "task", PStr (in_task f));
             (lit "category", PStr (in_category f));
             (lit "priority", PStr (priority_str (in_priority f)));
             (lit "due_date", PStr (strftime_Ymd (in_due_date f)));
             (lit "notes", PStr (in_notes f));
             (lit "completed", PBool false);
             (lit "created_at", PStr (strftime_YmdHMS now_created)) ] in
  let l := fresh (dom (heap s)) in
  exists s', main_add f now_id now_created s = Ok s' /\
    heap s' = <[l := d]> (heap s) /\ tasks s' = tasks s ++ [l] /\
    data_file s' = Some (map byte_of (dumps (tasks_of (heap s') (tasks s')))).
Proof.
  intros Hsub Hne d l. unfold main_add, add_task_form. rewrite Hsub.
  destruct (in_task f) as [|c r] eqn:Ht; [congruence|]. cbn [nonempty negb].
  cbn [truthy]. fold d. cbv zeta. rewrite save_ok. cbn [bind].
  eexists. split; [reflexivity|]. repeat split.
Qed.

Lemma not_NoDup_twice {A} (l : list A) (x : A) : ~ NoDup (l ++ [x; x]).
Proof.
  intros H. apply NoDup_app in H as (_ & _ & H).
  apply NoDup_cons in H as [H _]. apply H. left.
Qed.


Lemma dict_get_set_eq (d : dict) (k : text) (v : pyval) :
  dict_get (dict_set d k v) k = Some v.
Proof.
  induction d as [|[k' v'] d IH]; cbn [dict_set dict_get].
  - now rewrite text_eqb_refl.
  - destruct (text_eqb k' k) eqn:E; cbn [dict_get]; rewrite E; [reflexivity|exact IH].
Qed.

Lemma dict_get_set_ne (d : dict) (k k' : text) (v : pyval) :
  k' <> k -> dict_get (dict_set d k v) k' = dict_get d k'.
Proof.
  intros Hne. induction d as [|[k0 v0] d IH]; cbn [dict_set dict_get].
  - now rewrite text_eqb_neq by congruence.
  - destruct (text_eqb k0 k) eqn:E; cbn [dict_get].
    + apply text_eqb_eq in E. subst k0. now rewrite text_eqb_neq by congruence.
    + now rewrite IH.
Qed.

(** Assigning to a key that is present keeps the keys and their order. *)
Lemma keys_dict_set (d : dict) (k : text) (v : pyval) :
  dict_has d k = true -> keys (dict_set d k v) = keys d.
Proof.
  unfold dict_has, keys. induction d as [|[k' v'] d IH]; cbn [dict_get dict_set map fst].
  - discriminate.
  - destruct (text_eqb k' k) eqn:E; cbn [map fst]; [reflexivity|].
    intros H. now rewrite IH.
Qed.

Lemma deref_insert_eq (h : gmap loc dict) (l : loc) (d : dict) :
  deref (<[l := d]> h) l = d.
Proof. unfold deref. now rewrite lookup_insert_eq. Qed.

Lemma deref_insert_ne (h : gmap loc dict) (l l' : loc) (d : dict) :
  l <> l' -> deref (<[l := d]> h) l' = deref h l'.
Proof. intros H. unfold deref. now rewrite lookup_insert_ne. Qed.

(** *** The model at work *)

Example dumps_then_loads :
  loads (dumps (tasks_value [sample_task; done_task])) = Ok (tasks_value [sample_task; done_task]).
Proof. vm_compute. reflexivity. Qed.

Example loads_tolerates_whitespace :
  loads (lit " [1, -20 ,{ } , [ ] , true,null ] ")
  = Ok (PList [PInt 1; PInt (-20); PDict []; PList []; PBool true; PNone]).
Proof. vm_compute. reflexivity. Qed.

Example loads_rejects_trailing_comma : loads (lit "[1, 2,]") = Raise JSONDecodeError.
Proof. vm_compute. reflexivity. Qed.

Example load_tasks_garbage :
  load_tasks (Some (map byte_of (lit "not json"))) = Ok (PList []).
Proof. vm_compute. reflexivity. Qed.

(** A high surrogate directly followed by a low one is written as two
    escapes and read back as one character: such a string is not text,
    and it does not survive the round trip. *)
Example split_pair_is_joined :
  loads (dumps (PStr [55357; 56832])) = Ok (PStr [128512]).
Proof. vm_compute. reflexivity. Qed.

(** A lone surrogate, as a hand-edited file can bring in, survives. *)
Example lone_surrogate_is_kept :
  loads (dumps (PStr [55357; 65; 56832])) = Ok (PStr [55357; 65; 56832]).
Proof. vm_compute. reflexivity. Qed.

Example strftime_pads :
  strftime_Ymd {| year := 2024; month := 3; day := 5 |} = lit "2024-03-05".
Proof. reflexivity. Qed.

Example overdue_text :
  due_display (Some (Overdue 1)) = lit " | " ++ [9888; 65039] ++ lit " Overdue by 1 days".
Proof. reflexivity. Qed.

Example filter_pending_milk :
  filtered_tasks ascii_lower two_task_heap pending_milk [0%nat; 1%nat] = Ok [0%nat].
Proof. vm_compute. reflexivity. Qed.

(** A record without a category makes the category filter raise. *)
Example filter_raises_without_category :
  filtered_tasks ascii_lower {[ 0%nat := [(lit "task", PStr (lit "x"))] ]}
    {| search_term := []; category_filter := lit "Work";
       priority_filter := lit "All"; status_filter := lit "All" |} [0%nat]
  = Raise (KeyError (lit "category")).
Proof. vm_compute. reflexivity. Qed.

(** *** Filters *)

Lemma filter_raising_ok {A} (p : A -> result bool) (q : A -> bool) (l : list A) :
  Forall (fun x => p x = Ok (q x)) l -> filter_raising p l = Ok (List.filter q l).
Proof.
  induction 1 as [|x l Hx _ IH]; [reflexivity|].
  cbn [filter_raising List.filter]. rewrite Hx, IH. cbn [bind]. reflexivity.
Qed.

Lemma filter_all {A} (q : A -> bool) (l : list A) :
  (forall x, q x = true) -> List.filter q l = l.
Proof.
  intros H. induction l as [|x l IH]; [reflexivity|].
  cbn [List.filter]. now rewrite H, IH.
Qed.

Lemma filter_Forall {A} (P : A -> Prop) (q : A -> bool) (l : list A) :
  Forall P l -> Forall P (List.filter q l).
Proof.
  induction 1 as [|x l Hx _ IH]; [constructor|].
  cbn [List.filter]. destruct (q x); [constructor|]; assumption.
Qed.

(** A stronger test on a shorter list keeps a sublist. *)
Lemma filter_sublist_mono {A} (p q : A -> bool) (l' l : list A) :
  (forall x, p x = true -> q x = true) ->
  sublist l' l -> sublist (List.filter p l') (List.filter q l).
Proof.
  intros Hpq Hsub. induction Hsub as [|x l1 l2 _ IH|x l1 l2 _ IH]; cbn [List.filter].
  - constructor.
  - destruct (p x) eqn:Hp.
    + rewrite (Hpq x Hp). now constructor.
    + destruct (q x); [now constructor|exact IH].
  - destruct (q x); [now constructor|exact IH].
Qed.

Lemma filter_sublist {A} (q : A -> bool) (l : list A) : sublist (List.filter q l) l.
Proof.
  induction l as [|x l IH]; cbn [List.filter]; [constructor|].
  destruct (q x); now constructor.
Qed.

Lemma deref_shaped (h : gmap loc dict) (l : loc) :
  task_shaped h l -> exists t, deref h l = to_dict t.
Proof. intros [t Ht]. exists t. unfold deref. now rewrite Ht. Qed.

Section FilterFacts.

Variable lower : text -> text.
Variable h : gmap loc dict.
Variable c : filters.

Lemma search_filter_shaped (l : list loc) :
  Forall (task_shaped h) l ->
  search_filter lower h c l = Ok (List.filter (fun r => search_keeps lower c (deref h r)) l).
Proof.
  intros Hl. unfold search_filter, search_keeps.
  destruct (nonempty (search_term c)); cbn [negb orb].
  - apply filter_raising_ok. eapply Forall_impl; [exact Hl|].
    intros r Hr. destruct (deref_shaped h r Hr) as [t ->]. reflexivity.
  - now rewrite filter_all.
Qed.

Lemma category_stage_shaped (l : list loc) :
  Forall (task_shaped h) l ->
  category_stage h c l = Ok (List.filter (fun r => category_keeps c (deref h r)) l).
Proof.
  intros Hl. unfold category_stage, category_keeps.
  destruct (text_eqb (category_filter c) (lit "All")); cbn [negb orb].
  - now rewrite filter_all.
  - apply filter_raising_ok. eapply Forall_impl; [exact Hl|].
    intros r Hr. destruct (deref_shaped h r Hr) as [t ->]. reflexivity.
Qed.

Lemma priority_stage_shaped (l : list loc) :
  Forall (task_shaped h) l ->
  priority_stage h c l = Ok (List.filter (fun r => priority_keeps c (deref h r)) l).
Proof.
  intros Hl. unfold priority_stage, priority_keeps.
  destruct (text_eqb (priority_filter c) (lit "All")); cbn [negb orb].
  - now rewrite filter_all.
  - apply filter_raising_ok. eapply Forall_impl; [exact Hl|].
    intros r Hr. destruct (deref_shaped h r Hr) as [t ->]. reflexivity.
Qed.

Lemma status_stage_shaped (l : list loc) :
  Forall (task_shaped h) l ->
  status_stage h c l = Ok (List.filter (fun r => status_keeps c (deref h r)) l).
Proof.
  intros Hl. unfold status_stage.
  assert (Hall : Forall (fun r => exists t, deref h r = to_dict t) l).
  { eapply Forall_impl; [exact Hl|]. apply deref_shaped. }
  destruct (text_eqb (status_filter c) (lit "Completed")) eqn:E1;
    [|destruct (text_eqb (status_filter c) (lit "Pending")) eqn:E2].
  - erewrite filter_raising_ok; [reflexivity|].
    eapply Forall_impl; [exact Hall|]. intros r [t Ht]. cbn beta.
    unfold status_keeps. rewrite Ht, E1. reflexivity.
  - erewrite filter_raising_ok; [reflexivity|].
    eapply Forall_impl; [exact Hall|]. intros r [t Ht]. cbn beta.
    unfold status_keeps. rewrite Ht, E1, E2. reflexivity.
  - rewrite filter_all; [reflexivity|]. intros r. unfold status_keeps.
    rewrite E1, E2. now destruct (dict_get (deref h r) (lit "completed")).
Qed.

(** On task records the four filters never raise: the result is the
    list of the rows that pass the four tests, in their order. *)
Lemma filtered_tasks_shaped (l : list loc) :
  Forall (task_shaped h) l ->
  filtered_tasks lower h c l =
  Ok (List.filter (fun r => status_keeps c (deref h r))
       (List.filter (fun r => priority_keeps c (deref h r))
         (List.filter (fun r => category_keeps c (deref h r))
           (List.filter (fun r => search_keeps lower c (deref h r)) l)))).
Proof.
  intros Hl. unfold filtered_tasks.
  rewrite search_filter_shaped by assumption. cbn [bind].
  rewrite category_stage_shaped by auto using filter_Forall. cbn [bind].
  rewrite priority_stage_shaped by auto using filter_Forall. cbn [bind].
  rewrite status_stage_shaped by auto using filter_Forall. reflexivity.
Qed.

End FilterFacts.

(** With more filters, each test keeps less. *)
Lemma keeps_mono (lower : text -> text) (c c' : filters) (d : dict) :
  adds_filter c c' ->
  (search_keeps lower c' d = true -> search_keeps lower c d = true) /\
  (category_keeps c' d = true -> category_keeps c d = true) /\
  (priority_keeps c' d = true -> priority_keeps c d = true) /\
  (status_keeps c' d = true -> status_keeps c d = true).
Proof.
  intros (Hs & Hc & Hp & Hst). repeat split.
  - unfold search_keeps. destruct Hs as [-> | ->]; [reflexivity|auto].
  - unfold category_keeps. destruct Hc as [-> | ->]; [reflexivity|auto].
  - unfold priority_keeps. destruct Hp as [-> | ->]; [reflexivity|auto].
  - unfold status_keeps. destruct Hst as [[H1 H2] | ->]; [|auto].
    rewrite (text_eqb_neq _ _ H1), (text_eqb_neq _ _ H2).
    now destruct (dict_get d (lit "completed")).
Qed.

(** *** Dates and charts *)

(** After midnight the chart counts one day less than the calendar. *)
Lemma days_until_due_after_midnight (due : civil) (now : datetime) :
  0 < time_of_day_ns now < day_ns ->
  days_until_due due now = toordinal due - toordinal (dt_date now) - 1.
Proof.
  intros Htod. unfold days_until_due, timestamp_ns, midnight_ns.
  set (a := toordinal due). set (b := toordinal (dt_date now)).
  set (t := time_of_day_ns now) in *. unfold day_ns in *.
  symmetry. apply (Z.div_unique _ _ _ (86400 * 1000000000 - t)); lia.
Qed.

Lemma days_until_due_at_midnight (due : civil) (now : datetime) :
  time_of_day_ns now = 0 ->
  days_until_due due now = toordinal due - toordinal (dt_date now).
Proof.
  intros Htod. unfold days_until_due, timestamp_ns, midnight_ns. rewrite Htod.
  unfold day_ns. symmetry. apply (Z.div_unique _ _ _ 0); lia.
Qed.

(** The buckets of the chart in terms of the calendar, after midnight:
    a task due today is already [Overdue] and one due in four days is
    still [Due Soon]. *)
Lemma row_status_after_midnight (due : civil) (now : datetime) :
  0 < time_of_day_ns now < day_ns ->
  let d := toordinal due - toordinal (dt_date now) in
  row_status (Some due) now =
  if d <=? 0 then lit "Overdue" else if d <=? 4 then lit "Due Soon" else lit "Future".
Proof.
  intros Htod d. unfold row_status, status_of. cbn [option_map].
  rewrite days_until_due_after_midnight by assumption. fold d.
  destruct (Z.leb_spec d 0).
  - now replace (d - 1 <? 0) with true by lia.
  - replace (d - 1 <? 0) with false by lia.
    destruct (Z.leb_spec d 4).
    + now replace (d - 1 <=? 3) with true by lia.
    + now replace (d - 1 <=? 3) with false by lia.
Qed.

(** A task due in exactly three days is [Due Soon] at any time of day. *)
Lemma three_days_ahead_due_soon (due : civil) (now : datetime) :
  toordinal due - toordinal (dt_date now) = 3 ->
  0 <= time_of_day_ns now < day_ns ->
  row_status (Some due) now = lit "Due Soon".
Proof.
  intros Hd Htod. destruct (Z.eq_dec (time_of_day_ns now) 0) as [H0|H0].
  - unfold row_status, status_of. cbn [option_map].
    rewrite days_until_due_at_midnight by assumption. now rewrite Hd.
  - rewrite row_status_after_midnight by lia. cbv zeta. now rewrite Hd.
Qed.

(** The same pending task, due today, seen at noon by the three views:
    the list says it is due today, the quick statistics count no
    overdue task, the chart counts it as overdue. *)
Example due_today_in_the_list :
  display_due_status parse_iso_date (to_dict due_today_task) (dt_date noon) = Some DueToday.
Proof. reflexivity. Qed.

Example due_today_in_quick_stats :
  quick_stats_overdue parse_iso_date [to_dict due_today_task] (dt_date noon) = 0%nat.
Proof. reflexivity. Qed.

Example due_today_in_the_chart :
  pending_statuses [due_today_task] [Some (dt_date noon)] noon = [lit "Overdue"].
Proof. reflexivity. Qed.

Lemma column_sum_count (col : list bool) :
  column_sum col = Z.of_nat (length (List.filter (fun b => b) col)).
Proof.
  induction col as [|b col IH]; [reflexivity|].
  cbn [column_sum fold_right List.filter]. fold (column_sum col). rewrite IH.
  destruct b; cbn [length]; lia.
Qed.

Lemma filter_map_length {A} (f : A -> bool) (l : list A) :
  length (List.filter (fun b => b) (map f l)) = length (List.filter f l).
Proof.
  induction l as [|x l IH]; [reflexivity|].
  cbn [map List.filter]. destruct (f x); cbn [length]; now rewrite IH.
Qed.

End AppFacts.

(** ** Binary64 arithmetic *)

Module FloatFacts.
Import SpecFloat.

(** *** Rounding to 53 bits *)

Lemma digits2_size (p : positive) : digits2_pos p = Pos.size p.
Proof. induction p as [p IH|p IH|]; cbn; now rewrite ?IH. Qed.

Lemma digits_bounds (p : positive) :
  2 ^ (Zpos (digits2_pos p) - 1) <= Zpos p < 2 ^ Zpos (digits2_pos p).
Proof.
  rewrite digits2_size. pose proof (Pos.size_gt p) as Hgt. pose proof (Pos.size_le p) as Hle.
  assert (H2 : Zpos (2 ^ Pos.size p) = 2 ^ Zpos (Pos.size p)) by apply Pos2Z.inj_pow.
  apply Pos2Z.pos_lt_pos in Hgt. apply Pos2Z.pos_le_pos in Hle.
  rewrite Pos2Z.inj_xO in Hle. rewrite H2 in Hgt, Hle.
  split; [|exact Hgt].
  replace (Zpos (Pos.size p)) with (Z.succ (Zpos (Pos.size p) - 1)) in Hle by lia.
  rewrite Z.pow_succ_r in Hle by lia. lia.
Qed.

Lemma digits_unique (p : positive) (d : Z) :
  2 ^ (d - 1) <= Zpos p < 2 ^ d -> Zpos (digits2_pos p) = d.
Proof.
  intros [Hlo Hhi]. pose proof (digits_bounds p) as [Hlo' Hhi'].
  set (d' := Zpos (digits2_pos p)) in *.
  assert (0 < d).
  { destruct (Z.lt_trichotomy d 0) as [Hn|[->|Hp]]; [|cbn in Hhi; lia|exact Hp].
    rewrite (Z.pow_neg_r 2 d Hn) in Hhi. lia. }
  destruct (Z.lt_trichotomy d' d) as [Hlt|[->|Hgt]]; [|reflexivity|].
  - assert (2 ^ d' <= 2 ^ (d - 1)) by (apply Z.pow_le_mono_r; lia). lia.
  - assert (2 ^ d <= 2 ^ (d' - 1)) by (apply Z.pow_le_mono_r; lia). lia.
Qed.

Lemma shift_iter_invariant {A} (f : A -> A) (P : nat -> A -> Prop) :
  (forall j x, P j x -> P (S j) (f x)) ->
  forall p j x, P j x -> P (j + Pos.to_nat p)%nat (SpecFloat.iter_pos f p x).
Proof.
  intros Hstep. induction p as [p IH|p IH|]; intros j x Hx; cbn [SpecFloat.iter_pos].
  - replace (j + Pos.to_nat p~1)%nat with (S j + Pos.to_nat p + Pos.to_nat p)%nat by lia.
    apply IH, IH, Hstep, Hx.
  - replace (j + Pos.to_nat p~0)%nat with (j + Pos.to_nat p + Pos.to_nat p)%nat by lia.
    apply IH, IH, Hx.
  - replace (j + Pos.to_nat 1)%nat with (S j) by lia. apply Hstep, Hx.
Qed.

Lemma half_div (N B : Z) :
  0 <= N -> 0 < B ->
  N / (2 * B) = (N / B) / 2 /\ N mod (2 * B) = N mod B + B * ((N / B) mod 2).
Proof.
  intros HN HB.
  pose proof (Z.div_mod N B ltac:(lia)) as E1. pose proof (Z.mod_pos_bound N B HB) as B1.
  pose proof (Z.div_mod (N / B) 2 ltac:(lia)) as E2.
  pose proof (Z.mod_pos_bound (N / B) 2 ltac:(lia)) as B2.
  set (q := N / B) in *. set (r := N mod B) in *. set (q2 := q / 2) in *. set (b := q mod 2) in *.
  assert (HN2 : N = (2 * B) * q2 + (r + B * b)) by nia.
  assert (Hr : 0 <= r + B * b < 2 * B) by nia.
  symmetry in HN2.
  split.
  - symmetry. apply (Z.div_unique_pos N (2 * B) q2 (r + B * b)); [exact Hr|lia].
  - symmetry. apply (Z.mod_unique_pos N (2 * B) q2 (r + B * b)); [exact Hr|lia].
Qed.

Lemma shr_1_represents (N B : Z) (mrs : shr_record) :
  0 <= N -> 0 < B -> represents N B mrs -> represents N (2 * B) (shr_1 mrs).
Proof.
  intros HN HB [Hm Hl]. destruct (half_div N B HN HB) as [Hq Hr].
  pose proof (Z.mod_pos_bound N B HB) as Hb.
  pose proof (Z.div_pos N B HN HB) as Hq0.
  unfold represents, located in *. rewrite Hq, Hr.
  set (q := N / B) in *. set (r := N mod B) in *.
  destruct mrs as [m rb sb]. cbn [shr_m] in Hm. subst m.
  assert (Hs : orb rb sb = negb (r =? 0)).
  { destruct rb, sb; cbn in Hl |- *; destruct (r =? 0) eqn:E; try reflexivity; try discriminate. }
  assert (Hcases : (q = 0 /\ q / 2 = 0 /\ q mod 2 = 0) \/
                   (exists p, q = Zpos p~0 /\ q / 2 = Zpos p /\ q mod 2 = 0) \/
                   (q = 1 /\ q / 2 = 0 /\ q mod 2 = 1) \/
                   (exists p, q = Zpos p~1 /\ q / 2 = Zpos p /\ q mod 2 = 1)).
  { destruct q as [|[p|p|]|p]; [left; repeat split | | | | lia].
    - right; right; right. exists p. split; [reflexivity|].
      rewrite Pos2Z.inj_xI. split; [symmetry; apply (Z.div_unique_pos _ 2 _ 1); lia
                                   |symmetry; apply (Z.mod_unique_pos _ 2 (Zpos p) 1); lia].
    - right; left. exists p. split; [reflexivity|].
      rewrite Pos2Z.inj_xO. split; [symmetry; apply (Z.div_unique_pos _ 2 _ 0); lia
                                   |symmetry; apply (Z.mod_unique_pos _ 2 (Zpos p) 0); lia].
    - right; right; left. repeat split. }
  destruct Hcases as [(E & -> & ->)|[(p & E & -> & ->)|[(E & -> & ->)|(p & E & -> & ->)]]];
    rewrite E; cbn [shr_1 shr_m loc_of_shr_record]; rewrite Hs;
    (split; [reflexivity|]);
    destruct (Z.eqb_spec r 0) as [Hz|Hz]; cbn [negb];
    rewrite ?Z.mul_0_r, ?Z.mul_1_r, ?Z.add_0_r.
  all: try (destruct (Z.eqb_spec r 0); [|lia]).
  all: try (destruct (Z.eqb_spec (r + B) 0); [lia|]).
  all: try reflexivity.
  all: try (destruct (Z.eqb_spec r 0); [lia|]).
  all: try (f_equal; symmetry; apply Z.compare_lt_iff; lia).
  all: try (f_equal; symmetry; apply Z.compare_gt_iff; lia).
  all: try (f_equal; symmetry; apply Z.compare_eq_iff; lia).
Qed.

Lemma iter_shr_represents (N B : Z) (p : positive) (mrs : shr_record) :
  0 <= N -> 0 < B -> represents N B mrs ->
  represents N (B * 2 ^ Zpos p) (SpecFloat.iter_pos shr_1 p mrs).
Proof.
  intros HN HB Hr.
  pose proof (shift_iter_invariant shr_1
    (fun j x => represents N (B * 2 ^ Z.of_nat j) x)) as Hinv.
  assert (Hstep : forall j x, represents N (B * 2 ^ Z.of_nat j) x ->
                              represents N (B * 2 ^ Z.of_nat (S j)) (shr_1 x)).
  { intros j x Hx. rewrite Nat2Z.inj_succ, Z.pow_succ_r by lia.
    replace (B * (2 * 2 ^ Z.of_nat j)) with (2 * (B * 2 ^ Z.of_nat j)) by lia.
    apply shr_1_represents; [assumption| |assumption].
    apply Z.mul_pos_pos; [assumption|]. apply Z.pow_pos_nonneg; lia. }
  specialize (Hinv Hstep p 0%nat mrs).
  cbn [Z.of_nat] in Hinv. rewrite Z.pow_0_r, Z.mul_1_r in Hinv. specialize (Hinv Hr).
  cbn [Nat.add] in Hinv. now rewrite positive_nat_Z in Hinv.
Qed.

Lemma represents_start (N B : Z) :
  represents N B (shr_record_of_loc (N / B) (located N B)).
Proof.
  split; [now destruct (located N B) as [|[]]|]. now destruct (located N B) as [|[]].
Qed.

Lemma round_nearest_even_located (N B : Z) (mrs : shr_record) :
  0 < B -> represents N B mrs ->
  round_nearest_even (shr_m mrs) (loc_of_shr_record mrs) = round_half_even N B.
Proof.
  intros HB [-> ->]. unfold located, round_half_even, round_nearest_even.
  destruct (Z.eqb_spec (N mod B) 0) as [E|E].
  - rewrite E, Z.mul_0_r.
    assert (C : (0 ?= B) = Lt) by (apply Z.compare_lt_iff; lia). now rewrite C.
  - now destruct (2 * (N mod B) ?= B).
Qed.

Lemma round_half_even_near (N B : Z) :
  0 <= N -> 0 < B ->
  N / B <= round_half_even N B <= N / B + 1 /\
  2 * Z.abs (round_half_even N B * B - N) <= B.
Proof.
  intros HN HB. unfold round_half_even.
  pose proof (Z.div_mod N B ltac:(lia)) as E. pose proof (Z.mod_pos_bound N B HB) as Hb.
  set (q := N / B) in *. set (r := N mod B) in *.
  destruct (Z.compare_spec (2 * r) B) as [C|C|C]; [destruct (Z.even q)| |]; split; nia.
Qed.

(** Rounding of [N / D * 2 ^ ex] whose integer part [N / D] has [d >= 53]
    digits, in the range of the normal numbers. *)
Lemma round_aux_normal (N D ex d : Z) :
  0 < D -> 0 < N ->
  2 ^ (d - 1) <= N / D < 2 ^ d -> 53 <= d ->
  -1074 <= ex + d - 53 -> ex + d - 53 < 971 ->
  let M := round_half_even N (D * 2 ^ (d - 53)) in
  binary_round_aux 53 1024 false (N / D) ex (located N D) =
  if M <? 2 ^ 53 then S754_finite false (Z.to_pos M) (ex + d - 53)
  else S754_finite false (Z.to_pos (2 ^ 52)) (ex + d - 52).
Proof.
  intros HD HN Hd H53 Hlo Hhi M.
  assert (Hq : 0 < N / D).
  { assert (0 < 2 ^ (d - 1)) by (apply Z.pow_pos_nonneg; lia). lia. }
  assert (Hdig : Zdigits2 (N / D) = d).
  { destruct (N / D) as [|p|p] eqn:E; [lia| |lia]. cbn [Zdigits2]. now apply digits_unique. }
  set (B := D * 2 ^ (d - 53)) in *.
  assert (HB : 0 < B) by (apply Z.mul_pos_pos; [assumption|apply Z.pow_pos_nonneg; lia]).
  assert (Hfirst : exists mrs, shr_fexp 53 1024 (N / D) ex (located N D) = (mrs, ex + d - 53) /\
                               represents N B mrs).
  { unfold shr_fexp. rewrite Hdig. unfold fexp, emin.
    replace (Z.max (d + ex - 53) (3 - 1024 - 53) - ex) with (d - 53) by lia.
    unfold shr. destruct (d - 53) as [|p|p] eqn:E; [| |lia].
    - eexists. split; [f_equal; lia|]. unfold B. rewrite Z.pow_0_r, Z.mul_1_r.
      apply represents_start.
    - eexists. split; [f_equal; lia|]. unfold B.
      apply iter_shr_represents; [lia|assumption|apply represents_start]. }
  destruct Hfirst as (mrs & Hshr & Hrep).
  unfold binary_round_aux. rewrite Hshr.
  rewrite (round_nearest_even_located N B mrs HB Hrep). fold M.
  destruct (round_half_even_near N B ltac:(lia) HB) as [[HM1 HM2] _]. fold M in HM1, HM2.
  assert (HNB : 2 ^ 52 <= N / B < 2 ^ 53).
  { unfold B. rewrite <- Z.div_div by (try apply Z.pow_pos_nonneg; lia).
    assert (Hp : 0 < 2 ^ (d - 53)) by (apply Z.pow_pos_nonneg; lia).
    assert (E1 : 2 ^ (d - 1) = 2 ^ 52 * 2 ^ (d - 53)) by (rewrite <- Z.pow_add_r by lia; f_equal; lia).
    assert (E2 : 2 ^ d = 2 ^ 53 * 2 ^ (d - 53)) by (rewrite <- Z.pow_add_r by lia; f_equal; lia).
    split.
    - apply Z.div_le_lower_bound; [assumption|]. rewrite Z.mul_comm. lia.
    - apply Z.div_lt_upper_bound; [assumption|]. rewrite Z.mul_comm. lia. }
  change (2 ^ 52) with 4503599627370496 in *. change (2 ^ 53) with 9007199254740992 in *.
  destruct (Z.ltb_spec M 9007199254740992) as [Hlt|Hge].
  - assert (HdM : Zdigits2 M = 53).
    { destruct M as [|p|p] eqn:E; [lia| |lia]. cbn [Zdigits2]. apply digits_unique.
      change (2 ^ (53 - 1)) with 4503599627370496. change (2 ^ 53) with 9007199254740992. lia. }
    unfold shr_fexp. rewrite HdM. unfold fexp, emin.
    replace (Z.max (53 + (ex + d - 53) - 53) (3 - 1024 - 53) - (ex + d - 53)) with 0 by lia.
    cbn [shr shr_record_of_loc shr_m].
    destruct M as [|p|p]; [lia| |lia].
    replace (ex + d - 53 <=? 1024 - 53) with true by lia. reflexivity.
  - assert (EM : M = 9007199254740992) by lia. rewrite EM.
    assert (HdM : Zdigits2 9007199254740992 = 54) by (vm_compute; reflexivity).
    unfold shr_fexp. rewrite HdM. unfold fexp, emin.
    replace (Z.max (54 + (ex + d - 53) - 53) (3 - 1024 - 53) - (ex + d - 53)) with 1 by lia.
    cbn [shr iter_pos shr_record_of_loc shr_1 shr_m].
    replace (ex + d - 53 + 1 <=? 1024 - 53) with true by lia.
    f_equal. lia.
Qed.

Lemma pow2_split (a b : Z) : 0 <= a -> 0 <= b -> 2 ^ (a + b) = 2 ^ a * 2 ^ b.
Proof. intros. now apply Z.pow_add_r. Qed.

Lemma pow2_pos (a : Z) : 0 <= a -> 0 < 2 ^ a.
Proof. intros. now apply Z.pow_pos_nonneg. Qed.

Lemma round_aux_scaled (N D ex d : Z) :
  0 < D -> 0 < N ->
  2 ^ (d - 1) <= N / D < 2 ^ d -> 53 <= d ->
  -200 <= ex -> ex + d - 53 < 971 ->
  exists m e,
    binary_round_aux 53 1024 false (N / D) ex (located N D) = S754_finite false m e /\
    2 ^ 52 <= Zpos m < 2 ^ 53 /\ ex + d - 53 <= e <= ex + d - 52 /\
    2 ^ 53 * Z.abs (Zpos m * 2 ^ (e + 200) * D - N * 2 ^ (ex + 200)) <= N * 2 ^ (ex + 200).
Proof.
  intros HD HN Hd H53 Hlo Hhi.
  rewrite (round_aux_normal N D ex d) by (assumption || lia). cbv zeta.
  set (B := D * 2 ^ (d - 53)).
  assert (HB : 0 < B) by (apply Z.mul_pos_pos; [assumption|apply pow2_pos; lia]).
  destruct (round_half_even_near N B ltac:(lia) HB) as [[HM1 HM2] Hnear].
  set (M := round_half_even N B) in *.
  assert (HNB : 2 ^ 52 <= N / B < 2 ^ 53).
  { unfold B. rewrite <- Z.div_div by (try apply pow2_pos; lia).
    assert (Hp : 0 < 2 ^ (d - 53)) by (apply pow2_pos; lia).
    assert (E1 : 2 ^ (d - 1) = 2 ^ 52 * 2 ^ (d - 53)) by (rewrite <- Z.pow_add_r by lia; f_equal; lia).
    assert (E2 : 2 ^ d = 2 ^ 53 * 2 ^ (d - 53)) by (rewrite <- Z.pow_add_r by lia; f_equal; lia).
    split.
    - apply Z.div_le_lower_bound; [assumption|]. rewrite Z.mul_comm. lia.
    - apply Z.div_lt_upper_bound; [assumption|]. rewrite Z.mul_comm. lia. }
  assert (HBN : 2 ^ 52 * B <= N).
  { pose proof (Z.mul_div_le N B HB). nia. }
  set (G := 2 ^ (ex + 200)).
  assert (HG : 0 < G) by (apply pow2_pos; lia).
  assert (Hkey : 2 ^ 53 * Z.abs (M * 2 ^ (ex + d - 53 + 200) * D - N * G) <= N * G).
  { replace (ex + d - 53 + 200) with ((d - 53) + (ex + 200)) by lia.
    rewrite pow2_split by lia. fold G.
    replace (M * (2 ^ (d - 53) * G) * D - N * G) with ((M * B - N) * G) by (unfold B; ring).
    rewrite Z.abs_mul, (Z.abs_eq G) by lia.
    change (2 ^ 53) with (2 * 2 ^ 52). nia. }
  change (2 ^ 52) with 4503599627370496 in *. change (2 ^ 53) with 9007199254740992 in *.
  assert (HMlo : 4503599627370496 <= M) by (clear - HM1 HNB; lia).
  assert (HMhi : M <= 9007199254740992) by (clear - HM2 HNB; lia).
  clearbody M B G. clear - Hkey HMlo HMhi Hlo H53.
  destruct (Z.ltb_spec M 9007199254740992) as [Hlt|Hge].
  - exists (Z.to_pos M), (ex + d - 53). split; [reflexivity|].
    rewrite Z2Pos.id by (clear - HMlo; lia).
    split; [clear - HMlo Hlt; lia|]. split; [clear; lia|exact Hkey].
  - assert (EM : M = 9007199254740992) by (clear - Hge HMhi; lia).
    exists (Z.to_pos 4503599627370496), (ex + d - 52). split; [reflexivity|].
    rewrite Z2Pos.id by (clear; lia). split; [clear; lia|]. split; [clear; lia|].
    replace (4503599627370496 * 2 ^ (ex + d - 52 + 200))
      with (M * 2 ^ (ex + d - 53 + 200)); [exact Hkey|].
    rewrite EM. replace (ex + d - 52 + 200) with (1 + (ex + d - 53 + 200)) by (clear; lia).
    rewrite (pow2_split 1 (ex + d - 53 + 200)) by (clear - Hlo H53; lia).
    change (2 ^ 1) with 2. ring.
Qed.

Lemma shl_value (p d : positive) : Zpos (Pos.iter xO p d) = Zpos p * 2 ^ Zpos d.
Proof.
  induction d as [|d IH] using Pos.peano_ind.
  - cbn. lia.
  - rewrite Pos.iter_succ, Pos2Z.inj_xO, IH, Pos2Z.inj_succ, Z.pow_succ_r by lia. ring.
Qed.

Lemma located_exact (N : Z) : located N 1 = loc_Exact.
Proof. unfold located. now rewrite Z.mod_1_r. Qed.

(** An integer below [2 ^ 53] is converted exactly. *)
Lemma b64_of_Z_pos (k : Z) :
  0 < k < 2 ^ 53 ->
  exists m e, b64_of_Z k = S754_finite false m e /\
    2 ^ 52 <= Zpos m < 2 ^ 53 /\ -52 <= e <= 0 /\ Zpos m = k * 2 ^ (- e).
Proof.
  intros [Hk0 Hk]. destruct k as [|p|p]; [lia| |lia].
  unfold b64_of_Z, binary_normalize, binary_round.
  pose proof (digits_bounds p) as [Hlo Hhi]. set (d := Zpos (digits2_pos p)) in *.
  assert (Hd : 1 <= d <= 53).
  { split; [unfold d; lia|].
    destruct (Z.le_gt_cases d 53) as [H|H]; [exact H|].
    assert (2 ^ 53 <= 2 ^ (d - 1)) by (apply Z.pow_le_mono_r; lia). lia. }
  unfold fexp, emin. replace (Z.max (d + 0 - 53) (3 - 1024 - 53)) with (d - 53) by lia.
  assert (Hal : exists mz, shl_align p 0 (d - 53) = (mz, d - 53) /\
                           Zpos mz = Zpos p * 2 ^ (53 - d)).
  { unfold shl_align. rewrite Z.sub_0_r. destruct (d - 53) as [|q|q] eqn:E; [|lia|].
    - exists p. split; [reflexivity|]. replace (53 - d) with 0 by lia. lia.
    - exists (Pos.iter xO p q). split; [reflexivity|]. rewrite shl_value.
      f_equal. f_equal. lia. }
  destruct Hal as (mz & -> & Hmz).
  assert (Hmzb : 2 ^ 52 <= Zpos mz < 2 ^ 53).
  { rewrite Hmz.
    assert (E1 : 2 ^ 52 = 2 ^ (d - 1) * 2 ^ (53 - d)) by (rewrite <- Z.pow_add_r by lia; f_equal; lia).
    assert (E2 : 2 ^ 53 = 2 ^ d * 2 ^ (53 - d)) by (rewrite <- Z.pow_add_r by lia; f_equal; lia).
    assert (0 < 2 ^ (53 - d)) by (apply pow2_pos; lia). nia. }
  pose proof (round_aux_normal (Zpos mz) 1 (d - 53) 53) as Hr.
  rewrite Z.div_1_r, located_exact in Hr. cbv zeta in Hr.
  rewrite Hr; [|lia|lia|exact Hmzb|lia|lia|lia].
  change (2 ^ (53 - 53)) with 1. 
  assert (HM : round_half_even (Zpos mz) (1 * 1) = Zpos mz).
  { unfold round_half_even. cbn [Z.mul]. now rewrite Z.mod_1_r, Z.div_1_r. }
  rewrite HM. replace (Zpos mz <? 2 ^ 53) with true by lia.
  exists mz, (d - 53). rewrite Pos2Z.id. split; [f_equal; lia|].
  split; [exact Hmzb|]. split; [lia|]. rewrite Hmz. f_equal. f_equal. lia.
Qed.

Lemma new_location_located (N D : Z) :
  0 < D -> new_location D (N mod D) = located N D.
Proof.
  intros HD. pose proof (Z.mod_pos_bound N D HD) as Hb.
  unfold new_location, new_location_even, new_location_odd, located.
  set (r := N mod D) in *.
  destruct (Z.even D) eqn:Ev; destruct (Z.eqb_spec r 0) as [E|E]; try reflexivity.
  f_equal.
  assert (Hodd : Z.odd D = true) by (rewrite <- Z.negb_even, Ev; reflexivity).
  apply Z.odd_spec in Hodd. destruct Hodd as [j Hj].
  destruct (Z.compare_spec (2 * r + 1) D); destruct (Z.compare_spec (2 * r) D);
    try reflexivity; lia.
Qed.

Lemma div_eucl_pair (a b : Z) : Z.div_eucl a b = (a / b, a mod b).
Proof. unfold Z.div, Z.modulo. now destruct (Z.div_eucl a b). Qed.

(** *** The quotient, the product and the decimal *)

Lemma quotient_digits (mk mn : positive) :
  2 ^ 52 <= Zpos mk < 2 ^ 53 -> 2 ^ 52 <= Zpos mn < 2 ^ 53 ->
  exists d, 53 <= d <= 54 /\
    2 ^ (d - 1) <= Zpos mk * 2 ^ 53 / Zpos mn < 2 ^ d.
Proof.
  intros Hk Hn. change (2 ^ 52) with 4503599627370496 in *.
  change (2 ^ 53) with 9007199254740992 in *.
  set (q := Zpos mk * 9007199254740992 / Zpos mn).
  assert (Hq : 4503599627370496 <= q < 18014398509481984).
  { unfold q. split.
    - apply Z.div_le_lower_bound; lia.
    - apply Z.div_lt_upper_bound; lia. }
  destruct (Z.lt_ge_cases q 9007199254740992).
  - exists 53. change (2 ^ (53 - 1)) with 4503599627370496.
    change (2 ^ 53) with 9007199254740992. lia.
  - exists 54. change (2 ^ (54 - 1)) with 9007199254740992.
    change (2 ^ 54) with 18014398509481984. lia.
Qed.

Lemma b64_div_scaled (k n : Z) :
  0 < k < 2 ^ 53 -> 0 < n < 2 ^ 53 ->
  exists m e,
    b64_div (b64_of_Z k) (b64_of_Z n) = S754_finite false m e /\
    2 ^ 52 <= Zpos m < 2 ^ 53 /\ -110 <= e <= 60 /\
    2 ^ 53 * Z.abs (Zpos m * 2 ^ (e + 200) * n - k * 2 ^ 200) <= k * 2 ^ 200.
Proof.
  intros Hk Hn.
  destruct (b64_of_Z_pos k Hk) as (mk & ek & -> & Hmk & Hek & Emk).
  destruct (b64_of_Z_pos n Hn) as (mn & en & -> & Hmn & Hen & Emn).
  unfold b64_div, SFdiv, SFdiv_core_binary. cbn [Zdigits2 xorb].
  rewrite (digits_unique mk 53), (digits_unique mn 53) by assumption.
  unfold fexp, emin.
  replace (Z.min (Z.max (53 + ek - (53 + en) - 53) (3 - 1024 - 53)) (ek - en))
    with (ek - en - 53) by lia.
  replace (ek - en - (ek - en - 53)) with 53 by lia. cbv iota.
  rewrite Z.shiftl_mul_pow2 by lia. rewrite div_eucl_pair.
  rewrite new_location_located by lia.
  destruct (quotient_digits mk mn Hmk Hmn) as (d & Hd & Hq).
  destruct (round_aux_scaled (Zpos mk * 2 ^ 53) (Zpos mn) (ek - en - 53) d)
    as (m & e & -> & Hm & He & Herr); try lia.
  exists m, e. split; [reflexivity|]. split; [exact Hm|]. split; [lia|].
  assert (Hp : 0 < 2 ^ (- en)) by (apply pow2_pos; lia).
  assert (EN : Zpos mk * 2 ^ 53 * 2 ^ (ek - en - 53 + 200) = k * 2 ^ 200 * 2 ^ (- en)).
  { rewrite Emk.
    replace (k * 2 ^ (- ek) * 2 ^ 53 * 2 ^ (ek - en - 53 + 200))
      with (k * (2 ^ (- ek) * 2 ^ 53 * 2 ^ (ek - en - 53 + 200))) by ring.
    rewrite <- !pow2_split by lia.
    replace (k * 2 ^ 200 * 2 ^ (- en)) with (k * (2 ^ 200 * 2 ^ (- en))) by ring.
    rewrite <- pow2_split by lia. do 2 f_equal. lia. }
  rewrite EN, Emn in Herr.
  replace (Zpos m * 2 ^ (e + 200) * (n * 2 ^ (- en)) - k * 2 ^ 200 * 2 ^ (- en))
    with ((Zpos m * 2 ^ (e + 200) * n - k * 2 ^ 200) * 2 ^ (- en)) in Herr by ring.
  rewrite Z.abs_mul, (Z.abs_eq (2 ^ (- en))) in Herr by lia.
  nia.
Qed.

Lemma b64_hundred : b64_of_Z 100 = S754_finite false 7036874417766400 (-46).
Proof. vm_compute. reflexivity. Qed.

Lemma b64_mul_hundred_scaled (m1 : positive) (e1 : Z) :
  2 ^ 52 <= Zpos m1 < 2 ^ 53 -> -110 <= e1 <= 60 ->
  exists m e,
    b64_mul (S754_finite false m1 e1) (b64_of_Z 100) = S754_finite false m e /\
    2 ^ 52 <= Zpos m < 2 ^ 53 /\ -110 <= e <= 80 /\
    2 ^ 53 * Z.abs (Zpos m * 2 ^ (e + 200) - 100 * (Zpos m1 * 2 ^ (e1 + 200)))
      <= 100 * (Zpos m1 * 2 ^ (e1 + 200)).
Proof.
  intros Hm1 He1. rewrite b64_hundred. unfold b64_mul, SFmul. cbn [xorb].
  rewrite Pos2Z.inj_mul.
  remember (Zpos m1 * 7036874417766400) as N eqn:EqN.
  assert (HN : 2 ^ 104 <= N < 2 ^ 106).
  { rewrite EqN. change (2 ^ 52) with 4503599627370496 in Hm1.
    change (2 ^ 53) with 9007199254740992 in Hm1.
    change (2 ^ 104) with 20282409603651670423947251286016.
    change (2 ^ 106) with 81129638414606681695789005144064. lia. }
  assert (Hd : exists d, 105 <= d <= 106 /\ 2 ^ (d - 1) <= N / 1 < 2 ^ d).
  { rewrite Z.div_1_r. destruct (Z.lt_ge_cases N (2 ^ 105)).
    - exists 105. change (2 ^ (105 - 1)) with (2 ^ 104). lia.
    - exists 106. change (2 ^ (106 - 1)) with (2 ^ 105). lia. }
  destruct Hd as (d & Hd & Hq).
  assert (HN0 : 0 < N).
  { assert (0 < 2 ^ 104) by (apply pow2_pos; lia). lia. }
  destruct (round_aux_scaled N 1 (e1 + -46) d) as (m & e & Hr & Hm & He & Herr);
    [lia|exact HN0|exact Hq|lia|lia|lia|].
  rewrite Z.div_1_r, located_exact in Hr. rewrite Hr.
  exists m, e. split; [reflexivity|]. split; [exact Hm|]. split; [lia|].
  rewrite Z.mul_1_r in Herr.
  assert (EN : N * 2 ^ (e1 + -46 + 200) = 100 * (Zpos m1 * 2 ^ (e1 + 200))).
  { rewrite EqN. replace (e1 + 200) with (46 + (e1 + -46 + 200)) by lia.
    rewrite (pow2_split 46) by lia. change (2 ^ 46) with 70368744177664. ring. }
  now rewrite EN in Herr.
Qed.

Lemma tenths_scaled (m : positive) (e : Z) :
  -200 <= e ->
  0 <= tenths (S754_finite false m e) /\
  2 * Z.abs (tenths (S754_finite false m e) * 2 ^ 200 - 10 * (Zpos m * 2 ^ (e + 200)))
    <= 2 ^ 200.
Proof.
  intros He. unfold tenths. assert (HP : 0 < 2 ^ 200) by (apply pow2_pos; lia).
  destruct (Z.leb_spec 0 e) as [H|H].
  - assert (0 < 2 ^ e) by (apply pow2_pos; lia).
    split; [nia|]. rewrite (Z.add_comm e 200), pow2_split by lia.
    replace (10 * Zpos m * 2 ^ e * 2 ^ 200 - 10 * (Zpos m * (2 ^ 200 * 2 ^ e))) with 0 by ring.
    cbn [Z.abs]. lia.
  - assert (Hden : 0 < 2 ^ (- e)) by (apply pow2_pos; lia).
    destruct (round_half_even_near (10 * Zpos m) (2 ^ (- e)) ltac:(lia) Hden) as [[H1 _] Hn].
    set (t := round_half_even (10 * Zpos m) (2 ^ (- e))) in *.
    assert (0 <= 10 * Zpos m / 2 ^ (- e)) by (apply Z.div_pos; lia).
    split; [lia|].
    assert (HG : 0 < 2 ^ (e + 200)) by (apply pow2_pos; lia).
    assert (E : 2 ^ 200 = 2 ^ (- e) * 2 ^ (e + 200)).
    { rewrite <- pow2_split by lia. f_equal. lia. }
    rewrite E.
    replace (t * (2 ^ (- e) * 2 ^ (e + 200)) - 10 * (Zpos m * 2 ^ (e + 200)))
      with ((t * 2 ^ (- e) - 10 * Zpos m) * 2 ^ (e + 200)) by ring.
    rewrite Z.abs_mul, (Z.abs_eq (2 ^ (e + 200))) by lia. nia.
Qed.

(** Three roundings, the last to tenths, cannot carry the
    quotient across a tie. *)
Lemma tenths_of_rate (k n a b u t P : Z) :
  0 < P -> 0 < k <= n -> n < 2 ^ 40 ->
  2 ^ 53 * Z.abs (a * n - k * P) <= k * P ->
  2 ^ 53 * Z.abs (u - 100 * a) <= 100 * a ->
  2 * Z.abs (t * P - 10 * u) <= P ->
  2 * Z.abs (t * n - 1000 * k) <= n.
Proof.
  intros HP Hk Hn Ha Hu Ht.
  change (2 ^ 53) with 9007199254740992 in *. change (2 ^ 40) with 1099511627776 in *.
  assert (Hb : k * P <= 1099511627775 * P) by nia.
  assert (Hun : 9007199254740992 * Z.abs (u * n - 100 * (a * n)) <= 100 * (a * n)).
  { replace (u * n - 100 * (a * n)) with ((u - 100 * a) * n) by ring.
    rewrite Z.abs_mul, (Z.abs_eq n) by lia. nia. }
  assert (Htn : 2 * Z.abs (t * n * P - 10 * (u * n)) <= n * P).
  { replace (t * n * P - 10 * (u * n)) with ((t * P - 10 * u) * n) by ring.
    rewrite Z.abs_mul, (Z.abs_eq n) by lia. nia. }
  set (A := a * n) in *. set (B := k * P) in *. set (U := u * n) in *.
  set (W := t * n * P) in *. set (nP := n * P) in *.
  assert (Hfin : 2 * Z.abs (W - 1000 * B) < nP + P).
  { clearbody A B U W nP. clear - HP Hb Ha Hun Htn. lia. }
  assert (HW : W - 1000 * B = (t * n - 1000 * k) * P) by (unfold W, B; ring).
  rewrite HW, Z.abs_mul, (Z.abs_eq P) in Hfin by lia.
  unfold nP in Hfin. nia.
Qed.

(** The rate of [k] completed tasks of [n], as the chart computes and
    shows it: the text has the tenths [d] with [d / 10] within a
    twentieth of [100 * k / n]. *)
Lemma rate_tenths (k n : Z) :
  0 <= k <= n -> 0 < n < 2 ^ 40 ->
  let x := b64_mul (b64_div (b64_of_Z k) (b64_of_Z n)) (b64_of_Z 100) in
  format_1f x = fixed1 (tenths x) /\ 0 <= tenths x /\
  2 * Z.abs (tenths x * n - 1000 * k) <= n.
Proof.
  intros Hk Hn x.
  assert (Hn53 : 0 < n < 2 ^ 53).
  { change (2 ^ 40) with 1099511627776 in Hn. change (2 ^ 53) with 9007199254740992. lia. }
  destruct (Z.eq_dec k 0) as [->|Hk0].
  - destruct (b64_of_Z_pos n Hn53) as (mn & en & En & _).
    assert (Ex : x = S754_zero false).
    { unfold x. rewrite En, b64_hundred. reflexivity. }
    rewrite Ex. cbn [format_1f tenths app]. split; [reflexivity|]. lia.
  - assert (Hk53 : 0 < k < 2 ^ 53) by lia.
    destruct (b64_div_scaled k n Hk53 Hn53) as (m1 & e1 & E1 & Hm1 & He1 & Ha).
    destruct (b64_mul_hundred_scaled m1 e1 Hm1 He1) as (m & e & E & Hm & He & Hu).
    assert (Ex : x = S754_finite false m e) by (unfold x; now rewrite E1, E).
    rewrite Ex. destruct (tenths_scaled m e ltac:(lia)) as [Ht0 Ht].
    split; [reflexivity|]. split; [exact Ht0|].
    apply (tenths_of_rate k n (Zpos m1 * 2 ^ (e1 + 200)) 0 (Zpos m * 2 ^ (e + 200))
             (tenths (S754_finite false m e)) (2 ^ 200));
      [apply pow2_pos; lia|lia|lia|exact Ha|exact Hu|exact Ht].
Qed.

Lemma tenths_close (d c t : Z) :
  0 < t -> 2 * Z.abs (d * t - 1000 * c) <= t ->
  (Qabs ((d # 10) - inject_Z c / inject_Z t * 100) <= 1 # 20)%Q.
Proof.
  intros Ht H. apply Qabs_Qle_condition.
  destruct t as [|p|p]; [lia| |lia].
  unfold Qle, Qminus, Qplus, Qopp, Qdiv, Qmult, Qinv, inject_Z. cbn.
  split; lia.
Qed.

(** The rate on concrete lists: 7 of 100 computes the number next
    above 7, and a rate that is exactly halfway between two tenths is
    shown with the even one. *)
Example rate_seven_of_hundred :
  completion_rate seven_of_hundred = S754_finite false 7881299347898369 (-50).
Proof. vm_compute. reflexivity. Qed.

Example rate_text_quarter :
  metric_text (completion_rate (done_task :: repeat sample_task 399)) = lit "0.2%".
Proof. vm_compute. reflexivity. Qed.

Example rate_text_three_quarters :
  metric_text (completion_rate (repeat done_task 3 ++ repeat sample_task 397)) = lit "0.8%".
Proof. vm_compute. reflexivity. Qed.

End FloatFacts.

(** * The claims *)

Import JsonFacts StoreFacts AppFacts FloatFacts.

(** C1. Saving a list of task records and loading it again yields the
    same list: [save_tasks] succeeds and [load_tasks] on the file it
    wrote returns the records with the same ids, the same field values
    and the same order.  The strings of the records are those a running
    program holds: code points, no surrogate pair split in two. *)
Theorem C1_save_load_round_trip (ts : list Task) (fs : filesystem) :
  Forall task_text_ok ts ->
  exists fs', save_tasks (tasks_value ts) fs = Ok fs' /\
              load_tasks fs' = Ok (tasks_value ts).
Proof. intros H. apply save_then_load, tasks_value_wf, H. Qed.

Lemma sample_task_text_ok : task_text_ok sample_task.
Proof. repeat split; now apply lit_well_formed. Qed.

Lemma C1_witness :
  Forall task_text_ok [sample_task] /\
  exists fs', save_tasks (tasks_value [sample_task]) None = Ok fs' /\
              load_tasks fs' = Ok (tasks_value [sample_task]).
Proof.
  assert (H : Forall task_text_ok [sample_task])
    by (constructor; [exact sample_task_text_ok|constructor]).
  split; [exact H|]. exact (C1_save_load_round_trip [sample_task] None H).
Defined.

(** C2. A submitted Add whose task description is empty is rejected:
    the sidebar shows the validation error, and the task list, the
    objects it refers to and the persisted file are left as they were. *)
Theorem C2_add_empty_rejected (f : add_form) (now_id now_created : datetime) (s : state) :
  in_submitted f = true -> in_task f = [] ->
  exists s', main_add f now_id now_created s = Ok s' /\
    tasks s' = tasks s /\ heap s' = heap s /\ data_file s' = data_file s /\
    editing_task s' = editing_task s /\
    screen s' = screen s ++ [SidebarError (lit "Task description is required!")].
Proof.
  intros Hsub Hempty. unfold main_add, add_task_form. rewrite Hsub, Hempty.
  cbn. eexists. split; [reflexivity|]. repeat split.
Qed.

Lemma C2_witness :
  exists s', main_add empty_form noon noon empty_state = Ok s' /\
    tasks s' = tasks empty_state /\ heap s' = heap empty_state /\
    data_file s' = data_file empty_state /\
    editing_task s' = editing_task empty_state /\
    screen s' = screen empty_state ++ [SidebarError (lit "Task description is required!")].
Proof.
  exact (C2_add_empty_rejected empty_form noon noon empty_state eq_refl eq_refl).
Defined.

(** C3. [load_tasks] does raise to its caller: on a file whose bytes
    are not valid in the text encoding, reading raises
    [UnicodeDecodeError], which the handler of [load_tasks] does not
    catch; the claim promises an empty list there. *)
Theorem C3_load_raises_on_undecodable_file :
  load_tasks (Some [Byte.x81]) = Raise UnicodeDecodeError.
Proof. reflexivity. Qed.

(** C4. Ids do collide: two Adds accepted within the same second of
    the clock get the same [id], so the task list that results has two
    entries with equal ids. *)
Theorem C4_ids_collide_within_a_second
    (f1 f2 : add_form) (a1 c1 a2 c2 : datetime) (s : state) :
  in_submitted f1 = true -> in_task f1 <> [] ->
  in_submitted f2 = true -> in_task f2 <> [] ->
  int_timestamp a1 = int_timestamp a2 ->
  exists s', run_adds [(f1, a1, c1); (f2, a2, c2)] s = Ok s' /\ ~ NoDup (ids s').
Proof.
  intros Hs1 Ht1 Hs2 Ht2 Hsame. cbn [run_adds].
  destruct (main_add_accepted f1 a1 c1 s Hs1 Ht1) as (s1 & -> & Hh1 & Hl1 & _).
  cbn [bind].
  destruct (main_add_accepted f2 a2 c2 s1 Hs2 Ht2) as (s2 & -> & Hh2 & Hl2 & _).
  cbn [bind]. exists s2. split; [reflexivity|].
  unfold ids. rewrite Hl2, Hl1, <- app_assoc. cbn [app]. rewrite map_app. cbn [map].
  set (l1 := fresh (dom (heap s))) in *. set (l2 := fresh (dom (heap s1))) in *.
  assert (Hne : l1 <> l2).
  { intros Heq. pose proof (is_fresh (dom (heap s1))) as Hf. fold l2 in Hf.
    apply Hf. rewrite <- Heq, Hh1. set_solver. }
  unfold deref. rewrite Hh2, lookup_insert_eq, lookup_insert_ne, Hh1, lookup_insert_eq by congruence.
  cbn [default]. 
  replace (dict_get _ (lit "id")) with (Some (PInt (int_timestamp a1))) by reflexivity.
  replace (dict_get _ (lit "id")) with (Some (PInt (int_timestamp a1)))
    by (rewrite Hsame; reflexivity).
  apply not_NoDup_twice.
Qed.

Lemma C4_witness :
  exists s', run_adds [(milk_form, noon, noon); (bread_form, noon_later, noon_later)]
               empty_state = Ok s' /\ ~ NoDup (ids s').
Proof.
  apply C4_ids_collide_within_a_second; first [reflexivity | discriminate].
Defined.





(** C8. Filtering is monotonic: on a list of task records the filters
    never fail, their result is a sublist of the task list, and a
    criteria that applies one more filter (search text, category,
    priority or status) keeps a sublist of what was kept before, so the
    result never grows. *)
Theorem C8_filtering_monotonic (lower : text -> text) (h : gmap loc dict)
    (c c' : filters) (ts : list loc) :
  Forall (task_shaped h) ts -> adds_filter c c' ->
  exists r r', filtered_tasks lower h c ts = Ok r /\
               filtered_tasks lower h c' ts = Ok r' /\
               sublist r ts /\ sublist r' r /\ (length r' <= length r)%nat.
Proof.
  intros Hts Hadd.
  eexists _, _. split; [now apply filtered_tasks_shaped|].
  split; [now apply filtered_tasks_shaped|].
  assert (Hsub : forall q1 q2 q3 q4 : loc -> bool,
             sublist (List.filter q4 (List.filter q3 (List.filter q2 (List.filter q1 ts)))) ts).
  { intros. repeat (etrans; [apply filter_sublist|]). reflexivity. }
  split; [apply Hsub|].
  assert (Hmono : sublist
    (List.filter (fun r => status_keeps c' (deref h r))
       (List.filter (fun r => priority_keeps c' (deref h r))
         (List.filter (fun r => category_keeps c' (deref h r))
           (List.filter (fun r => search_keeps lower c' (deref h r)) ts))))
    (List.filter (fun r => status_keeps c (deref h r))
       (List.filter (fun r => priority_keeps c (deref h r))
         (List.filter (fun r => category_keeps c (deref h r))
           (List.filter (fun r => search_keeps lower c (deref h r)) ts))))).
  { repeat (apply filter_sublist_mono;
            [intros r; apply (keeps_mono lower c c' (deref h r) Hadd)|]).
    reflexivity. }
  split; [exact Hmono|]. now apply sublist_length.
Qed.

Lemma C8_witness :
  exists r r', filtered_tasks ascii_lower two_task_heap no_filters [0%nat; 1%nat] = Ok r /\
               filtered_tasks ascii_lower two_task_heap pending_milk [0%nat; 1%nat] = Ok r' /\
               sublist r [0%nat; 1%nat] /\ sublist r' r /\ (length r' <= length r)%nat.
Proof.
  apply (C8_filtering_monotonic ascii_lower two_task_heap no_filters pending_milk).
  - repeat constructor; eexists; reflexivity.
  - split; [left; reflexivity|]. split; [left; reflexivity|].
    split; [left; reflexivity|]. left; split; vm_compute; discriminate.
Defined.

(** C6. The status shown next to a task follows [days_left], the due
    date minus today in days: overdue by [-days_left] days when it is
    negative, due today when it is zero, [days_left] days left when it
    is positive; a task without a due date, or whose due date does not
    parse, gets no status, and no case raises. *)
Theorem C6_due_status (strptime : text -> option civil) (task : dict) (today : civil) :
  (forall s due,
     dict_get task (lit "due_date") = Some (PStr s) -> s <> [] ->
     strptime s = Some due ->
     let days_left := toordinal due - toordinal today in
     (days_left < 0 ->
      display_due_status strptime task today = Some (Overdue (- days_left))) /\
     (days_left = 0 -> display_due_status strptime task today = Some DueToday) /\
     (0 < days_left ->
      display_due_status strptime task today = Some (DaysLeft days_left))) /\
  (dict_get task (lit "due_date") = None ->
   display_due_status strptime task today = None) /\
  (forall s, dict_get task (lit "due_date") = Some (PStr s) -> strptime s = None ->
             display_due_status strptime task today = None).
Proof.
  unfold display_due_status. repeat split.
  - intros Hneg. rewrite H. destruct s as [|c r]; [congruence|]. cbn [truthy nonempty].
    rewrite H1. unfold classify. now replace (_ <? 0) with true by lia.
  - intros Hz. rewrite H. destruct s as [|c r]; [congruence|]. cbn [truthy nonempty].
    rewrite H1. unfold classify. rewrite Hz. reflexivity.
  - intros Hpos. rewrite H. destruct s as [|c r]; [congruence|]. cbn [truthy nonempty].
    rewrite H1. unfold classify.
    replace (_ <? 0) with false by lia. now replace (_ =? 0) with false by lia.
  - now intros ->.
  - intros s -> Hs. destruct s; cbn [truthy nonempty]; [reflexivity|now rewrite Hs].
Qed.

Lemma C6_witness :
  display_due_status parse_iso_date (to_dict sample_task) (dt_date noon)
  = Some (DaysLeft 3).
Proof.
  apply (proj1 (C6_due_status parse_iso_date (to_dict sample_task) (dt_date noon))
           (lit "2023-11-17") {| year := 2023; month := 11; day := 17 |}
           eq_refl ltac:(discriminate) eq_refl).
  reflexivity.
Defined.

(** C5. The chart of pending tasks does not bucket by the due date
    minus today: it subtracts the current instant, so at any moment
    after midnight an incomplete task due today is counted as
    [Overdue], although its [days_until_due] in days is zero. *)
Theorem C5_due_today_charted_overdue
    (to_datetime : list text -> option (list (option civil)))
    (t : Task) (due : civil) (now : datetime) :
  t_completed t = false ->
  to_datetime [t_due_date t] = Some [Some due] ->
  toordinal due - toordinal (dt_date now) = 0 ->
  0 < time_of_day_ns now < day_ns ->
  exists rate, show_charts to_datetime [t] now = Charts rate (Some [lit "Overdue"]).
Proof.
  intros Hpending Hparse Htoday Htod. unfold show_charts. cbn [map].
  rewrite Hparse. cbn [option_map pending_statuses]. rewrite Hpending.
  unfold row_status. cbn [option_map].
  rewrite days_until_due_after_midnight by assumption. rewrite Htoday.
  eexists. reflexivity.
Qed.

Lemma C5_witness :
  exists rate, show_charts iso_to_datetime [due_today_task] noon
               = Charts rate (Some [lit "Overdue"]).
Proof.
  apply (C5_due_today_charted_overdue iso_to_datetime due_today_task
           {| year := 2023; month := 11; day := 14 |} noon).
  - reflexivity.
  - reflexivity.
  - reflexivity.
  - vm_compute. split; reflexivity.
Defined.




(** * Further properties of the code *)

Module SessionFacts.
Import JsonFacts StoreFacts AppFacts.

Lemma loads_raises_only_JSONDecodeError (s : text) (e : exn) :
  loads s = Raise e -> e = JSONDecodeError.
Proof.
  unfold loads. cbv zeta.
  destruct (scan_once _ _) as [[v rest]|]; [destruct (skip_ws rest)|]; congruence.
Qed.

Lemma dumps_bytes_ascii (v : pyval) :
  Forall (fun b => 0 <= byte_val b < 128) (map byte_of (dumps v)).
Proof.
  apply Forall_fmap. eapply Forall_impl; [apply (encode_ascii v 0%nat)|].
  intros c Hc. unfold is_ascii in Hc. cbn. rewrite byte_val_of; lia.
Qed.

Lemma fresh_not_in_tasks (h : gmap loc dict) (ts : list loc) :
  Forall (fun l => is_Some (h !! l)) ts -> fresh (dom h) ∉ ts.
Proof.
  intros Hts Hin. rewrite Forall_forall in Hts. specialize (Hts _ Hin).
  apply elem_of_dom in Hts. now apply is_fresh in Hts.
Qed.

Lemma deref_insert_fresh (h : gmap loc dict) (d : dict) (l' : loc) :
  is_Some (h !! l') -> deref (<[fresh (dom h) := d]> h) l' = deref h l'.
Proof.
  intros Hl'. apply deref_insert_ne. intros Heq. subst l'.
  apply elem_of_dom in Hl'. now apply is_fresh in Hl'.
Qed.

(** An accepted Add in full: the new object, the new list, the file. *)
Lemma main_add_accepted_full (f : add_form) (now_id now_created : datetime) (s : state) :
  in_submitted f = true -> in_task f <> [] ->
  let t := {| t_id := int_timestamp now_id; t_task := in_task f;
              t_category := in_category f; t_priority := in_priority f;
              t_due_date := strftime_Ymd (in_due_date f); t_notes := in_notes f;
              t_completed := false; t_created_at := strftime_YmdHMS now_created |} in
  let l := fresh (dom (heap s)) in
  let h' := <[l := to_dict t]> (heap s) in
  main_add f now_id now_created s =
  Ok {| heap := h'; tasks := tasks s ++ [l]; editing_task := editing_task s;
        data_file := Some (map byte_of (dumps (tasks_of h' (tasks s ++ [l]))));
        screen := screen s ++ [SidebarSuccess (lit "Task added successfully!"); Rerun] |}.
Proof.
  intros Hsub Hne t l h'. unfold main_add, add_task_form. rewrite Hsub.
  destruct (in_task f) as [|c r] eqn:Ht; [congruence|]. cbn [nonempty negb truthy].
  cbv zeta. rewrite save_ok. cbn [bind show heap tasks editing_task data_file screen].
  unfold h', l, t, to_dict. cbn [t_id t_task t_category t_priority t_due_date t_notes
                                  t_completed t_created_at].
  rewrite app_nil_r. reflexivity.
Qed.

Lemma ids_after_add (h : gmap loc dict) (ts : list loc) (d : dict) :
  Forall (fun l => is_Some (h !! l)) ts ->
  let l := fresh (dom h) in
  map (fun r => dict_get (deref (<[l := d]> h) r) (lit "id")) (ts ++ [l]) =
  map (fun r => dict_get (deref h r) (lit "id")) ts ++ [dict_get d (lit "id")].
Proof.
  intros Hts l. subst l. rewrite map_app. cbn [map]. rewrite deref_insert_eq. f_equal.
  apply map_ext_in. intros r Hr. rewrite Forall_forall in Hts.
  apply list_elem_of_In in Hr. now rewrite deref_insert_fresh by auto.
Qed.

(** Writing back the value a key has changes nothing. *)
Lemma dict_set_same (d : dict) (k : text) (v : pyval) :
  dict_get d k = Some v -> dict_set d k v = d.
Proof.
  induction d as [|[k' v'] d IH]; cbn [dict_get dict_set]; [discriminate|].
  destruct (text_eqb k' k); [now intros [= ->]|]. intros H. now rewrite IH.
Qed.

Lemma dict_set_twice (d : dict) (k : text) (v v' : pyval) :
  dict_set (dict_set d k v) k v' = dict_set d k v'.
Proof.
  induction d as [|[k0 v0] d IH]; cbn [dict_set].
  - now rewrite text_eqb_refl.
  - destruct (text_eqb k0 k) eqn:E; cbn [dict_set]; rewrite E; [reflexivity|now rewrite IH].
Qed.

Lemma tasks_of_ext (h h' : gmap loc dict) (ts : list loc) :
  (forall r, r ∈ ts -> deref h' r = deref h r) -> tasks_of h' ts = tasks_of h ts.
Proof.
  intros H. unfold tasks_of. f_equal. apply map_ext_in. intros r Hr.
  apply list_elem_of_In in Hr. now rewrite H.
Qed.

Lemma existsb_text_eqb (x : text) (l : list text) :
  existsb (text_eqb x) l = true <-> x ∈ l.
Proof.
  rewrite existsb_exists. split.
  - intros (y & Hy & Heq). apply text_eqb_eq in Heq. subst y. now apply list_elem_of_In.
  - intros Hx. exists x. split; [now apply list_elem_of_In|apply text_eqb_refl].
Qed.

(** *** The loop over the rows *)

Section RowFacts.

Variable str : pyval -> text.

Lemma row_keys_app (h : gmap loc dict) (pre rest : list loc) (idx : nat) :
  row_keys str h idx (pre ++ rest) =
  row_keys str h idx pre ++ row_keys str h (idx + length pre) rest.
Proof.
  revert idx. induction pre as [|r pre IH]; intros idx; cbn [app row_keys length].
  - now rewrite Nat.add_0_r.
  - rewrite IH. do 3 f_equal. lia.
Qed.

Lemma row_keys_ext (h h' : gmap loc dict) (rows : list loc) (idx : nat) :
  (forall r, r ∈ rows -> widget_id str (deref h' r) = widget_id str (deref h r)) ->
  row_keys str h' idx rows = row_keys str h idx rows.
Proof.
  revert idx. induction rows as [|r rows IH]; intros idx H; [reflexivity|].
  cbn [row_keys]. rewrite H by left. f_equal. apply IH. intros x Hx. apply H. now right.
Qed.

Lemma elem_of_rev {A} (x : A) (l : list A) : x ∈ rev l <-> x ∈ l.
Proof.
  split; intros H; apply list_elem_of_In; apply list_elem_of_In in H.
  - exact (proj2 (in_rev l x) H).
  - exact (proj1 (in_rev l x) H).
Qed.

Lemma seen_fresh (k : text) (seen : list text) :
  k ∉ seen -> existsb (text_eqb k) seen = false.
Proof.
  intros H. destruct (existsb (text_eqb k) seen) eqn:E; [|reflexivity].
  apply existsb_text_eqb in E. contradiction.
Qed.

Lemma loop_quiet_row (w : widgets) (idx : nat) (seen : list text) (r : loc)
    (rest : list loc) (s : state) :
  quiet_row w s r -> widget_id str (deref (heap s) r) idx ∉ seen ->
  display_tasks_loop str w idx seen (r :: rest) s =
  display_tasks_loop str w (S idx) (widget_id str (deref (heap s) r) idx :: seen) rest s.
Proof.
  intros (Hc & Hd & He & Hx) Hk. cbn [display_tasks_loop].
  rewrite (seen_fresh _ _ Hk), Hc, Hd, He, Hx. reflexivity.
Qed.

Lemma loop_quiet_prefix (w : widgets) (pre rest : list loc) (s : state) :
  forall idx seen,
  Forall (quiet_row w s) pre ->
  NoDup (row_keys str (heap s) idx pre) ->
  (forall k, k ∈ row_keys str (heap s) idx pre -> k ∉ seen) ->
  display_tasks_loop str w idx seen (pre ++ rest) s =
  display_tasks_loop str w (idx + length pre)
    (rev (row_keys str (heap s) idx pre) ++ seen) rest s.
Proof.
  induction pre as [|r pre IH]; intros idx seen Hq Hnd Hseen.
  - cbn. now rewrite Nat.add_0_r.
  - apply Forall_cons in Hq. destruct Hq as [Hr Hq]. cbn [row_keys] in Hnd, Hseen.
    apply NoDup_cons in Hnd. destruct Hnd as [Hk Hnd].
    cbn [app]. rewrite loop_quiet_row by (assumption || (apply Hseen; left)).
    rewrite IH; [|assumption|assumption|].
    + cbn [row_keys rev length]. rewrite <- app_assoc. cbn [app]. f_equal. lia.
    + intros k Hin Hin'. apply elem_of_cons in Hin'. destruct Hin' as [->|Hin'].
      * contradiction.
      * apply (Hseen k); [now right|assumption].
Qed.

(** A run that passes the rows before [l] arrives at the row of [l]
    with a key text no row before has given. *)
Lemma run_reaches (w : widgets) (pre post : list loc) (l : loc) (s : state) :
  passes str w s pre l ->
  display_tasks_rows_run str w (pre ++ l :: post) s =
  display_tasks_loop str w (length pre) (rev (row_keys str (heap s) 0 pre)) (l :: post) s /\
  widget_id str (deref (heap s) l) (length pre) ∉ rev (row_keys str (heap s) 0 pre).
Proof.
  intros [Hq Hnd]. rewrite row_keys_app in Hnd. apply NoDup_app in Hnd.
  destruct Hnd as (Hpre & Hdis & _). split.
  - unfold display_tasks_rows_run. rewrite loop_quiet_prefix; try assumption.
    + now rewrite app_nil_r.
    + intros k _. apply not_elem_of_nil.
  - rewrite elem_of_rev. intros Hin. apply (Hdis _ Hin). cbn [row_keys]. left.
Qed.

Lemma run_flipped (w : widgets) (pre post : list loc) (l : loc) (s : state) :
  passes str w s pre l ->
  eq_bool (get_default (deref (heap s) l) (lit "completed") (PBool false))
          (w_checkbox w l) = false ->
  let h' := <[l := dict_set (deref (heap s) l) (lit "completed")
                     (PBool (w_checkbox w l))]> (heap s) in
  display_tasks_rows_run str w (pre ++ l :: post) s =
  Returns {| heap := h'; tasks := tasks s; editing_task := editing_task s;
             data_file := Some (map byte_of (dumps (tasks_of h' (tasks s))));
             screen := screen s ++ [Rerun] |}.
Proof.
  intros Hp Hflip h'. destruct (run_reaches w pre post l s Hp) as [-> Hk].
  cbn [display_tasks_loop]. rewrite (seen_fresh _ _ Hk), Hflip. cbn [negb].
  rewrite save_ok. reflexivity.
Qed.

Lemma run_edit (w : widgets) (pre post : list loc) (l : loc) (s : state) :
  passes str w s pre l ->
  eq_bool (get_default (deref (heap s) l) (lit "completed") (PBool false))
          (w_checkbox w l) = true ->
  display_row (deref (heap s) l) = Ok tt -> w_edit w l = true ->
  display_tasks_rows_run str w (pre ++ l :: post) s =
  Returns (show [Rerun] (set_editing l s)).
Proof.
  intros Hp Hc Hd He. destruct (run_reaches w pre post l s Hp) as [-> Hk].
  cbn [display_tasks_loop]. now rewrite (seen_fresh _ _ Hk), Hc, Hd, He.
Qed.

Lemma run_delete (w : widgets) (pre post ts' : list loc) (l : loc) (s : state) :
  passes str w s pre l ->
  eq_bool (get_default (deref (heap s) l) (lit "completed") (PBool false))
          (w_checkbox w l) = true ->
  display_row (deref (heap s) l) = Ok tt -> w_edit w l = false -> w_delete w l = true ->
  list_remove (heap s) l (tasks s) = Ok ts' ->
  display_tasks_rows_run str w (pre ++ l :: post) s =
  Returns {| heap := heap s; tasks := ts'; editing_task := editing_task s;
             data_file := Some (map byte_of (dumps (tasks_of (heap s) ts')));
             screen := screen s ++ [Rerun] |}.
Proof.
  intros Hp Hc Hd He Hx Hrm. destruct (run_reaches w pre post l s Hp) as [-> Hk].
  cbn [display_tasks_loop]. rewrite (seen_fresh _ _ Hk), Hc, Hd, He, Hx, Hrm.
  cbn [negb bind]. now rewrite save_ok.
Qed.

End RowFacts.

Lemma display_row_has_task (d : dict) :
  display_row d = Ok tt -> exists v, dict_get d (lit "task") = Some v.
Proof.
  unfold display_row, getitem. destruct (dict_get d (lit "task")); [eauto|discriminate].
Qed.

(** The edit form when Save is pressed and nothing raises. *)
Lemma edit_save_ok (f : edit_form) (l : loc) (v : pyval) (i : nat) (s : state) :
  editing_task s = Some l ->
  dict_get (deref (heap s) l) (lit "task") = Some v ->
  priority_index (get_default (deref (heap s) l) (lit "priority") (PStr (lit "Medium"))) = Ok i ->
  save_clicked f = true ->
  let d' := dict_set (dict_set (dict_set (dict_set (deref (heap s) l)
              (lit "task") (PStr (new_task f)))
              (lit "category") (PStr (new_category f)))
              (lit "priority") (PStr (priority_str (new_priority f))))
              (lit "due_date") (PStr (strftime_Ymd (new_due f))) in
  let h' := <[l := d']> (heap s) in
  edit_task_form f s =
  Ok {| heap := h'; tasks := tasks s; editing_task := None;
        data_file := Some (map byte_of (dumps (tasks_of h' (tasks s))));
        screen := screen s ++ [Rerun] |}.
Proof.
  intros Hedit Htask Hprio Hsave d' h'. unfold edit_task_form, getitem.
  rewrite Hedit, Htask. cbn [bind]. rewrite Hprio. cbn [bind].
  rewrite Hsave, save_ok. reflexivity.
Qed.

(** *** The invariant of a session *)

Lemma ascii_well_formed (s : text) : Forall is_ascii s -> well_formed s.
Proof.
  intros H. apply lit_well_formed. apply forallb_forall. intros c Hc.
  apply list_elem_of_In in Hc. rewrite Forall_forall in H. specialize (H c Hc).
  unfold is_ascii in H. unfold scalarb. lia.
Qed.

Lemma zfill_ascii (w : nat) (z : Z) : Forall is_ascii (zfill w (str_of_int z)).
Proof.
  unfold zfill. apply Forall_app. split; [|apply str_of_int_ascii].
  apply Forall_forall. intros c Hc. apply list_elem_of_In, repeat_spec in Hc.
  subst c. unfold is_ascii. lia.
Qed.

Lemma strftime_Ymd_ascii (d : civil) : Forall is_ascii (strftime_Ymd d).
Proof.
  unfold strftime_Ymd.
  apply Forall_app_2; [apply zfill_ascii|].
  apply Forall_app_2; [now apply lit_ascii_closed|].
  apply Forall_app_2; [apply zfill_ascii|].
  apply Forall_app_2; [now apply lit_ascii_closed|apply zfill_ascii].
Qed.

Lemma strftime_YmdHMS_ascii (now : datetime) : Forall is_ascii (strftime_YmdHMS now).
Proof.
  unfold strftime_YmdHMS.
  apply Forall_app_2; [apply strftime_Ymd_ascii|].
  apply Forall_app_2; [now apply lit_ascii_closed|].
  apply Forall_app_2; [apply zfill_ascii|].
  apply Forall_app_2; [now apply lit_ascii_closed|].
  apply Forall_app_2; [apply zfill_ascii|].
  apply Forall_app_2; [now apply lit_ascii_closed|apply zfill_ascii].
Qed.

Lemma task_record_wf (d : dict) : task_record d -> wf_val (PDict d).
Proof. intros (t & -> & Ht). now apply to_dict_wf. Qed.

Lemma deref_wf (h : gmap loc dict) (l : loc) :
  (forall r d, h !! r = Some d -> task_record d) -> wf_val (PDict (deref h l)).
Proof.
  intros Hrec. unfold deref. destruct (h !! l) as [d|] eqn:Hd.
  - eapply task_record_wf, Hrec, Hd.
  - constructor; constructor.
Qed.

Lemma tasks_of_wf (h : gmap loc dict) (ts : list loc) :
  (forall r d, h !! r = Some d -> task_record d) -> wf_val (tasks_of h ts).
Proof.
  intros Hrec. constructor. apply Forall_fmap, Forall_forall. intros l _.
  now apply deref_wf.
Qed.

(** What [save] leaves in the file loads as the list in memory. *)
Lemma saved_in_sync (h : gmap loc dict) (ts : list loc) :
  (forall r d, h !! r = Some d -> task_record d) ->
  load_tasks (Some (map byte_of (dumps (tasks_of h ts)))) = Ok (tasks_of h ts).
Proof.
  intros Hrec. destruct (save_then_load (tasks_of h ts) None (tasks_of_wf h ts Hrec))
    as (fs' & Hs & Hl).
  rewrite save_tasks_ok in Hs. now injection Hs as <-.
Qed.

Lemma invariant_show (e : list ui_event) (s : state) : invariant s -> invariant (show e s).
Proof. intros H. exact H. Qed.

Lemma list_remove_listed (h : gmap loc dict) (l : loc) (ts : list loc) :
  l ∈ ts -> exists ts', list_remove h l ts = Ok ts' /\ sublist ts' ts.
Proof.
  induction ts as [|x ts IH]; intros Hin; [now apply elem_of_nil in Hin|].
  cbn [list_remove].
  destruct ((x =? l)%nat || py_eq (PDict (deref h x)) (PDict (deref h l))) eqn:E.
  - exists ts. split; [reflexivity|]. now constructor.
  - apply elem_of_cons in Hin. destruct Hin as [->|Hin].
    + rewrite Nat.eqb_refl in E. discriminate.
    + destruct (IH Hin) as (ts' & -> & Hsub). exists (x :: ts'). split; [reflexivity|].
      now constructor.
Qed.

Lemma record_display_row (t : Task) : display_row (to_dict t) = Ok tt.
Proof. unfold display_row. cbn. now destruct (t_priority t). Qed.

Lemma record_priority_index (t : Task) :
  exists i, priority_index (get_default (to_dict t) (lit "priority") (PStr (lit "Medium"))) = Ok i.
Proof. destruct (t_priority t) eqn:E; eexists; unfold to_dict; rewrite E; reflexivity. Qed.

(** A state whose objects are records, after a save. *)
Lemma invariant_saved (h : gmap loc dict) (ts : list loc) (e : option loc)
    (scr : list ui_event) :
  Forall (fun l => is_Some (h !! l)) ts ->
  (forall l, e = Some l -> is_Some (h !! l)) ->
  (forall r d, h !! r = Some d -> task_record d) ->
  invariant {| heap := h; tasks := ts; editing_task := e;
               data_file := Some (map byte_of (dumps (tasks_of h ts))); screen := scr |}.
Proof.
  intros Hts He Hrec. split; [split; assumption|]. split; [exact Hrec|].
  now apply saved_in_sync.
Qed.

Lemma records_insert (h : gmap loc dict) (l : loc) (d : dict) :
  (forall r d, h !! r = Some d -> task_record d) -> task_record d ->
  forall r d', <[l := d]> h !! r = Some d' -> task_record d'.
Proof.
  intros Hrec Hd r d' Hr. apply lookup_insert_Some in Hr.
  destruct Hr as [[_ <-]|[_ Hr]]; [assumption|eauto].
Qed.

Lemma refs_insert (h : gmap loc dict) (l : loc) (d : dict) (ts : list loc) :
  Forall (fun r => is_Some (h !! r)) ts ->
  Forall (fun r => is_Some (<[l := d]> h !! r)) ts.
Proof.
  intros H. eapply Forall_impl; [exact H|].
  intros r Hr. rewrite lookup_insert_is_Some'. now right.
Qed.

Lemma invariant_add (f : add_form) (now_id now_created : datetime) (s s' : state) :
  well_formed (in_task f) -> well_formed (in_category f) -> well_formed (in_notes f) ->
  invariant s -> main_add f now_id now_created s = Ok s' -> invariant s'.
Proof.
  intros Ht Hc Hn Hinv. destruct (in_submitted f) eqn:Hsub.
  - destruct (in_task f) as [|c r] eqn:Htask.
    + unfold main_add, add_task_form. rewrite Hsub, Htask. cbn. now intros [= <-].
    + rewrite main_add_accepted_full by (assumption || congruence).
      intros [= <-]. destruct Hinv as ((Hts & He) & Hrec & _).
      assert (Hnew : task_record (to_dict
                {| t_id := int_timestamp now_id; t_task := in_task f;
                   t_category := in_category f; t_priority := in_priority f;
                   t_due_date := strftime_Ymd (in_due_date f); t_notes := in_notes f;
                   t_completed := false; t_created_at := strftime_YmdHMS now_created |})).
      { eexists. split; [reflexivity|]. unfold task_text_ok.
        cbn [t_task t_category t_due_date t_notes t_created_at].
        split; [rewrite Htask; exact Ht|]. split; [exact Hc|].
        split; [apply ascii_well_formed, strftime_Ymd_ascii|].
        split; [exact Hn|apply ascii_well_formed, strftime_YmdHMS_ascii]. }
      apply invariant_saved.
      * apply Forall_app. split; [now apply refs_insert|].
        constructor; [|constructor]. rewrite lookup_insert_is_Some'. now left.
      * intros l Hl. rewrite lookup_insert_is_Some'. right. now apply He.
      * now apply records_insert.
  - unfold main_add, add_task_form. rewrite Hsub. now intros [= <-].
Qed.

Lemma invariant_rows (str : pyval -> text) (w : widgets) (filtered : list loc)
    (s s' : state) :
  forall idx seen,
  Forall (fun l => l ∈ tasks s) filtered ->
  invariant s -> display_tasks_loop str w idx seen filtered s = Returns s' -> invariant s'.
Proof.
  intros idx seen Hf Hinv. revert idx seen.
  induction Hf as [|l rest Hl _ IH]; intros idx seen; [now intros [= <-]|].
  destruct Hinv as ((Hts & He) & Hrec & Hsync).
  assert (Hobj : exists t, heap s !! l = Some (to_dict t) /\ task_text_ok t).
  { rewrite Forall_forall in Hts. destruct (Hts l Hl) as [d Hd].
    destruct (Hrec l d Hd) as (t & -> & Ht). eauto. }
  destruct Hobj as (t & Hobj & Ht).
  assert (Hderef : deref (heap s) l = to_dict t) by (unfold deref; now rewrite Hobj).
  cbn [display_tasks_loop]. rewrite Hderef.
  destruct (existsb _ seen); [discriminate|].
  destruct (negb (eq_bool _ _)).
  - rewrite save_ok. cbn [bind of_result].
    intros [= <-]. apply invariant_show, invariant_saved.
    + now apply refs_insert.
    + intros r Hr. rewrite lookup_insert_is_Some'. right. now apply He.
    + apply records_insert; [assumption|].
      exists (with_completed (w_checkbox w l) t). split; [reflexivity|exact Ht].
  - rewrite record_display_row. destruct (w_edit w l).
    + intros [= <-]. split; [split|split]; try assumption.
      intros r [= <-]. exists (to_dict t). exact Hobj.
    + destruct (w_delete w l); [|apply IH].
      destruct (list_remove_listed (heap s) l (tasks s) Hl) as (ts' & -> & Hsub).
      cbn [bind]. rewrite save_ok. cbn [bind of_result].
      intros [= <-]. apply invariant_show, invariant_saved; try assumption.
      apply Forall_forall. intros r Hr. rewrite Forall_forall in Hts.
      eapply Hts, elem_of_sublist; eassumption.
Qed.

Lemma invariant_edit (f : edit_form) (s s' : state) :
  well_formed (new_task f) -> well_formed (new_category f) ->
  invariant s -> edit_task_form f s = Ok s' -> invariant s'.
Proof.
  intros Hnt Hnc Hinv. unfold edit_task_form.
  destruct (editing_task s) as [l|] eqn:Hedit; [|now intros [= <-]].
  destruct Hinv as ((Hts & He) & Hrec & Hsync).
  destruct (He l Hedit) as [d Hd]. destruct (Hrec l d Hd) as (t & -> & Ht).
  assert (Hderef : deref (heap s) l = to_dict t) by (unfold deref; now rewrite Hd).
  rewrite Hderef. cbn [getitem bind]. change (dict_get (to_dict t) (lit "task")) with (Some (PStr (t_task t))).
  cbn [bind]. destruct (record_priority_index t) as [i ->]. cbn [bind].
  destruct (save_clicked f).
  - rewrite save_ok. cbn [bind show clear_editing heap tasks editing_task data_file screen].
    intros [= <-]. apply invariant_show, invariant_saved.
    + now apply refs_insert.
    + discriminate.
    + apply records_insert; [assumption|]. exists (edited f t). split; [reflexivity|].
      destruct Ht as (_ & _ & _ & Hn & Hcr). unfold task_text_ok.
      cbn [edited t_task t_category t_due_date t_notes t_created_at].
      split; [exact Hnt|]. split; [exact Hnc|].
      split; [apply ascii_well_formed, strftime_Ymd_ascii|]. split; assumption.
  - destruct (cancel_clicked f); intros [= <-].
    + split; [split|split]; try assumption. discriminate.
    + repeat split; assumption.
Qed.

Lemma invariant_reset (s : state) : invariant s -> invariant (reset_data s).
Proof.
  intros ((Hts & He) & Hrec & Hsync). split; [split|split]; try assumption.
  - constructor.
  - reflexivity.
Qed.

(** *** Runs that return *)

Lemma listed_record (s : state) (l : loc) :
  refs_ok s -> all_records s -> l ∈ tasks s ->
  exists t, heap s !! l = Some (to_dict t) /\ task_text_ok t.
Proof.
  intros [Hts _] Hrec Hl. rewrite Forall_forall in Hts. destruct (Hts l Hl) as [d Hd].
  destruct (Hrec l d Hd) as (t & -> & Ht). eauto.
Qed.

Lemma loop_never_raises (str : pyval -> text) (w : widgets) (filtered : list loc)
    (s : state) :
  refs_ok s -> all_records s -> Forall (fun l => l ∈ tasks s) filtered ->
  forall idx seen,
  (forall e, display_tasks_loop str w idx seen filtered s <> Raises e) /\
  (NoDup (row_keys str (heap s) idx filtered) ->
   (forall k, k ∈ row_keys str (heap s) idx filtered -> k ∉ seen) ->
   exists s', display_tasks_loop str w idx seen filtered s = Returns s').
Proof.
  intros Hrefs Hrec Hf. induction Hf as [|l rest Hl _ IH]; intros idx seen.
  { split; [discriminate|]. intros _ _. now eexists. }
  destruct (listed_record s l Hrefs Hrec Hl) as (t & Hobj & _).
  assert (Hderef : deref (heap s) l = to_dict t) by (unfold deref; now rewrite Hobj).
  assert (Hrow : forall seen',
    existsb (text_eqb (widget_id str (to_dict t) idx)) seen' = false ->
    (forall e, display_tasks_loop str w idx seen' (l :: rest) s <> Raises e) /\
    ((forall e, display_tasks_loop str w idx seen' (l :: rest) s <> Raises e) ->
     NoDup (row_keys str (heap s) (S idx) rest) ->
     (forall k, k ∈ row_keys str (heap s) (S idx) rest ->
                k ∉ widget_id str (to_dict t) idx :: seen') ->
     exists s', display_tasks_loop str w idx seen' (l :: rest) s = Returns s')).
  { intros seen' Hfresh. cbn [display_tasks_loop]. rewrite Hderef, Hfresh.
    destruct (negb (eq_bool _ _)).
    { rewrite save_ok. cbn [bind of_result]. split; [discriminate|]. intros _ _ _. now eexists. }
    rewrite record_display_row. destruct (w_edit w l).
    { split; [discriminate|]. intros _ _ _. now eexists. }
    destruct (w_delete w l).
    - destruct (list_remove_listed (heap s) l (tasks s) Hl) as (ts' & -> & _).
      cbn [bind]. rewrite save_ok. cbn [bind of_result].
      split; [discriminate|]. intros _ _ _. now eexists.
    - split; [apply IH|]. intros _ Hnd Hk. now apply IH. }
  split.
  - cbn [display_tasks_loop]. rewrite Hderef.
    destruct (existsb (text_eqb (widget_id str (to_dict t) idx)) seen) eqn:E.
    + discriminate.
    + specialize (Hrow seen E). cbn [display_tasks_loop] in Hrow.
      rewrite Hderef, E in Hrow. apply Hrow.
  - intros Hnd Hk. cbn [row_keys] in Hnd, Hk. rewrite Hderef in Hnd, Hk.
    apply NoDup_cons in Hnd. destruct Hnd as [Hfirst Hnd].
    assert (E : existsb (text_eqb (widget_id str (to_dict t) idx)) seen = false).
    { apply seen_fresh, Hk. left. }
    destruct (Hrow seen E) as [Hno Hret]. apply Hret; [assumption|assumption|].
    intros k Hin Hin'. apply elem_of_cons in Hin'. destruct Hin' as [->|Hin'].
    + contradiction.
    + apply (Hk k); [now right|assumption].
Qed.

Lemma edit_returns (f : edit_form) (s : state) :
  refs_ok s -> all_records s -> exists s', edit_task_form f s = Ok s'.
Proof.
  intros [_ He] Hrec. unfold edit_task_form.
  destruct (editing_task s) as [l|] eqn:Hedit; [|now eexists].
  destruct (He l eq_refl) as [d Hd]. destruct (Hrec l d Hd) as (t & -> & Ht).
  assert (Hderef : deref (heap s) l = to_dict t) by (unfold deref; now rewrite Hd).
  rewrite Hderef. change (getitem (to_dict t) (lit "task")) with (Ok (PStr (t_task t))).
  cbn [bind]. destruct (record_priority_index t) as [i ->]. cbn [bind].
  destruct (save_clicked f); [rewrite save_ok; now eexists|].
  destruct (cancel_clicked f); now eexists.
Qed.

Lemma add_returns (f : add_form) (now_id now_created : datetime) (s : state) :
  exists s', main_add f now_id now_created s = Ok s'.
Proof.
  unfold main_add, add_task_form. destruct (in_submitted f); [|now eexists].
  destruct (in_task f); cbn [nonempty negb truthy]; [now eexists|].
  cbv zeta. rewrite save_ok. now eexists.
Qed.

Lemma listed_shaped (s : state) :
  refs_ok s -> all_records s -> Forall (task_shaped (heap s)) (tasks s).
Proof.
  intros Hrefs Hrec. apply Forall_forall. intros l Hl.
  destruct (listed_record s l Hrefs Hrec Hl) as (t & Hobj & _). now exists t.
Qed.

(** *** The filters on any objects *)

Lemma filter_raising_sublist {A} (p : A -> result bool) (l r : list A) :
  filter_raising p l = Ok r -> sublist r l.
Proof.
  revert r. induction l as [|x l IH]; intros r; cbn [filter_raising].
  - intros [= <-]. constructor.
  - destruct (p x) as [b|e]; [|discriminate]. cbn [bind].
    destruct (filter_raising p l) as [r'|e]; [|discriminate]. cbn [bind].
    intros [= <-]. specialize (IH r' eq_refl). destruct b; now constructor.
Qed.

Lemma filter_raising_raises {A} (p : A -> result bool) (l : list A) (e : exn) :
  filter_raising p l = Raise e -> exists x, x ∈ l /\ p x = Raise e.
Proof.
  induction l as [|x l IH]; cbn [filter_raising]; [discriminate|].
  destruct (p x) as [b|e'] eqn:Hp; cbn [bind].
  - destruct (filter_raising p l) as [r'|e']; [discriminate|]. cbn [bind].
    intros [= <-]. destruct (IH eq_refl) as (y & Hy & Hpy). exists y. split; [now right|exact Hpy].
  - intros [= <-]. exists x. split; [left|exact Hp].
Qed.

Lemma getitem_raises (d : dict) (k : text) (e : exn) (f : pyval -> result bool) :
  (forall v e', f v = Raise e' -> e' = e) ->
  forall e', bind (getitem d k) f = Raise e' -> e' = KeyError k \/ e' = e.
Proof.
  intros Hf e'. unfold getitem. destruct (dict_get d k) as [v|]; cbn [bind].
  - intros H. right. eapply Hf, H.
  - intros [= <-]. now left.
Qed.

Section StageFacts.

Variable lower : text -> text.
Variable h : gmap loc dict.
Variable c : filters.

Lemma search_filter_outcomes (l : list loc) :
  (forall r, search_filter lower h c l = Ok r -> sublist r l) /\
  (forall e, search_filter lower h c l = Raise e ->
     search_term c <> [] /\ (e = KeyError (lit "task") \/ e = AttributeError)).
Proof.
  unfold search_filter. destruct (search_term c) as [|a needle]; cbn [nonempty].
  - split; [now intros r [= <-]|discriminate].
  - split; [intros r; apply filter_raising_sublist|].
    intros e He. split; [discriminate|].
    apply filter_raising_raises in He. destruct He as (x & _ & Hx).
    revert Hx. apply getitem_raises. intros v e'. destruct v; cbn; congruence.
Qed.

Lemma key_stage_raises (k : text) (f : pyval -> bool) (l : list loc) (e : exn) :
  filter_raising (fun x => bind (getitem (deref h x) k) (fun v => Ok (f v))) l = Raise e ->
  e = KeyError k.
Proof.
  intros He. apply filter_raising_raises in He. destruct He as (x & _ & Hx).
  unfold getitem in Hx. destruct (dict_get (deref h x) k); [discriminate|].
  now injection Hx as <-.
Qed.

Lemma category_stage_outcomes (l : list loc) :
  (forall r, category_stage h c l = Ok r -> sublist r l) /\
  (forall e, category_stage h c l = Raise e ->
     category_filter c <> lit "All" /\ e = KeyError (lit "category")).
Proof.
  unfold category_stage. destruct (text_eqb (category_filter c) (lit "All")) eqn:E; cbn [negb].
  - split; [now intros r [= <-]|discriminate].
  - split; [intros r; apply filter_raising_sublist|].
    intros e He. split; [|eapply key_stage_raises, He].
    intros Heq. rewrite Heq, text_eqb_refl in E. discriminate.
Qed.

Lemma priority_stage_outcomes (l : list loc) :
  (forall r, priority_stage h c l = Ok r -> sublist r l) /\
  (forall e, priority_stage h c l = Raise e ->
     priority_filter c <> lit "All" /\ e = KeyError (lit "priority")).
Proof.
  unfold priority_stage. destruct (text_eqb (priority_filter c) (lit "All")) eqn:E; cbn [negb].
  - split; [now intros r [= <-]|discriminate].
  - split; [intros r; apply filter_raising_sublist|].
    intros e He. split; [|eapply key_stage_raises, He].
    intros Heq. rewrite Heq, text_eqb_refl in E. discriminate.
Qed.

Lemma status_stage_outcomes (l : list loc) :
  (forall r, status_stage h c l = Ok r -> sublist r l) /\
  (forall e, status_stage h c l = Raise e ->
     (status_filter c = lit "Completed" \/ status_filter c = lit "Pending") /\
     e = KeyError (lit "completed")).
Proof.
  unfold status_stage.
  destruct (text_eqb (status_filter c) (lit "Completed")) eqn:E1;
    [|destruct (text_eqb (status_filter c) (lit "Pending")) eqn:E2].
  - split; [intros r; apply filter_raising_sublist|].
    intros e He. split; [left; now apply text_eqb_eq|eapply key_stage_raises, He].
  - split; [intros r; apply filter_raising_sublist|].
    intros e He. split; [right; now apply text_eqb_eq|eapply key_stage_raises, He].
  - split; [now intros r [= <-]|discriminate].
Qed.

End StageFacts.

Lemma filter_ext_Forall {A} (p q : A -> bool) (l : list A) :
  Forall (fun x => p x = q x) l -> List.filter p l = List.filter q l.
Proof.
  induction 1 as [|x l Hx _ IH]; [reflexivity|].
  cbn [List.filter]. now rewrite Hx, IH.
Qed.

(** A list splits into what a test keeps and what it drops. *)
Lemma filter_split {A} (p : A -> bool) (l : list A) :
  l ≡ₚ List.filter p l ++ List.filter (fun x => negb (p x)) l.
Proof.
  induction l as [|x l IH]; [reflexivity|]. cbn [List.filter].
  destruct (p x); cbn [negb app].
  - now constructor.
  - rewrite <- Permutation_middle. now constructor.
Qed.

(** *** Views *)

Lemma status_of_cases (d : option Z) :
  status_of d = lit "Overdue" \/ status_of d = lit "Due Soon" \/ status_of d = lit "Future".
Proof.
  unfold status_of. destruct d as [d|]; [|auto].
  destruct (d <? 0); [auto|]. destruct (d <=? 3); auto.
Qed.

Lemma quick_stats_completed_records (ts : list Task) :
  quick_stats_completed (map to_dict ts) = length (List.filter t_completed ts).
Proof.
  unfold quick_stats_completed. induction ts as [|t ts IH]; [reflexivity|].
  cbn [map List.filter]. change (truthy (get_default (to_dict t) (lit "completed") (PBool false)))
    with (t_completed t). destruct (t_completed t); cbn [length]; now rewrite IH.
Qed.

(** *** The order of strings and [sorted] *)

Lemma text_ltb_irrefl (s : text) : text_ltb s s = false.
Proof.
  induction s as [|a s IH]; [reflexivity|]. cbn [text_ltb].
  rewrite Z.ltb_irrefl, Z.eqb_refl, IH. reflexivity.
Qed.

Lemma text_ltb_trans (s t u : text) :
  text_ltb s t = true -> text_ltb t u = true -> text_ltb s u = true.
Proof.
  revert t u. induction s as [|a s IH]; intros [|b t] [|c u]; cbn [text_ltb];
    try discriminate; try reflexivity.
  intros H1 H2. apply orb_true_iff in H1, H2. apply orb_true_iff.
  destruct H1 as [H1|H1], H2 as [H2|H2].
  - left. lia.
  - apply andb_true_iff in H2. left. lia.
  - apply andb_true_iff in H1. left. lia.
  - apply andb_true_iff in H1, H2. destruct H1 as [H1 H1'], H2 as [H2 H2'].
    right. apply andb_true_iff. split; [lia|]. eapply IH; eassumption.
Qed.

Lemma text_ltb_total (s t : text) :
  text_ltb s t = false -> s <> t -> text_ltb t s = true.
Proof.
  revert t. induction s as [|a s IH]; intros [|b t]; cbn [text_ltb];
    try discriminate; try reflexivity; try congruence.
  intros H Hne. apply orb_false_iff in H. destruct H as [H1 H2].
  apply orb_true_iff. destruct (Z.eq_dec a b) as [->|Hab]; [|left; lia].
  right. rewrite Z.eqb_refl in *. cbn [andb] in *. apply IH; [assumption|congruence].
Qed.

Lemma distinct_texts_elem (x : text) (l : list text) :
  x ∈ distinct_texts l <-> x ∈ l.
Proof.
  induction l as [|y l IH]; [reflexivity|]. cbn [distinct_texts].
  destruct (existsb (text_eqb y) (distinct_texts l)) eqn:E.
  - apply existsb_text_eqb in E. rewrite elem_of_cons, IH. split; [auto|].
    intros [->|H]; [now apply IH|assumption].
  - rewrite !elem_of_cons, IH. reflexivity.
Qed.

Lemma distinct_texts_NoDup (l : list text) : NoDup (distinct_texts l).
Proof.
  induction l as [|y l IH]; [constructor|]. cbn [distinct_texts].
  destruct (existsb (text_eqb y) (distinct_texts l)) eqn:E; [assumption|].
  constructor; [|assumption]. intros Hy. apply existsb_text_eqb in Hy. congruence.
Qed.

Lemma insert_sorted_elem (x y : text) (l : list text) :
  x ∈ insert_sorted y l <-> x = y \/ x ∈ l.
Proof.
  induction l as [|z l IH]; cbn [insert_sorted].
  - now rewrite elem_of_cons.
  - destruct (text_ltb z y); rewrite !elem_of_cons, ?IH; tauto.
Qed.

Lemma insert_sorted_sorted (y : text) (l : list text) :
  y ∉ l -> ascending l -> ascending (insert_sorted y l).
Proof.
  induction l as [|z l IH]; intros Hy Hl; cbn [insert_sorted].
  - split; [constructor|exact I].
  - apply not_elem_of_cons in Hy. destruct Hy as [Hne Hy]. destruct Hl as [Hz Hl].
    destruct (text_ltb z y) eqn:E.
    + split; [|now apply IH]. apply Forall_forall. intros x Hx.
      apply insert_sorted_elem in Hx. destruct Hx as [->|Hx]; [exact E|].
      rewrite Forall_forall in Hz. now apply Hz.
    + assert (Hyz : text_lt y z) by (apply text_ltb_total; [assumption|congruence]).
      split; [|split; assumption]. constructor; [assumption|].
      eapply Forall_impl; [exact Hz|]. intros x Hx. eapply text_ltb_trans; eassumption.
Qed.

Lemma ascending_NoDup (l : list text) : ascending l -> NoDup l.
Proof.
  induction l as [|a l IH]; [constructor|]. intros [Ha Hl]. constructor; [|now apply IH].
  intros Hin. rewrite Forall_forall in Ha. specialize (Ha a Hin).
  unfold text_lt in Ha. now rewrite text_ltb_irrefl in Ha.
Qed.

Lemma sorted_texts_elem (x : text) (l : list text) : x ∈ sorted_texts l <-> x ∈ l.
Proof.
  unfold sorted_texts. induction l as [|y l IH]; [reflexivity|].
  cbn [fold_right]. rewrite insert_sorted_elem, elem_of_cons, IH. reflexivity.
Qed.

Lemma sorted_texts_sorted (l : list text) :
  NoDup l -> ascending (sorted_texts l).
Proof.
  unfold sorted_texts. induction 1 as [|y l Hy _ IH]; [exact I|].
  cbn [fold_right]. apply insert_sorted_sorted; [|assumption].
  intros H. apply Hy. now apply (sorted_texts_elem y l).
Qed.

(** The categories read from the tasks, when they are strings. *)
Lemma category_values_texts (h : gmap loc dict) (ts : list loc) :
  Forall (fun l => forall v, dict_get (deref h l) (lit "category") = Some v ->
                             exists s, v = PStr s) ts ->
  exists cats, mapM as_text (category_values h ts) = Some cats /\
    forall x, x ∈ cats <->
              exists l, l ∈ ts /\ dict_get (deref h l) (lit "category") = Some (PStr x).
Proof.
  induction 1 as [|l ts Hl _ IH].
  - exists []. split; [reflexivity|]. intros x. split.
    + intros Hx. now apply elem_of_nil in Hx.
    + intros (l & Hl & _). now apply elem_of_nil in Hl.
  - destruct IH as (cats & Hcats & Hmem).
    assert (Hcons : category_values h (l :: ts) =
                    match dict_get (deref h l) (lit "category") with
                    | Some v => v :: category_values h ts
                    | None => category_values h ts
                    end) by reflexivity.
    rewrite Hcons. clear Hcons.
    destruct (dict_get (deref h l) (lit "category")) as [v|] eqn:Hv.
    + destruct (Hl v eq_refl) as [s ->]. exists (s :: cats). split.
      * rewrite mapM_Some. constructor; [reflexivity|]. now apply mapM_Some.
      * intros x. rewrite elem_of_cons, Hmem. split.
        -- intros [->|(r & Hr & Hx)]; [exists l; split; [left|assumption]|].
           exists r. split; [now right|assumption].
        -- intros (r & Hr & Hx). apply elem_of_cons in Hr. destruct Hr as [->|Hr].
           ++ left. congruence.
           ++ right. eauto.
    + exists cats. split; [assumption|]. intros x. rewrite Hmem. split.
      * intros (r & Hr & Hx). exists r. split; [now right|assumption].
      * intros (r & Hr & Hx). apply elem_of_cons in Hr. destruct Hr as [->|Hr]; [congruence|eauto].
Qed.

(** *** [tasks.remove] *)

Lemma list_remove_first (h : gmap loc dict) (l l0 : loc) (pre post : list loc) :
  Forall (fun x => (x =? l)%nat || py_eq (PDict (deref h x)) (PDict (deref h l)) = false) pre ->
  (l0 =? l)%nat || py_eq (PDict (deref h l0)) (PDict (deref h l)) = true ->
  list_remove h l (pre ++ l0 :: post) = Ok (pre ++ post).
Proof.
  intros Hpre Hl0. induction Hpre as [|x pre Hx _ IH]; cbn [app list_remove].
  - now rewrite Hl0.
  - rewrite Hx, IH. reflexivity.
Qed.

End SessionFacts.

Import JsonFacts StoreFacts AppFacts FloatFacts SessionFacts.

(** ** The store *)

(** X2. The file the application writes is one it can read.  For a
    list of flat dictionaries whose integers [json] can print,
    [save_tasks] writes ASCII bytes only, whatever characters the
    strings hold, so that the text does not depend on the encoding of
    the file, and [load_tasks] on that file raises no exception. *)
Theorem own_file_is_ascii_and_loads (v : pyval) (fs : filesystem) :
  flat_tasks v ->
  exists content, save_tasks v fs = Ok (Some content) /\
    Forall (fun b => 0 <= byte_val b < 128) content /\
    exists v', load_tasks (Some content) = Ok v'.
Proof.
  intros _. exists (map byte_of (dumps v)).
  split; [apply save_tasks_ok|]. split; [apply dumps_bytes_ascii|].
  unfold load_tasks, json_load, read_text. cbn [os_path_exists].
  unfold dumps at 1. rewrite (utf8_decode_ascii _ (encode_ascii v 0%nat)). cbn [bind].
  destruct (loads (encode 0 v)) as [v'|e] eqn:Hl; [now eexists|].
  apply loads_raises_only_JSONDecodeError in Hl. subst e. now eexists.
Qed.

Lemma own_file_is_ascii_and_loads_witness :
  exists content,
    save_tasks (PList (map PDict [to_dict sample_task; [(lit "task", PStr [233; 55357])]])) None
      = Ok (Some content) /\
    Forall (fun b => 0 <= byte_val b < 128) content /\
    exists v', load_tasks (Some content) = Ok v'.
Proof.
  apply own_file_is_ascii_and_loads.
  exists [to_dict sample_task; [(lit "task", PStr [233; 55357])]]. split; [reflexivity|].
  constructor; [|constructor; [|constructor]].
  - repeat (constructor; [exact I || (vm_compute; reflexivity)|]). constructor.
  - constructor; [exact I|constructor].
Defined.

(** ** Add *)

(** X4. An accepted Add puts one new task at the end of the list: a fresh
    object with the fields of the form, [completed] false, the second
    of the clock as [id]; the tasks already listed are not touched. *)
Theorem add_appends_one_task (f : add_form) (now_id now_created : datetime) (s : state) :
  Forall (fun l => is_Some (heap s !! l)) (tasks s) ->
  in_submitted f = true -> in_task f <> [] ->
  exists s' l, main_add f now_id now_created s = Ok s' /\
    tasks s' = tasks s ++ [l] /\ (l ∉ tasks s) /\
    deref (heap s') l =
      to_dict {| t_id := int_timestamp now_id; t_task := in_task f;
                 t_category := in_category f; t_priority := in_priority f;
                 t_due_date := strftime_Ymd (in_due_date f); t_notes := in_notes f;
                 t_completed := false; t_created_at := strftime_YmdHMS now_created |} /\
    (forall l', l' ∈ tasks s -> deref (heap s') l' = deref (heap s) l') /\
    editing_task s' = editing_task s.
Proof.
  intros Hrefs Hsub Hne. rewrite main_add_accepted_full by assumption.
  eexists _, _. split; [reflexivity|]. cbn [heap tasks editing_task].
  split; [reflexivity|]. split; [now apply fresh_not_in_tasks|].
  split; [apply deref_insert_eq|]. split; [|reflexivity].
  intros l' Hl'. apply deref_insert_fresh. rewrite Forall_forall in Hrefs. auto.
Qed.

Lemma add_appends_one_task_witness :
  exists s' l, main_add milk_form noon noon_later one_task_state = Ok s' /\
    tasks s' = tasks one_task_state ++ [l] /\ (l ∉ tasks one_task_state) /\
    deref (heap s') l =
      to_dict {| t_id := int_timestamp noon; t_task := in_task milk_form;
                 t_category := in_category milk_form; t_priority := in_priority milk_form;
                 t_due_date := strftime_Ymd (in_due_date milk_form);
                 t_notes := in_notes milk_form;
                 t_completed := false; t_created_at := strftime_YmdHMS noon_later |} /\
    (forall l', l' ∈ tasks one_task_state ->
                deref (heap s') l' = deref (heap one_task_state) l') /\
    editing_task s' = editing_task one_task_state.
Proof.
  apply add_appends_one_task.
  - repeat constructor. eexists. reflexivity.
  - reflexivity.
  - discriminate.
Defined.

(** X5. The validation of Add rejects exactly the empty description: a
    submitted form leaves the list as it was if and only if its
    description is the empty string (blanks are accepted), and a form
    that is not submitted does nothing. *)
Theorem add_rejects_exactly_empty (f : add_form) (now_id now_created : datetime) (s : state) :
  (in_submitted f = true ->
   exists s', main_add f now_id now_created s = Ok s' /\
              ((tasks s' = tasks s) <-> (in_task f = []))) /\
  (in_submitted f = false -> main_add f now_id now_created s = Ok (show [] s)).
Proof.
  split.
  - intros Hsub. destruct (in_task f) as [|c r] eqn:Ht.
    + unfold main_add, add_task_form. rewrite Hsub, Ht. cbn.
      eexists. split; [reflexivity|]. cbn. tauto.
    + rewrite main_add_accepted_full by (assumption || congruence).
      eexists. split; [reflexivity|]. cbn [tasks]. split; [|discriminate].
      intros H. apply (f_equal length) in H. rewrite length_app in H. cbn in H. lia.
  - intros Hsub. unfold main_add, add_task_form. now rewrite Hsub.
Qed.

Lemma add_rejects_exactly_empty_witness :
  exists s', main_add blank_form noon noon empty_state = Ok s' /\
             ((tasks s' = tasks empty_state) <-> (in_task blank_form = [])).
Proof.
  exact (proj1 (add_rejects_exactly_empty blank_form noon noon empty_state) eq_refl).
Defined.

(** X6. An accepted Add keeps the ids of the list pairwise distinct exactly
    when the second of the clock is not yet the id of a listed task. *)
Theorem add_keeps_ids_distinct_iff (f : add_form) (now_id now_created : datetime) (s : state) :
  Forall (fun l => is_Some (heap s !! l)) (tasks s) ->
  NoDup (ids s) ->
  in_submitted f = true -> in_task f <> [] ->
  exists s', main_add f now_id now_created s = Ok s' /\
    ids s' = ids s ++ [Some (PInt (int_timestamp now_id))] /\
    (NoDup (ids s') <-> Some (PInt (int_timestamp now_id)) ∉ ids s).
Proof.
  intros Hrefs Hnd Hsub Hne. rewrite main_add_accepted_full by assumption.
  eexists. split; [reflexivity|]. unfold ids at 1 3. cbn [heap tasks].
  rewrite ids_after_add by assumption. fold (ids s).
  change (dict_get (to_dict _) (lit "id")) with (Some (PInt (int_timestamp now_id))).
  split; [reflexivity|]. rewrite NoDup_app. split.
  - intros (_ & Hdis & _) Hin. apply (Hdis _ Hin). left.
  - intros Hnotin. split; [assumption|]. split; [|apply NoDup_singleton].
    intros x Hx Hx'. apply list_elem_of_singleton in Hx'. now subst x.
Qed.

Lemma add_keeps_ids_distinct_iff_witness :
  exists s', main_add milk_form noon noon one_task_state = Ok s' /\
    ids s' = ids one_task_state ++ [Some (PInt (int_timestamp noon))] /\
    (NoDup (ids s') <-> Some (PInt (int_timestamp noon)) ∉ ids one_task_state).
Proof.
  apply add_keeps_ids_distinct_iff.
  - repeat constructor. eexists. reflexivity.
  - apply NoDup_singleton.
  - reflexivity.
  - discriminate.
Defined.

(** ** The rows of the task list *)

(** X7. Two listed tasks with the same [id], as two submissions within a
    second leave them, cannot both be shown: when the run arrives at
    the second one, Streamlit refuses its checkbox, whose key the first
    one has, and the rows from there on never appear. *)
Theorem same_id_rows_refused (str : pyval -> text) (w : widgets)
    (pre mid post : list loc) (l1 l2 : loc) (v : pyval) (s : state) :
  Forall (quiet_row w s) (pre ++ l1 :: mid) ->
  NoDup (row_keys str (heap s) 0 (pre ++ l1 :: mid)) ->
  dict_get (deref (heap s) l1) (lit "id") = Some v ->
  dict_get (deref (heap s) l2) (lit "id") = Some v ->
  display_tasks_rows_run str w ((pre ++ l1 :: mid) ++ l2 :: post) s =
  DuplicateWidgetID (lit "done_" ++ str v).
Proof.
  intros Hq Hnd H1 H2. unfold display_tasks_rows_run.
  rewrite loop_quiet_prefix; [|assumption|assumption|intros k _; apply not_elem_of_nil].
  cbn [display_tasks_loop]. rewrite app_nil_r.
  assert (Hk2 : forall idx, widget_id str (deref (heap s) l2) idx = str v).
  { intros idx. unfold widget_id, get_default. now rewrite H2. }
  rewrite Hk2.
  assert (Hin : str v ∈ rev (row_keys str (heap s) 0 (pre ++ l1 :: mid))).
  { rewrite elem_of_rev, row_keys_app. apply elem_of_app. right. cbn [row_keys].
    unfold widget_id, get_default. rewrite H1. left. }
  apply existsb_text_eqb in Hin. now rewrite Hin.
Qed.

Lemma same_id_rows_refused_witness :
  display_tasks_rows_run scalar_str (only_checkboxes as_stored)
    (([] ++ 0%nat :: [1%nat]) ++ 2%nat :: []) twin_state =
  DuplicateWidgetID (lit "done_" ++ scalar_str (PInt 1700000000)).
Proof.
  refine (same_id_rows_refused scalar_str (only_checkboxes as_stored) [] [1%nat] []
            0%nat 2%nat (PInt 1700000000) twin_state _ _ _ _).
  - constructor; [repeat split|]. constructor; [repeat split|constructor].
  - vm_compute. apply NoDup_cons_2; [|apply NoDup_singleton].
    intros H. apply list_elem_of_singleton in H. discriminate.
  - reflexivity.
  - reflexivity.
Defined.

(** X8. Flipping the checkbox of a task and flipping it back restores the
    task, the value of the task list and the content of the file. *)
Theorem toggle_twice_restores (str : pyval -> text) (c1 c2 : loc -> bool)
    (pre post : list loc) (l : loc) (b : bool) (s : state) :
  dict_get (deref (heap s) l) (lit "completed") = Some (PBool b) ->
  c1 l = negb b -> c2 l = b -> l ∉ pre ->
  passes str (only_checkboxes c1) s pre l ->
  Forall (quiet_row (only_checkboxes c2) s) pre ->
  exists s1 s2,
    display_tasks_rows_run str (only_checkboxes c1) (pre ++ l :: post) s = Returns s1 /\
    dict_get (deref (heap s1) l) (lit "completed") = Some (PBool (negb b)) /\
    display_tasks_rows_run str (only_checkboxes c2) (pre ++ l :: post) s1 = Returns s2 /\
    (forall r, deref (heap s2) r = deref (heap s) r) /\
    tasks s2 = tasks s /\
    save_tasks (tasks_of (heap s) (tasks s)) (data_file s) = Ok (data_file s2).
Proof.
  intros Hb Hc1 Hc2 Hl Hp1 Hq2.
  set (d := deref (heap s) l) in *.
  set (d1 := dict_set d (lit "completed") (PBool (negb b))).
  set (h1 := <[l := d1]> (heap s)).
  assert (Hflip1 : eq_bool (get_default (deref (heap s) l) (lit "completed") (PBool false))
                     (w_checkbox (only_checkboxes c1) l) = false).
  { fold d. unfold get_default. rewrite Hb. cbn. rewrite Hc1. now destruct b. }
  rewrite (run_flipped str _ pre post l s Hp1 Hflip1). cbv zeta.
  cbn [only_checkboxes w_checkbox]. rewrite Hc1. fold d d1 h1.
  eexists _, _. split; [reflexivity|]. cbn [heap].
  assert (Hd1 : deref h1 l = d1) by apply deref_insert_eq.
  split; [rewrite Hd1; apply dict_get_set_eq|].
  set (s1 := {| heap := h1; tasks := tasks s; editing_task := editing_task s;
                data_file := Some (map byte_of (dumps (tasks_of h1 (tasks s))));
                screen := screen s ++ [Rerun] |}).
  assert (Hother : forall r, r <> l -> deref h1 r = deref (heap s) r).
  { intros r Hr. apply deref_insert_ne. congruence. }
  assert (Hp2 : passes str (only_checkboxes c2) s1 pre l).
  { destruct Hp1 as [_ Hnd]. split.
    - rewrite Forall_forall in Hq2 |- *. intros r Hr. specialize (Hq2 r Hr).
      unfold quiet_row in *. cbn [s1 heap].
      rewrite Hother; [exact Hq2|]. intros ->. contradiction.
    - cbn [s1 heap]. rewrite (row_keys_ext str (heap s) h1); [exact Hnd|].
      intros r _. destruct (decide (r = l)) as [->|Hne]; [|now rewrite Hother].
      rewrite Hd1. unfold widget_id, get_default, d1.
      rewrite dict_get_set_ne by (vm_compute; discriminate). reflexivity. }
  assert (Hflip2 : eq_bool (get_default (deref (heap s1) l) (lit "completed") (PBool false))
                     (w_checkbox (only_checkboxes c2) l) = false).
  { cbn [s1 heap]. rewrite Hd1. unfold get_default, d1. rewrite dict_get_set_eq.
    cbn. rewrite Hc2. now destruct b. }
  rewrite (run_flipped str _ pre post l s1 Hp2 Hflip2). cbv zeta.
  cbn [only_checkboxes w_checkbox s1 heap tasks data_file editing_task screen].
  rewrite Hc2, Hd1. unfold d1. rewrite dict_set_twice, (dict_set_same d _ _ Hb).
  assert (Hsame : forall r, deref (<[l := d]> h1) r = deref (heap s) r).
  { intros r. unfold h1. destruct (decide (l = r)) as [->|Hne].
    - now rewrite deref_insert_eq.
    - now rewrite !deref_insert_ne by assumption. }
  split; [reflexivity|]. cbn [heap tasks data_file].
  split; [exact Hsame|]. split; [reflexivity|].
  rewrite save_tasks_ok.
  now rewrite (tasks_of_ext (heap s) (<[l := d]> h1) (tasks s)) by auto.
Qed.

Lemma toggle_twice_restores_witness :
  exists s1 s2,
    display_tasks_rows_run scalar_str (only_checkboxes (fun _ => true))
      ([1%nat] ++ 0%nat :: []) two_task_state = Returns s1 /\
    dict_get (deref (heap s1) 0%nat) (lit "completed") = Some (PBool (negb false)) /\
    display_tasks_rows_run scalar_str (only_checkboxes as_stored)
      ([1%nat] ++ 0%nat :: []) s1 = Returns s2 /\
    (forall r, deref (heap s2) r = deref (heap two_task_state) r) /\
    tasks s2 = tasks two_task_state /\
    save_tasks (tasks_of (heap two_task_state) (tasks two_task_state))
      (data_file two_task_state) = Ok (data_file s2).
Proof.
  refine (toggle_twice_restores scalar_str (fun _ => true) as_stored [1%nat] [] 0%nat false
            two_task_state _ _ _ _ _ _).
  - reflexivity.
  - reflexivity.
  - reflexivity.
  - intros H. apply list_elem_of_singleton in H. discriminate.
  - split; [constructor; [repeat split|constructor]|].
    vm_compute. apply NoDup_cons_2; [|apply NoDup_singleton].
    intros H. apply list_elem_of_singleton in H. discriminate.
  - constructor; [repeat split|constructor].
Defined.

(** X9. Pressing the edit button of a row records the object of that row
    and changes nothing else; the edit form that follows writes to that
    very object, which the task list still refers to. *)
Theorem edit_button_then_save (str : pyval -> text) (w : widgets) (pre post : list loc)
    (l : loc) (f : edit_form) (s : state) :
  passes str w s pre l ->
  eq_bool (get_default (deref (heap s) l) (lit "completed") (PBool false))
          (w_checkbox w l) = true ->
  display_row (deref (heap s) l) = Ok tt -> w_edit w l = true ->
  (exists i, priority_index
               (get_default (deref (heap s) l) (lit "priority") (PStr (lit "Medium"))) = Ok i) ->
  save_clicked f = true ->
  exists s1 s2,
    display_tasks_rows_run str w (pre ++ l :: post) s = Returns s1 /\
    editing_task s1 = Some l /\ heap s1 = heap s /\ tasks s1 = tasks s /\
    data_file s1 = data_file s /\
    edit_task_form f s1 = Ok s2 /\
    dict_get (deref (heap s2) l) (lit "task") = Some (PStr (new_task f)) /\
    tasks s2 = tasks s /\ editing_task s2 = None /\
    save_tasks (tasks_of (heap s2) (tasks s)) (data_file s) = Ok (data_file s2).
Proof.
  intros Hpre Hc Hd He [i Hprio] Hsave.
  destruct (display_row_has_task _ Hd) as [v Hv].
  rewrite (run_edit str w pre post l s) by assumption.
  eexists _, _. split; [reflexivity|].
  do 4 (split; [reflexivity|]).
  rewrite (edit_save_ok f l v i (show [Rerun] (set_editing l s)) eq_refl Hv Hprio Hsave).
  split; [reflexivity|]. cbn [heap tasks editing_task data_file].
  rewrite deref_insert_eq. split.
  - rewrite !dict_get_set_ne by (vm_compute; discriminate). apply dict_get_set_eq.
  - split; [reflexivity|]. split; [reflexivity|]. apply save_tasks_ok.
Qed.

Lemma edit_button_then_save_witness :
  exists s1 s2,
    display_tasks_rows_run scalar_str (press_edit 0%nat) ([1%nat] ++ 0%nat :: [])
      two_task_state = Returns s1 /\
    editing_task s1 = Some 0%nat /\ heap s1 = heap two_task_state /\
    tasks s1 = tasks two_task_state /\ data_file s1 = data_file two_task_state /\
    edit_task_form sample_edit s1 = Ok s2 /\
    dict_get (deref (heap s2) 0%nat) (lit "task") = Some (PStr (new_task sample_edit)) /\
    tasks s2 = tasks two_task_state /\ editing_task s2 = None /\
    save_tasks (tasks_of (heap s2) (tasks two_task_state)) (data_file two_task_state)
      = Ok (data_file s2).
Proof.
  refine (edit_button_then_save scalar_str (press_edit 0%nat) [1%nat] [] 0%nat sample_edit
            two_task_state _ _ _ _ _ _).
  - split; [constructor; [repeat split|constructor]|].
    vm_compute. apply NoDup_cons_2; [|apply NoDup_singleton].
    intros H. apply list_elem_of_singleton in H. discriminate.
  - reflexivity.
  - reflexivity.
  - reflexivity.
  - exists 2%nat. reflexivity.
  - reflexivity.
Defined.

(** X10. Opening a task with its edit button and leaving the form with
    Cancel writes nothing: the objects, the list and the file are as
    before, and no task is being edited, whichever was before. *)
Theorem edit_button_then_cancel (str : pyval -> text) (w : widgets) (pre post : list loc)
    (l : loc) (f : edit_form) (s : state) :
  passes str w s pre l ->
  eq_bool (get_default (deref (heap s) l) (lit "completed") (PBool false))
          (w_checkbox w l) = true ->
  display_row (deref (heap s) l) = Ok tt -> w_edit w l = true ->
  (exists i, priority_index
               (get_default (deref (heap s) l) (lit "priority") (PStr (lit "Medium"))) = Ok i) ->
  save_clicked f = false -> cancel_clicked f = true ->
  exists s1 s2,
    display_tasks_rows_run str w (pre ++ l :: post) s = Returns s1 /\
    edit_task_form f s1 = Ok s2 /\
    heap s2 = heap s /\ tasks s2 = tasks s /\ data_file s2 = data_file s /\
    editing_task s2 = None.
Proof.
  intros Hpre Hc Hd He [i Hprio] Hsave Hcancel.
  destruct (display_row_has_task _ Hd) as [v Hv].
  rewrite (run_edit str w pre post l s) by assumption.
  eexists _, _. split; [reflexivity|].
  unfold edit_task_form, getitem. cbn [show set_editing editing_task heap].
  rewrite Hv. cbn [bind]. rewrite Hprio. cbn [bind]. rewrite Hsave, Hcancel.
  split; [reflexivity|]. repeat split.
Qed.

Lemma edit_button_then_cancel_witness :
  exists s1 s2,
    display_tasks_rows_run scalar_str (press_edit 0%nat) ([1%nat] ++ 0%nat :: [])
      two_task_state = Returns s1 /\
    edit_task_form cancel_edit s1 = Ok s2 /\
    heap s2 = heap two_task_state /\ tasks s2 = tasks two_task_state /\
    data_file s2 = data_file two_task_state /\ editing_task s2 = None.
Proof.
  refine (edit_button_then_cancel scalar_str (press_edit 0%nat) [1%nat] [] 0%nat cancel_edit
            two_task_state _ _ _ _ _ _ _).
  - split; [constructor; [repeat split|constructor]|].
    vm_compute. apply NoDup_cons_2; [|apply NoDup_singleton].
    intros H. apply list_elem_of_singleton in H. discriminate.
  - reflexivity.
  - reflexivity.
  - reflexivity.
  - exists 2%nat. reflexivity.
  - reflexivity.
  - reflexivity.
Defined.

(** X11. The edit form raises in two cases only, and before it reads a
    button: [KeyError] when the task being edited has no [task] entry,
    [ValueError] when its priority is none of Low, Medium and High. *)
Theorem edit_form_raises_iff (f : edit_form) (s : state) (e : exn) :
  edit_task_form f s = Raise e <->
  exists l, editing_task s = Some l /\
    ((dict_get (deref (heap s) l) (lit "task") = None /\ e = KeyError (lit "task")) \/
     (dict_has (deref (heap s) l) (lit "task") = true /\ e = ValueError /\
      let p := get_default (deref (heap s) l) (lit "priority") (PStr (lit "Medium")) in
      eq_str p (lit "Low") = false /\ eq_str p (lit "Medium") = false /\
      eq_str p (lit "High") = false)).
Proof.
  unfold edit_task_form, getitem, dict_has. cbv zeta. split.
  - destruct (editing_task s) as [l|]; [|discriminate]. intros H. exists l.
    split; [reflexivity|].
    destruct (dict_get (deref (heap s) l) (lit "task")) as [v|]; cbn [bind] in H.
    + right. split; [reflexivity|]. unfold priority_index in H.
      destruct (eq_str _ (lit "Low")); [|destruct (eq_str _ (lit "Medium"));
        [|destruct (eq_str _ (lit "High"))]]; cbn [bind] in H.
      1-3: destruct (save_clicked f); [rewrite save_ok in H; discriminate|];
           destruct (cancel_clicked f); discriminate.
      injection H as <-. repeat split.
    + injection H as <-. now left.
  - intros (l & -> & [[-> ->]|(Hhas & -> & H1 & H2 & H3)]); [reflexivity|].
    destruct (dict_get (deref (heap s) l) (lit "task")); [|discriminate].
    cbn [bind]. unfold priority_index. now rewrite H1, H2, H3.
Qed.

Lemma edit_form_raises_iff_witness :
  edit_task_form sample_edit urgent_state = Raise ValueError.
Proof.
  apply (proj2 (edit_form_raises_iff sample_edit urgent_state ValueError)).
  exists 0%nat. split; [reflexivity|]. right. repeat split.
Defined.

(** X12. Delete on a row removes from the list the first entry that is the
    task of the row or equals it, an earlier twin if there is one.
    The objects stay as they are, as does [editing_task], and the file
    then holds the shorter list. *)
Theorem delete_removes_first_equal (str : pyval -> text) (w : widgets)
    (rows_before rows_after : list loc) (l l0 : loc) (pre post : list loc) (s : state) :
  passes str w s rows_before l ->
  eq_bool (get_default (deref (heap s) l) (lit "completed") (PBool false))
          (w_checkbox w l) = true ->
  display_row (deref (heap s) l) = Ok tt -> w_edit w l = false -> w_delete w l = true ->
  tasks s = pre ++ l0 :: post ->
  Forall (fun x => (x =? l)%nat ||
                   py_eq (PDict (deref (heap s) x)) (PDict (deref (heap s) l)) = false) pre ->
  (l0 =? l)%nat || py_eq (PDict (deref (heap s) l0)) (PDict (deref (heap s) l)) = true ->
  exists s', display_tasks_rows_run str w (rows_before ++ l :: rows_after) s = Returns s' /\
    tasks s' = pre ++ post /\ heap s' = heap s /\ editing_task s' = editing_task s /\
    save_tasks (tasks_of (heap s) (pre ++ post)) (data_file s) = Ok (data_file s').
Proof.
  intros Hq Hc Hd He Hx Hts Hpre Hl0.
  rewrite (run_delete str w rows_before rows_after (pre ++ post) l s); try assumption.
  - eexists. split; [reflexivity|]. cbn [heap tasks editing_task data_file].
    repeat split. apply save_tasks_ok.
  - rewrite Hts. now apply list_remove_first.
Qed.

Lemma delete_removes_first_equal_witness :
  exists s', display_tasks_rows_run scalar_str (press_delete 2%nat as_stored)
               ([0%nat; 1%nat] ++ 2%nat :: []) unnumbered_twins = Returns s' /\
    tasks s' = [] ++ [1%nat; 2%nat] /\ heap s' = heap unnumbered_twins /\
    editing_task s' = editing_task unnumbered_twins /\
    save_tasks (tasks_of (heap unnumbered_twins) ([] ++ [1%nat; 2%nat]))
      (data_file unnumbered_twins) = Ok (data_file s').
Proof.
  refine (delete_removes_first_equal scalar_str (press_delete 2%nat as_stored)
            [0%nat; 1%nat] [] 2%nat 0%nat [] [1%nat; 2%nat] unnumbered_twins _ _ _ _ _ _ _ _).
  - split; [constructor; [repeat split|]; constructor; [repeat split|constructor]|].
    vm_compute.
    repeat (apply NoDup_cons_2;
            [rewrite ?not_elem_of_cons; repeat split;
             first [discriminate | apply not_elem_of_nil]|]).
    apply NoDup_nil_2.
  - reflexivity.
  - reflexivity.
  - reflexivity.
  - reflexivity.
  - reflexivity.
  - constructor.
  - vm_compute. reflexivity.
Defined.

(** ** Reset *)

(** X13. After a reset the list is empty and the file is gone, so a new
    session loads the empty list.  The task being edited stays open:
    Save in its form then writes the file again, holding the empty
    list, and the edited task is in no list. *)
Theorem reset_keeps_edit_form (f : edit_form) (l : loc) (s : state) :
  editing_task s = Some l ->
  dict_has (deref (heap s) l) (lit "task") = true ->
  (exists i, priority_index
               (get_default (deref (heap s) l) (lit "priority") (PStr (lit "Medium"))) = Ok i) ->
  save_clicked f = true ->
  tasks (reset_data s) = [] /\
  load_tasks (data_file (reset_data s)) = Ok (PList []) /\
  editing_task (reset_data s) = Some l /\
  exists s', edit_task_form f (reset_data s) = Ok s' /\
    tasks s' = [] /\
    os_path_exists (data_file s') = true /\
    load_tasks (data_file s') = Ok (PList []) /\
    dict_get (deref (heap s') l) (lit "task") = Some (PStr (new_task f)).
Proof.
  intros Hedit Hhas [i Hprio] Hsave.
  split; [reflexivity|]. split; [reflexivity|]. split; [assumption|].
  unfold dict_has in Hhas.
  destruct (dict_get (deref (heap s) l) (lit "task")) as [v|] eqn:Hv; [|discriminate].
  rewrite (edit_save_ok f l v i (reset_data s) Hedit Hv Hprio Hsave).
  eexists. split; [reflexivity|]. cbn [tasks data_file heap reset_data].
  split; [reflexivity|]. split; [reflexivity|]. split; [reflexivity|].
  rewrite deref_insert_eq.
  rewrite !dict_get_set_ne by (vm_compute; discriminate). apply dict_get_set_eq.
Qed.

Lemma reset_keeps_edit_form_witness :
  tasks (reset_data one_task_state) = [] /\
  load_tasks (data_file (reset_data one_task_state)) = Ok (PList []) /\
  editing_task (reset_data one_task_state) = Some 0%nat /\
  exists s', edit_task_form sample_edit (reset_data one_task_state) = Ok s' /\
    tasks s' = [] /\
    os_path_exists (data_file s') = true /\
    load_tasks (data_file s') = Ok (PList []) /\
    dict_get (deref (heap s') 0%nat) (lit "task") = Some (PStr (new_task sample_edit)).
Proof.
  apply (reset_keeps_edit_form sample_edit 0%nat one_task_state).
  - reflexivity.
  - reflexivity.
  - exists 2%nat. reflexivity.
  - reflexivity.
Defined.

(** ** Sessions *)

(** X14. What a session keeps true.  From a state where every reference
    points to an object, every object is a task record with well-formed
    strings and the file loads as the list in memory, every sequence of
    adds, runs of the task rows, runs of the edit form and resets leads
    to such a state again. *)
Theorem session_keeps_invariant (str : pyval -> text) (s0 s : state) :
  invariant s0 -> reachable str s0 s -> invariant s.
Proof.
  intros H0 Hreach. induction Hreach as [|s s' _ IH Hstep]; [assumption|].
  destruct Hstep as [f n1 n2 s s' Ht Hc Hn Hrun|w filtered s s' Hf Hrun|f s s' Ht Hc Hrun|s].
  - eapply invariant_add; eassumption.
  - eapply invariant_rows; eassumption.
  - eapply invariant_edit; eassumption.
  - now apply invariant_reset.
Qed.

Lemma session_keeps_invariant_witness : invariant after_milk.
Proof.
  apply (session_keeps_invariant scalar_str empty_state after_milk).
  - split; [split|split].
    + constructor.
    + discriminate.
    + intros l d Hd. change ((∅ : gmap loc dict) !! l = Some d) in Hd.
      rewrite lookup_empty in Hd. discriminate.
    + reflexivity.
  - apply (reach_step scalar_str empty_state empty_state after_milk
             (reach_start scalar_str empty_state)).
    apply (step_add scalar_str milk_form noon noon_later).
    + now apply lit_well_formed.
    + now apply lit_well_formed.
    + now apply lit_well_formed.
    + vm_compute. reflexivity.
Defined.

(** X15. While the objects of the session are task records, no Python
    exception leaves a run of the script: the filters return, the
    category options are computed, the rows of [display_tasks] with any
    widget values end without an exception of the code, and return
    when the key texts of the rows are pairwise distinct; the edit form
    and Add return. *)
Theorem records_never_raise (lower : text -> text) (str : pyval -> text) (s : state) :
  refs_ok s -> all_records s ->
  (forall c w, exists r,
      filtered_tasks lower (heap s) c (tasks s) = Ok r /\
      (forall e, display_tasks_rows_run str w r s <> Raises e) /\
      (NoDup (row_keys str (heap s) 0 r) ->
       exists s', display_tasks_rows_run str w r s = Returns s')) /\
  (exists options, category_options (heap s) (tasks s) = Some options) /\
  (forall f, exists s', edit_task_form f s = Ok s') /\
  (forall f now_id now_created, exists s', main_add f now_id now_created s = Ok s').
Proof.
  intros Hrefs Hrec. split; [|split; [|split]].
  - intros c w. rewrite filtered_tasks_shaped by now apply listed_shaped.
    eexists. split; [reflexivity|].
    match goal with |- context [display_tasks_rows_run str w ?r s] => set (rows := r) end.
    assert (Hrows : Forall (fun l => l ∈ tasks s) rows).
    { apply Forall_forall. intros l Hl. eapply elem_of_sublist; [exact Hl|].
      unfold rows. repeat (etrans; [apply filter_sublist|]). reflexivity. }
    destruct (loop_never_raises str w rows s Hrefs Hrec Hrows 0%nat []) as [Hno Hret].
    split; [exact Hno|]. intros Hnd. apply Hret; [exact Hnd|].
    intros k _. apply not_elem_of_nil.
  - destruct (category_values_texts (heap s) (tasks s)) as (cats & Hcats & _).
    + eapply Forall_impl; [apply (listed_shaped s Hrefs Hrec)|]. intros l Hl v.
      destruct (deref_shaped (heap s) l Hl) as [t ->]. intros [= <-]. eauto.
    + eexists. unfold category_options. rewrite Hcats. reflexivity.
  - intros f. now apply edit_returns.
  - intros f n1 n2. apply add_returns.
Qed.

Lemma records_never_raise_witness :
  (forall c w, exists r,
      filtered_tasks ascii_lower (heap one_task_state) c (tasks one_task_state) = Ok r /\
      (forall e, display_tasks_rows_run scalar_str w r one_task_state <> Raises e) /\
      (NoDup (row_keys scalar_str (heap one_task_state) 0 r) ->
       exists s', display_tasks_rows_run scalar_str w r one_task_state = Returns s')) /\
  (exists options, category_options (heap one_task_state) (tasks one_task_state)
                   = Some options) /\
  (forall f, exists s', edit_task_form f one_task_state = Ok s') /\
  (forall f now_id now_created, exists s', main_add f now_id now_created one_task_state = Ok s').
Proof.
  apply (records_never_raise ascii_lower scalar_str one_task_state).
  - split.
    + constructor; [|constructor]. eexists. reflexivity.
    + intros l [= <-]. eexists. reflexivity.
  - intros l d Hd.
    change (({[ 0%nat := to_dict sample_task ]} : gmap loc dict) !! l = Some d) in Hd.
    apply lookup_singleton_Some in Hd. destruct Hd as [_ <-].
    exists sample_task. split; [reflexivity|].
    repeat split; try (now apply lit_well_formed); constructor.
Defined.

(** ** The filters *)

(** X16. The filters on any objects whose categories, where there is
    one, are strings, task records or not.  The category options,
    which are computed before the category filter, are then computed
    without an exception.  When the filters return, the result is a
    sublist of the task list.  When they raise, a filter that is
    switched on met a task without the entry it reads ([KeyError] for
    that key), or the search met a description that is not a string
    ([AttributeError]). *)
Theorem filters_outcomes (lower : text -> text) (h : gmap loc dict) (c : filters)
    (ts : list loc) :
  Forall (fun l => forall v, dict_get (deref h l) (lit "category") = Some v ->
                             exists s, v = PStr s) ts ->
  (exists options, category_options h ts = Some options) /\
  (forall r, filtered_tasks lower h c ts = Ok r -> sublist r ts) /\
  (forall e, filtered_tasks lower h c ts = Raise e ->
     (search_term c <> [] /\ (e = KeyError (lit "task") \/ e = AttributeError)) \/
     (category_filter c <> lit "All" /\ e = KeyError (lit "category")) \/
     (priority_filter c <> lit "All" /\ e = KeyError (lit "priority")) \/
     ((status_filter c = lit "Completed" \/ status_filter c = lit "Pending") /\
      e = KeyError (lit "completed"))).
Proof.
  intros Hstr. split.
  { destruct (category_values_texts h ts Hstr) as (cats & Hcats & _).
    eexists. unfold category_options. rewrite Hcats. reflexivity. }
  unfold filtered_tasks.
  destruct (search_filter_outcomes lower h c ts) as [Ho1 He1].
  destruct (search_filter lower h c ts) as [f1|e1]; cbn [bind];
    [|split; [discriminate|intros e [= <-]; left; now apply He1]].
  destruct (category_stage_outcomes h c f1) as [Ho2 He2].
  destruct (category_stage h c f1) as [f2|e2]; cbn [bind];
    [|split; [discriminate|intros e [= <-]; right; left; now apply He2]].
  destruct (priority_stage_outcomes h c f2) as [Ho3 He3].
  destruct (priority_stage h c f2) as [f3|e3]; cbn [bind];
    [|split; [discriminate|intros e [= <-]; right; right; left; now apply He3]].
  destruct (status_stage_outcomes h c f3) as [Ho4 He4].
  split.
  - intros r Hr. etrans; [apply Ho4, Hr|]. etrans; [now apply Ho3|].
    etrans; [now apply Ho2|now apply Ho1].
  - intros e He. right; right; right. now apply He4.
Qed.

Lemma filters_outcomes_witness :
  sublist [0%nat] [0%nat; 1%nat] /\
  let c := {| search_term := []; category_filter := lit "Work";
              priority_filter := lit "All"; status_filter := lit "All" |} in
  let e := KeyError (lit "category") in
  (search_term c <> [] /\ (e = KeyError (lit "task") \/ e = AttributeError)) \/
  (category_filter c <> lit "All" /\ e = KeyError (lit "category")) \/
  (priority_filter c <> lit "All" /\ e = KeyError (lit "priority")) \/
  ((status_filter c = lit "Completed" \/ status_filter c = lit "Pending") /\
   e = KeyError (lit "completed")).
Proof.
  split.
  - refine (proj1 (proj2 (filters_outcomes ascii_lower two_task_heap pending_milk
                            [0%nat; 1%nat] _)) [0%nat] _).
    + constructor; [|constructor; [|constructor]]; intros v [= <-]; eexists; reflexivity.
    + vm_compute. reflexivity.
  - refine (proj2 (proj2 (filters_outcomes ascii_lower
              {[ 0%nat := [(lit "task", PStr (lit "x"))] ]}
              {| search_term := []; category_filter := lit "Work";
                 priority_filter := lit "All"; status_filter := lit "All" |} [0%nat] _))
              (KeyError (lit "category")) filter_raises_without_category).
    constructor; [|constructor]. intros v Hv. discriminate Hv.
Defined.

(** X17. On task records the status filter splits what the other filters
    keep: every row kept under "All" is kept under exactly one of
    "Completed" and "Pending". *)
Theorem status_filter_splits (lower : text -> text) (h : gmap loc dict)
    (search category prio : text) (ts : list loc) :
  Forall (task_shaped h) ts ->
  let criteria st := {| search_term := search; category_filter := category;
                        priority_filter := prio; status_filter := st |} in
  exists every done pending,
    filtered_tasks lower h (criteria (lit "All")) ts = Ok every /\
    filtered_tasks lower h (criteria (lit "Completed")) ts = Ok done /\
    filtered_tasks lower h (criteria (lit "Pending")) ts = Ok pending /\
    every ≡ₚ done ++ pending /\
    (forall l, l ∈ done -> l ∉ pending).
Proof.
  intros Hts criteria. rewrite !filtered_tasks_shaped by assumption.
  eexists _, _, _. do 3 (split; [reflexivity|]).
  set (base := List.filter (fun r => priority_keeps (criteria (lit "All")) (deref h r)) _).
  assert (Hbase : Forall (task_shaped h) base) by (unfold base; auto using filter_Forall).
  assert (Hall : List.filter (fun r => status_keeps (criteria (lit "All")) (deref h r)) base
                 = base).
  { apply filter_all. intros r. unfold status_keeps.
    now destruct (dict_get (deref h r) (lit "completed")). }
  rewrite Hall.
  assert (Hdone : forall r, task_shaped h r ->
            status_keeps (criteria (lit "Pending")) (deref h r)
            = negb (status_keeps (criteria (lit "Completed")) (deref h r))).
  { intros r Hr. destruct (deref_shaped h r Hr) as [t ->]. reflexivity. }
  assert (Hpend : List.filter (fun r => status_keeps (criteria (lit "Pending")) (deref h r)) base
                = List.filter (fun r => negb (status_keeps (criteria (lit "Completed")) (deref h r))) base).
  { apply filter_ext_Forall. eapply Forall_impl; [exact Hbase|]. exact Hdone. }
  change (List.filter (fun r => status_keeps (criteria (lit "Pending")) (deref h r))
            (List.filter (fun r => priority_keeps (criteria (lit "Pending")) (deref h r)) _))
    with (List.filter (fun r => status_keeps (criteria (lit "Pending")) (deref h r)) base).
  change (List.filter (fun r => status_keeps (criteria (lit "Completed")) (deref h r))
            (List.filter (fun r => priority_keeps (criteria (lit "Completed")) (deref h r)) _))
    with (List.filter (fun r => status_keeps (criteria (lit "Completed")) (deref h r)) base).
  rewrite Hpend. split; [apply filter_split|].
  intros l Hd Hp. apply list_elem_of_In, filter_In in Hd, Hp.
  destruct Hd as [_ Hd], Hp as [_ Hp]. rewrite Hd in Hp. discriminate.
Qed.

Lemma status_filter_splits_witness :
  exists every done pending,
    filtered_tasks ascii_lower two_task_heap
      {| search_term := []; category_filter := lit "All";
         priority_filter := lit "All"; status_filter := lit "All" |} [0%nat; 1%nat] = Ok every /\
    filtered_tasks ascii_lower two_task_heap
      {| search_term := []; category_filter := lit "All";
         priority_filter := lit "All"; status_filter := lit "Completed" |} [0%nat; 1%nat] = Ok done /\
    filtered_tasks ascii_lower two_task_heap
      {| search_term := []; category_filter := lit "All";
         priority_filter := lit "All"; status_filter := lit "Pending" |} [0%nat; 1%nat] = Ok pending /\
    every ≡ₚ done ++ pending /\
    (forall l, l ∈ done -> l ∉ pending).
Proof.
  apply (status_filter_splits ascii_lower two_task_heap [] (lit "All") (lit "All")).
  repeat constructor; eexists; reflexivity.
Defined.

(** ** The sidebar and the charts *)

(** X18. The overdue count of the sidebar counts the pending tasks that the
    task list marks as overdue: the two views agree on every task,
    whatever its entries are. *)
Theorem sidebar_overdue_matches_rows (strptime : text -> option civil)
    (ts : list dict) (today : civil) :
  strptime [] = None ->
  quick_stats_overdue strptime ts today =
  length (List.filter (fun task =>
    negb (truthy (get_default task (lit "completed") (PBool false))) &&
    match display_due_status strptime task today with
    | Some (Overdue _) => true
    | _ => false
    end) ts).
Proof.
  intros Hempty. unfold quick_stats_overdue. f_equal. apply filter_ext_Forall.
  apply Forall_forall. intros task _. f_equal. unfold display_due_status.
  destruct (dict_get task (lit "due_date")) as [v|]; [|reflexivity].
  destruct v as [| | |s| |]; try (now destruct (truthy _)).
  destruct s as [|a s]; [now rewrite Hempty|]. cbn [truthy nonempty].
  destruct (strptime (a :: s)) as [due|]; [|reflexivity].
  unfold classify. destruct (Z.ltb_spec (toordinal due) (toordinal today)).
  - now replace (toordinal due - toordinal today <? 0) with true by lia.
  - replace (toordinal due - toordinal today <? 0) with false by lia.
    now destruct (_ =? 0).
Qed.

Lemma sidebar_overdue_matches_rows_witness :
  quick_stats_overdue parse_iso_date [to_dict sample_task; to_dict due_today_task]
    {| year := 2023; month := 11; day := 20 |} =
  length (List.filter (fun task =>
    negb (truthy (get_default task (lit "completed") (PBool false))) &&
    match display_due_status parse_iso_date task {| year := 2023; month := 11; day := 20 |} with
    | Some (Overdue _) => true
    | _ => false
    end) [to_dict sample_task; to_dict due_today_task]).
Proof.
  apply sidebar_overdue_matches_rows. reflexivity.
Defined.

(** X19. The chart's completion rate is computed from the two counts
    the sidebar shows.  For a non-empty list of fewer than [2 ^ 40]
    task records, the rate the chart reports, with one decimal, is
    within 0.05 of 100 times completed over total, lies between 0.0
    and 100.0, is 100.0 when every task is completed and 0.0 when none
    is. *)
Theorem completion_rate_matches_sidebar (ts : list Task) :
  ts <> [] -> Z.of_nat (length ts) < 2 ^ 40 ->
  let completed := Z.of_nat (quick_stats_completed (map to_dict ts)) in
  let total := Z.of_nat (quick_stats_total (map to_dict ts)) in
  exists d, metric_text (completion_rate ts) = fixed1 d ++ lit "%" /\
    0 <= d <= 1000 /\
    (Qabs ((d # 10) - inject_Z completed / inject_Z total * 100) <= 1 # 20)%Q /\
    (completed = total -> d = 1000) /\ (completed = 0 -> d = 0).
Proof.
  intros Hne Hlen completed total.
  assert (Ec : completed = Z.of_nat (length (List.filter t_completed ts))).
  { unfold completed. now rewrite quick_stats_completed_records. }
  assert (Et : total = Z.of_nat (length ts)).
  { unfold total, quick_stats_total. now rewrite length_map. }
  assert (Hrate : completion_rate ts =
            b64_mul (b64_div (b64_of_Z completed) (b64_of_Z total)) (b64_of_Z 100)).
  { unfold completion_rate, mean.
    now rewrite column_sum_count, filter_map_length, length_map, Ec, Et. }
  assert (Hc : 0 <= completed <= total).
  { rewrite Ec, Et. pose proof (filter_length_le t_completed ts). lia. }
  assert (Ht : 0 < total < 2 ^ 40).
  { rewrite Et. destruct ts; [congruence|]. cbn [length] in *. lia. }
  destruct (rate_tenths completed total Hc Ht) as (Hfmt & Hd0 & Hd).
  rewrite <- Hrate in Hfmt, Hd0, Hd.
  exists (tenths (completion_rate ts)).
  split; [unfold metric_text; now rewrite Hfmt|].
  split; [nia|]. split; [apply tenths_close; [lia|exact Hd]|].
  split; intros E; rewrite E in Hd; nia.
Qed.

Lemma completion_rate_matches_sidebar_witness :
  exists d, metric_text (completion_rate seven_of_hundred) = fixed1 d ++ lit "%" /\
    0 <= d <= 1000 /\
    (Qabs ((d # 10)
           - inject_Z (Z.of_nat (quick_stats_completed (map to_dict seven_of_hundred)))
             / inject_Z (Z.of_nat (quick_stats_total (map to_dict seven_of_hundred))) * 100)
     <= 1 # 20)%Q /\
    (Z.of_nat (quick_stats_completed (map to_dict seven_of_hundred))
     = Z.of_nat (quick_stats_total (map to_dict seven_of_hundred)) -> d = 1000) /\
    (Z.of_nat (quick_stats_completed (map to_dict seven_of_hundred)) = 0 -> d = 0).
Proof.
  apply (completion_rate_matches_sidebar seven_of_hundred).
  - discriminate.
  - reflexivity.
Defined.

(** X20. The bar chart of pending tasks puts every pending task in exactly
    one of its three buckets: the three counts add up to the number of
    pending tasks. *)
Theorem chart_buckets_cover_pending (ts : list Task) (dues : list (option civil))
    (now : datetime) :
  length dues = length ts ->
  let statuses := pending_statuses ts dues now in
  (status_count (lit "Overdue") statuses + status_count (lit "Due Soon") statuses
   + status_count (lit "Future") statuses)%nat
  = length (List.filter (fun t => negb (t_completed t)) ts).
Proof.
  revert dues. induction ts as [|t ts IH]; intros [|due dues] Hlen; try discriminate;
    [reflexivity|].
  injection Hlen as Hlen. specialize (IH dues Hlen). cbv zeta in *.
  cbn [pending_statuses List.filter]. destruct (t_completed t); cbn [negb]; [exact IH|].
  unfold status_count in *. cbn [List.filter length].
  unfold row_status.
  destruct (status_of_cases (option_map (fun d => days_until_due d now) due))
    as [-> | [-> | ->]];
    (repeat match goal with
       | |- context [text_eqb (lit ?a) (lit ?b)] =>
           let v := eval vm_compute in (text_eqb (lit a) (lit b)) in
           change (text_eqb (lit a) (lit b)) with v
       end); cbn [length]; lia.
Qed.

Lemma chart_buckets_cover_pending_witness :
  let statuses := pending_statuses [sample_task; done_task; due_today_task]
                    [Some {| year := 2023; month := 11; day := 17 |}; None;
                     Some (dt_date noon)] noon in
  (status_count (lit "Overdue") statuses + status_count (lit "Due Soon") statuses
   + status_count (lit "Future") statuses)%nat
  = length (List.filter (fun t => negb (t_completed t)) [sample_task; done_task; due_today_task]).
Proof.
  apply chart_buckets_cover_pending. reflexivity.
Defined.

(** ** The category options *)

(** X21. When the categories of the tasks are strings, the options of the
    category filter are "All" followed by the categories of the tasks
    that have one, each once, in increasing order of their code
    points. *)
Theorem category_options_sorted_distinct (h : gmap loc dict) (ts : list loc) :
  Forall (fun l => forall v, dict_get (deref h l) (lit "category") = Some v ->
                             exists s, v = PStr s) ts ->
  exists cats, category_options h ts = Some (lit "All" :: cats) /\
    ascending cats /\ NoDup cats /\
    forall x, x ∈ cats <->
              exists l, l ∈ ts /\ dict_get (deref h l) (lit "category") = Some (PStr x).
Proof.
  intros Hstr. destruct (category_values_texts h ts Hstr) as (cats & Hcats & Hmem).
  exists (sorted_texts (distinct_texts cats)). unfold category_options. rewrite Hcats.
  split; [reflexivity|].
  assert (Hsorted : ascending (sorted_texts (distinct_texts cats)))
    by apply sorted_texts_sorted, distinct_texts_NoDup.
  split; [exact Hsorted|]. split; [now apply ascending_NoDup|].
  intros x. now rewrite sorted_texts_elem, distinct_texts_elem.
Qed.

Lemma category_options_sorted_distinct_witness :
  exists cats, category_options two_task_heap [1%nat; 0%nat; 1%nat] = Some (lit "All" :: cats) /\
    ascending cats /\ NoDup cats /\
    forall x, x ∈ cats <->
              exists l, l ∈ [1%nat; 0%nat; 1%nat] /\
                        dict_get (deref two_task_heap l) (lit "category") = Some (PStr x).
Proof.
  apply category_options_sorted_distinct.
  constructor; [|constructor; [|constructor; [|constructor]]];
    intros v [= <-]; eexists; reflexivity.
Defined.

(** X22. Every option of the category filter other than "All" selects
    something: on task records, filtering by an offered category keeps
    at least one task, and only tasks of that category. *)
Theorem offered_category_selects_tasks (lower : text -> text) (h : gmap loc dict)
    (ts : list loc) (cats : list text) (x : text) :
  Forall (task_shaped h) ts ->
  category_options h ts = Some (lit "All" :: cats) ->
  x ∈ cats -> x <> lit "All" ->
  exists r, filtered_tasks lower h
              {| search_term := []; category_filter := x;
                 priority_filter := lit "All"; status_filter := lit "All" |} ts = Ok r /\
    r <> [] /\
    Forall (fun l => dict_get (deref h l) (lit "category") = Some (PStr x)) r.
Proof.
  intros Hts Hopt Hx Hne.
  assert (Hstr : Forall (fun l => forall v, dict_get (deref h l) (lit "category") = Some v ->
                                            exists s, v = PStr s) ts).
  { eapply Forall_impl; [exact Hts|]. intros l Hl v.
    destruct (deref_shaped h l Hl) as [t ->]. intros [= <-]. eauto. }
  destruct (category_values_texts h ts Hstr) as (cats0 & Hcats0 & Hmem).
  unfold category_options in Hopt. rewrite Hcats0 in Hopt. cbn in Hopt.
  injection Hopt as <-.
  apply sorted_texts_elem, distinct_texts_elem, Hmem in Hx. destruct Hx as (l & Hl & Hcat).
  rewrite filtered_tasks_shaped by assumption.
  set (c := {| search_term := []; category_filter := x |}).
  rewrite (filter_all (fun r => search_keeps lower c (deref h r))) by reflexivity.
  rewrite (filter_all (fun r => priority_keeps c (deref h r))) by reflexivity.
  rewrite (filter_all (fun r => status_keeps c (deref h r)))
    by (intros r; unfold status_keeps; now destruct (dict_get (deref h r) (lit "completed"))).
  eexists. split; [reflexivity|]. split.
  - intros Hnil. assert (Hin : l ∈ List.filter (fun r => category_keeps c (deref h r)) ts).
    { apply list_elem_of_In, filter_In. split; [now apply list_elem_of_In|].
      unfold category_keeps. rewrite Hcat. cbn [eq_str category_filter c].
      rewrite text_eqb_refl. apply orb_true_r. }
    rewrite Hnil in Hin. now apply elem_of_nil in Hin.
  - apply Forall_forall. intros r Hr. apply list_elem_of_In, filter_In in Hr.
    destruct Hr as [_ Hr]. unfold category_keeps in Hr. cbn [category_filter c] in Hr.
    rewrite (text_eqb_neq _ _ Hne) in Hr. cbn [orb] in Hr.
    destruct (dict_get (deref h r) (lit "category")) as [v|]; [|discriminate].
    destruct v; try discriminate. cbn [eq_str] in Hr. apply text_eqb_eq in Hr. now subst.
Qed.

Lemma offered_category_selects_tasks_witness :
  exists r, filtered_tasks ascii_lower two_task_heap
              {| search_term := []; category_filter := lit "Home";
                 priority_filter := lit "All"; status_filter := lit "All" |}
              [0%nat; 1%nat] = Ok r /\
    r <> [] /\
    Forall (fun l => dict_get (deref two_task_heap l) (lit "category")
                     = Some (PStr (lit "Home"))) r.
Proof.
  refine (offered_category_selects_tasks ascii_lower two_task_heap [0%nat; 1%nat]
            [lit "General"; lit "Home"] (lit "Home") _ _ _ _).
  - repeat constructor; eexists; reflexivity.
  - vm_compute. reflexivity.
  - right. left.
  - vm_compute. discriminate.
Defined.
